(** * Scheduler: availability over working days

    A shallow embedding of [scheduler.py]: the [Scheduler] class with its
    calendar index, the time conversions, the overlap merge, the busy and
    free slot queries, the availability check and the duration search,
    followed by the properties proved about them.

    Conventions.
    - Python [int] is [Z]; [//] and [%] with a positive divisor are [Z.div]
      and [Z.modulo].
    - Python [str] is [string]; [<] and [<=] on [str] are the lexicographic
      [String.ltb] and [String.leb].  Strings are byte strings here: text
      outside ASCII is outside the model.
    - The exception modelled is the [ValueError] of [_time_to_minutes] on a
      string that is no time; a computation that may raise it has type
      [option A], with [None] for the raised [ValueError].
    - The interpreter also raises [ValueError] when a decimal conversion
      ([int] of a string, [str] or the [d] format of an integer) meets more
      than [Py.max_str_digits] digits.  That limit is not part of [Py.int]
      and [Py.str]: a property that converts integers of any size carries
      it as a hypothesis.
    - A [dict] keyed by date is a [gmap string _]. *)

From Stdlib Require Import ZArith Lia Ascii String List Bool DecimalString DecimalZ DecimalPos.
From stdpp Require Import base option list gmap strings sorting.

Local Open Scope string_scope.
Local Open Scope list_scope.
Local Open Scope Z_scope.

(** ** Python builtins used by the class *)

Module Py.

(** The comparisons [<] and [<=] of an ordered Python type. *)
Class Ord (A : Type) := { lt : A → A → bool; le : A → A → bool }.

#[global] Instance Ord_int : Ord Z := {| lt := Z.ltb; le := Z.leb |}.
#[global] Instance Ord_str : Ord string := {| lt := String.ltb; le := String.leb |}.

(** [max(a, b)]: the first argument is kept unless the second is greater. *)
Definition max {A} `{Ord A} (a b : A) : A := if lt a b then b else a.

(** [sorted(l, key=key)]: a stable sort that compares keys with [<] only.
    An element is placed before the first element whose key is not
    smaller, so equal keys keep their order in [l]. *)
Fixpoint sorted_insert {A K} `{Ord K} (key : A → K) (x : A) (l : list A) : list A :=
  match l with
  | [] => [x]
  | y :: l' => if lt (key y) (key x) then y :: sorted_insert key x l' else x :: l
  end.

Definition sorted {A K} `{Ord K} (key : A → K) (l : list A) : list A :=
  foldr (sorted_insert key) [] l.

(** [s.split(":")]. *)
Fixpoint split_colon (s : string) : list string :=
  match s with
  | EmptyString => [EmptyString]
  | String c r =>
      if Ascii.eqb c ":" then EmptyString :: split_colon r
      else match split_colon r with
           | p :: ps => String c p :: ps
           | [] => [String c EmptyString]
           end
  end.

(** The white space that [int] strips from an ASCII string: tab, line
    feed, vertical tab, form feed, carriage return and space. *)
Definition is_space (c : ascii) : bool :=
  let n := N_of_ascii c in
  ((9 <=? n) && (n <=? 13) || (n =? 32))%N.

Definition is_digit (c : ascii) : bool :=
  let n := N_of_ascii c in ((48 <=? n) && (n <=? 57))%N.

Fixpoint lstrip (s : string) : string :=
  match s with
  | String c r => if is_space c then lstrip r else s
  | EmptyString => EmptyString
  end.

Fixpoint rstrip (s : string) : string :=
  match s with
  | EmptyString => EmptyString
  | String c r =>
      match rstrip r with
      | EmptyString => if is_space c then EmptyString else String c EmptyString
      | r' => String c r'
      end
  end.

(** The digits of an integer literal, with the underscores that [int]
    allows (single, between two digits) removed. *)
Fixpoint int_digits (prev_digit : bool) (s : string) : option string :=
  match s with
  | EmptyString => if prev_digit then Some EmptyString else None
  | String c r =>
      if is_digit c then String c <$> int_digits true r
      else if Ascii.eqb c "_" then
             if prev_digit then int_digits false r else None
           else None
  end.

(** [int(s)] in base ten on an ASCII string: surrounding white space, an
    optional sign, then digits.  [None] is the [ValueError] for a string
    that is no integer.
    The [ValueError] for more than [max_str_digits] digits is not raised
    here, nor in [str]: see [max_str_digits] below. *)
Definition int (s : string) : option Z :=
  let t := rstrip (lstrip s) in
  let '(neg, body) :=
    match t with
    | String c r =>
        if Ascii.eqb c "-" then (true, r)
        else if Ascii.eqb c "+" then (false, r)
        else (false, t)
    | EmptyString => (false, t)
    end in
  ds ← int_digits false body;
  u ← NilEmpty.uint_of_string ds;
  Some (if neg then - Z.of_uint u else Z.of_uint u).

(** [str(n)] of an integer: decimal, with a minus sign when negative. *)
Definition str (n : Z) : string := NilZero.string_of_int (Z.to_int n).

(** [f"{n:02d}"]: sign-aware zero padding to width two. *)
Definition format_02d (n : Z) : string :=
  let s := str n in
  if (String.length s <? 2)%nat then String "0" s else s.

(** [sys.int_info.default_max_str_digits]: the interpreter raises
    [ValueError] when [int] is given a string with more digits, and when
    [str] or the [d] format is given an integer with more digits.  [int],
    [str] and [format_02d] above are the conversions below that limit. *)
Definition max_str_digits : Z := 4300.

(** [n] is written with at most [max_str_digits] decimal digits. *)
Definition within_str_digits (n : Z) : Prop := Z.abs n < 10 ^ max_str_digits.

(** [s] has at most [max_str_digits] characters, and so no more digits. *)
Definition within_str_length (s : string) : Prop :=
  Z.of_nat (String.length s) ≤ max_str_digits.

End Py.

(** ** The provider payload and the calendar index *)

(** One entry of [data['days']]. *)
Record Day := { day_id : Z; day_date : string; day_start : string; day_end : string }.

(** One entry of [data['timeslots']]. *)
Record Timeslot := { ts_id : Z; ts_day_id : Z; ts_start : string; ts_end : string }.

(** What [_fetch_data] returns. *)
Record Payload := { data_days : list Day; data_timeslots : list Timeslot }.

(** The attributes of a [Scheduler] instance.  A time interval is passed
    around as a pair of ["HH:MM"] strings. *)
Record Scheduler := {
  data : Payload;
  days : gmap string Day;
  timeslots : gmap string (list (string * string))
}.

(** ** The methods *)

(** [{day['date']: day for day in self.data['days']}]: a later day with the
    same date replaces an earlier one. *)
Definition days_by_date (ds : list Day) : gmap string Day :=
  foldl (λ m day, <[day_date day := day]> m) ∅ ds.

(** [next((day['date'] for day in days if day['id'] == day_id), None)]. *)
Definition date_of_day_id (ds : list Day) (id : Z) : option string :=
  day_date <$> List.find (λ day, day_id day =? id) ds.

(** [if date:] is false for [None] and for the empty string. *)
Definition truthy (date : option string) : bool :=
  match date with
  | Some (String _ _) => true
  | _ => false
  end.

Definition _organize_timeslots (d : Payload) : gmap string (list (string * string)) :=
  let timeslots_by_date :=
    foldl (λ m day, <[day_date day := []]> m) ∅ (data_days d) in
  foldl (λ m timeslot,
           let date := date_of_day_id (data_days d) (ts_day_id timeslot) in
           if truthy date then
             alter (λ l, l ++ [(ts_start timeslot, ts_end timeslot)]) (default "" date) m
           else m)
        timeslots_by_date (data_timeslots d).

(** [__init__], given the payload that [_fetch_data] returned. *)
Definition __init__ (d : Payload) : Scheduler :=
  {| data := d;
     days := days_by_date (data_days d);
     timeslots := _organize_timeslots d |}.

(** [None] when [time_str] does not split into exactly two parts that [int]
    accepts. *)
Definition _time_to_minutes (time_str : string) : option Z :=
  match Py.split_colon time_str with
  | [h; m] =>
      hours ← Py.int h;
      minutes ← Py.int m;
      Some (hours * 60 + minutes)
  | _ => None
  end.

Definition _minutes_to_time (minutes : Z) : string :=
  let hours := minutes / 60 in
  let mins := minutes mod 60 in
  Py.format_02d hours +:+ ":" +:+ Py.format_02d mins.

Definition _parse_time_range (start end_ : string) : option (Z * Z) :=
  s ← _time_to_minutes start;
  e ← _time_to_minutes end_;
  Some (s, e).

Section Merge.
Context {A : Type} `{Py.Ord A}.

(** One turn of the loop of [_merge_overlapping_slots], on the list
    [merged]: [merged[-1]] is replaced or [current] is appended.  [merged]
    is never empty there. *)
Definition merge_step (merged : list (A * A)) (current : A * A) : list (A * A) :=
  match last merged with
  | Some lst =>
      if Py.le current.1 lst.2
      then <[(length merged - 1)%nat := (lst.1, Py.max lst.2 current.2)]> merged
      else merged ++ [current]
  | None => merged
  end.

(** The method is written once for any ordered endpoint type: the class
    calls it on pairs of strings; the minute-level reading of the
    intervals uses it on pairs of integers. *)
Definition _merge_overlapping_slots (slots : list (A * A)) : list (A * A) :=
  match slots with
  | [] => []
  | _ =>
      match Py.sorted fst slots with
      | first :: rest => foldl merge_step [first] rest
      | [] => []
      end
  end.
End Merge.

Definition get_busy_slots (self : Scheduler) (date : string) : list (string * string) :=
  match timeslots self !! date with
  | None => []
  | Some busy_slots => _merge_overlapping_slots busy_slots
  end.

(** The loop of [get_free_slots]: the state is [(free_slots, prev_end)]. *)
Fixpoint free_loop (busy_slots : list (string * string)) (free_slots : list (string * string)) (prev_end : Z)
  : option (list (string * string) * Z) :=
  match busy_slots with
  | [] => Some (free_slots, prev_end)
  | (busy_start, busy_end) :: rest =>
      '(busy_start_min, busy_end_min) ← _parse_time_range busy_start busy_end;
      let free_slots' :=
        if prev_end <? busy_start_min
        then free_slots ++ [(_minutes_to_time prev_end, _minutes_to_time busy_start_min)]
        else free_slots in
      free_loop rest free_slots' (Z.max prev_end busy_end_min)
  end.

Definition get_free_slots (self : Scheduler) (date : string) : option (list (string * string)) :=
  match days self !! date with
  | None => Some []
  | Some work_day =>
      '(work_start, work_end) ← _parse_time_range (day_start work_day) (day_end work_day);
      let busy_slots := get_busy_slots self date in
      '(free_slots, prev_end) ← free_loop busy_slots [] work_start;
      Some (if prev_end <? work_end
            then free_slots ++ [(_minutes_to_time prev_end, _minutes_to_time work_end)]
            else free_slots)
  end.

(** The loop of [is_available] over the merged busy slots. *)
Fixpoint available_loop (busy_slots : list (string * string)) (slot_start slot_end : Z) : option bool :=
  match busy_slots with
  | [] => Some true
  | (busy_start, busy_end) :: rest =>
      '(busy_start_min, busy_end_min) ← _parse_time_range busy_start busy_end;
      if negb ((slot_end <=? busy_start_min) || (busy_end_min <=? slot_start))
      then Some false
      else available_loop rest slot_start slot_end
  end.

Definition is_available (self : Scheduler) (date start end_ : string) : option bool :=
  match days self !! date with
  | None => Some false
  | Some work_day =>
      '(work_start, work_end) ← _parse_time_range (day_start work_day) (day_end work_day);
      '(slot_start, slot_end) ← _parse_time_range start end_;
      if (slot_start <? work_start) || (work_end <? slot_end) then Some false
      else available_loop (get_busy_slots self date) slot_start slot_end
  end.

(** The inner loop of [find_slot_for_duration]: [Some None] when no slot of
    [free_slots] is long enough. *)
Fixpoint find_in_slots (date : string) (duration_minutes : Z) (free_slots : list (string * string))
  : option (option (string * string * string)) :=
  match free_slots with
  | [] => Some None
  | (start, end_) :: rest =>
      start_min ← _time_to_minutes start;
      end_min ← _time_to_minutes end_;
      let available_duration := end_min - start_min in
      if duration_minutes <=? available_duration
      then Some (Some (date, start, _minutes_to_time (start_min + duration_minutes)))
      else find_in_slots date duration_minutes rest
  end.

(** The outer loop, over the dates already sorted. *)
Fixpoint find_in_dates (self : Scheduler) (duration_minutes : Z) (dates : list string)
  : option (option (string * string * string)) :=
  match dates with
  | [] => Some None
  | date :: rest =>
      free_slots ← get_free_slots self date;
      found ← find_in_slots date duration_minutes free_slots;
      match found with
      | Some r => Some (Some r)
      | None => find_in_dates self duration_minutes rest
      end
  end.

(** [self.days.keys()]; the order in which the keys are listed does not
    matter, they are sorted next. *)
Definition days_keys (self : Scheduler) : list string := (map_to_list (days self)).*1.

Definition find_slot_for_duration (self : Scheduler) (duration_minutes : Z)
  : option (option (string * string * string)) :=
  find_in_dates self duration_minutes (Py.sorted id (days_keys self)).

(** ** The fixture of [scheduler_test.py] and [main.py] *)

Definition test_data : Payload :=
  {| data_days :=
       [ {| day_id := 1; day_date := "2024-10-10"; day_start := "09:00"; day_end := "18:00" |};
         {| day_id := 2; day_date := "2024-10-11"; day_start := "08:00"; day_end := "17:00" |} ];
     data_timeslots :=
       [ {| ts_id := 1; ts_day_id := 1; ts_start := "11:00"; ts_end := "12:00" |};
         {| ts_id := 3; ts_day_id := 2; ts_start := "09:30"; ts_end := "16:00" |} ] |}.

Definition scheduler : Scheduler := __init__ test_data.

(** ** Well-formed time strings *)

(** The value of a decimal digit character. *)
Definition digit_val (c : ascii) : Z := Z.of_N (N_of_ascii c) - 48.

(** The character of a decimal digit. *)
Definition digit_char (k : Z) : ascii := ascii_of_N (Z.to_N (48 + k)).

(** A zero-padded two-digit 24-hour ["HH:MM"] string. *)
Definition hhmm (s : string) : bool :=
  match s with
  | String h1 (String h2 (String c (String m1 (String m2 EmptyString)))) =>
      Py.is_digit h1 && Py.is_digit h2 && Ascii.eqb c ":" &&
      Py.is_digit m1 && Py.is_digit m2 &&
      (10 * digit_val h1 + digit_val h2 <? 24) && (digit_val m1 <? 6)
  | _ => false
  end.

Definition hhmm_slot (p : string * string) : bool := hhmm p.1 && hhmm p.2.

(** The minutes since midnight that an ["HH:MM"] string denotes. *)
Definition hhmm_minutes (s : string) : Z :=
  match s with
  | String h1 (String h2 (String _ (String m1 (String m2 _)))) =>
      (10 * digit_val h1 + digit_val h2) * 60 + (10 * digit_val m1 + digit_val m2)
  | _ => 0
  end.

(** ** Auxiliary definitions used in the proofs *)

Definition digits : list ascii :=
  ["0"; "1"; "2"; "3"; "4"; "5"; "6"; "7"; "8"; "9"]%char.

(** A string made of digits only. *)
Fixpoint all_digits (s : string) : bool :=
  match s with
  | EmptyString => true
  | String c r => Py.is_digit c && all_digits r
  end.

(** A string without a colon. *)
Fixpoint no_colon (s : string) : bool :=
  match s with
  | EmptyString => true
  | String c r => negb (Ascii.eqb c ":") && no_colon r
  end.

(** The laws of [<] and [<=] on a totally ordered Python type. *)
Class OrdLaws (A : Type) `{Py.Ord A} := {
  lt_irrefl (a : A) : Py.lt a a = false;
  lt_trans (a b c : A) : Py.lt a b = true → Py.lt b c = true → Py.lt a c = true;
  lt_connex (a b : A) : Py.lt a b = false → Py.lt b a = false → a = b;
  le_not_gt (a b : A) : Py.le a b = negb (Py.lt b a)
}.

(** [key_le key x y]: the key of [x] is not above the key of [y]. *)
Definition key_le {A K} `{Py.Ord K} (key : A → K) (x y : A) : Prop :=
  Py.lt (key y) (key x) = false.

(** The loop of [_merge_overlapping_slots] with [merged[-1]] as its state:
    [lst] is the running merged interval, the intervals before it are
    closed and put out. *)
Fixpoint merge_loop {A} `{Py.Ord A} (lst : A * A) (rest : list (A * A)) : list (A * A) :=
  match rest with
  | [] => [lst]
  | current :: rest' =>
      if Py.le current.1 lst.2
      then merge_loop (lst.1, Py.max lst.2 current.2) rest'
      else lst :: merge_loop current rest'
  end.

(** [sep p q]: [p] ends strictly before [q] starts, and starts no later. *)
Definition sep {A} `{Py.Ord A} (p q : A * A) : Prop :=
  Py.lt p.2 q.1 = true ∧ Py.lt q.1 p.1 = false.

(** [proper p]: the end of [p] is not before its start. *)
Definition proper {A} `{Py.Ord A} (p : A * A) : Prop := Py.lt p.2 p.1 = false.

(** Both endpoints satisfy [P]. *)
Definition both {A} (P : A → Prop) (p : A * A) : Prop := P p.1 ∧ P p.2.

(** ** The slots read as minute intervals *)

(** A list of string slots read as minute intervals, by the class's own
    [_parse_time_range]; [None] when one of the strings does not parse. *)
Definition parse_slots (l : list (string * string)) : option (list (Z * Z)) :=
  mapM (λ p, _parse_time_range p.1 p.2) l.

Definition slot_of_minutes (p : Z * Z) : string * string :=
  (_minutes_to_time p.1, _minutes_to_time p.2).

(** The working window of a date, in minutes. *)
Definition window (self : Scheduler) (date : string) : option (Z * Z) :=
  work_day ← days self !! date;
  _parse_time_range (day_start work_day) (day_end work_day).

(** What [get_busy_slots] and [get_free_slots] return, in minutes. *)
Definition busy_minutes (self : Scheduler) (date : string) : option (list (Z * Z)) :=
  parse_slots (get_busy_slots self date).

Definition free_minutes (self : Scheduler) (date : string) : option (list (Z * Z)) :=
  free_slots ← get_free_slots self date;
  parse_slots free_slots.

(** The free intervals that the cursor of [get_free_slots] puts out while it
    walks over the busy intervals [busy] from [c], and where it ends. *)
Fixpoint gaps (busy : list (Z * Z)) (c : Z) : list (Z * Z) :=
  match busy with
  | [] => []
  | (s, e) :: rest => (if c <? s then [(c, s)] else []) ++ gaps rest (Z.max c e)
  end.

Fixpoint cursor (busy : list (Z * Z)) (c : Z) : Z :=
  match busy with
  | [] => c
  | (s, e) :: rest => cursor rest (Z.max c e)
  end.

Definition free_of (work_start work_end : Z) (busy : list (Z * Z)) : list (Z * Z) :=
  gaps busy work_start ++
  (if cursor busy work_start <? work_end then [(cursor busy work_start, work_end)] else []).

(** How many intervals of [l] hold the minute [m]; an interval is read as
    half-open. *)
Fixpoint cover_count (m : Z) (l : list (Z * Z)) : nat :=
  match l with
  | [] => 0
  | (a, b) :: rest =>
      Nat.add (if (a <=? m) && (m <? b) then 1%nat else 0%nat) (cover_count m rest)
  end.

(** [l] partitions the window from [ws] to [we]: every minute of the window
    lies in exactly one interval of [l], and no other minute lies in any. *)
Definition partitions (ws we : Z) (l : list (Z * Z)) : Prop :=
  ∀ m, cover_count m l = if (ws <=? m) && (m <? we) then 1%nat else 0%nat.

(** The request from [a] to [b] shares no minute with the busy interval [p]. *)
Definition clear_of (a b : Z) (p : Z * Z) : bool := (b <=? p.1) || (p.2 <=? a).

(** The time strings of the raw busy slots of a date are well formed. *)
Definition wf_busy (self : Scheduler) (date : string) : bool :=
  match timeslots self !! date with
  | Some busy_slots => forallb hhmm_slot busy_slots
  | None => true
  end.

(** The time strings of every timeslot of a payload are well formed. *)
Definition wf_timeslots (d : Payload) : bool :=
  forallb (λ t, hhmm (ts_start t) && hhmm (ts_end t)) (data_timeslots d).

(** ** The reference procedure for the busy slots

    Written from the design document, not from the class: the time
    conversions of its section 4.2 and the interval merge of its section
    4.3, both on minutes.  [get_busy_slots] is compared with it. *)

Module Reference.

(** A numeric component: one decimal digit or more, read in base ten. *)
Fixpoint numeric (value : option Z) (s : string) : option Z :=
  match s with
  | EmptyString => value
  | String c r =>
      if Py.is_digit c then numeric (Some (10 * default 0 value + digit_val c)) r
      else None
  end.

(** The components of a time: what stands before its first separator and
    what stands after it. *)
Fixpoint components (time : string) : option (string * string) :=
  match time with
  | EmptyString => None
  | String c r =>
      if Ascii.eqb c ":" then Some (EmptyString, r)
      else '(h, m) ← components r; Some (String c h, m)
  end.

(** [toMinutes]: an ["HH:MM"] time to minutes since midnight.  It fails on
    a wrong number of separators and on a component that is not numeric (a
    second separator is no digit of the second component). *)
Definition toMinutes (time : string) : option Z :=
  '(h, m) ← components time;
  hours ← numeric None h;
  minutes ← numeric None m;
  Some (hours * 60 + minutes).

(** [toTimeString]: the inverse conversion, hours and minutes with two
    zero-padded digits each; meant for minutes from 0 to 1439. *)
Definition two_digits (n : Z) : string :=
  String (digit_char (n / 10)) (String (digit_char (n mod 10)) EmptyString).

Definition toTimeString (minutes : Z) : string :=
  two_digits (minutes / 60) +:+ ":" +:+ two_digits (minutes mod 60).

(** [mergeOverlapping], step 1: sort by start, ascending and stable.  The
    intervals are taken in their original order and each is put after the
    intervals that start no later. *)
Fixpoint insertByStart (x : Z * Z) (placed : list (Z * Z)) : list (Z * Z) :=
  match placed with
  | [] => [x]
  | y :: rest => if y.1 <=? x.1 then y :: insertByStart x rest else x :: placed
  end.

Definition sortByStart (intervals : list (Z * Z)) : list (Z * Z) :=
  foldl (λ placed x, insertByStart x placed) [] intervals.

(** Step 2: fold from left to right over the sorted intervals, with the
    closed intervals and the current merged interval as the state.  When
    the next interval starts at or before the end of the current one, the
    current one is extended to the later of the two ends; otherwise the
    current one is closed and the next one becomes current. *)
Definition extend (state : list (Z * Z) * (Z * Z)) (next : Z * Z) : list (Z * Z) * (Z * Z) :=
  let '(closed, current) := state in
  if next.1 <=? current.2
  then (closed, (current.1, Z.max current.2 next.2))
  else (closed ++ [current], next).

Definition mergeOverlapping (intervals : list (Z * Z)) : list (Z * Z) :=
  match sortByStart intervals with
  | [] => []
  | first :: rest =>
      let '(closed, current) := foldl extend ([], first) rest in
      closed ++ [current]
  end.

(** The procedure: every endpoint to minutes, the merge of the minute
    intervals, the results back to strings. *)
Definition busySlots (raw : list (string * string)) : option (list (string * string)) :=
  intervals ← mapM (λ p, start ← toMinutes p.1; end_ ← toMinutes p.2; Some (start, end_)) raw;
  Some ((λ p, (toTimeString p.1, toTimeString p.2)) <$> mergeOverlapping intervals).

End Reference.

(** The reference procedure on the raw busy slots that the index holds for
    a date; a date without an entry has no busy slot. *)
Definition reference_busy_slots (self : Scheduler) (date : string)
  : option (list (string * string)) :=
  match timeslots self !! date with
  | None => Some []
  | Some busy_slots => Reference.busySlots busy_slots
  end.

(** The span of a slot in minutes, as [find_slot_for_duration] computes it. *)
Definition span (p : string * string) : option Z :=
  start_min ← _time_to_minutes p.1;
  end_min ← _time_to_minutes p.2;
  Some (end_min - start_min).

Definition fits (duration : Z) (p : string * string) : Prop :=
  ∃ n, span p = Some n ∧ duration ≤ n.

Definition too_short (duration : Z) (p : string * string) : Prop :=
  ∃ n, span p = Some n ∧ n < duration.

(** The interval [g] lies within the window from [ws] to [we]. *)
Definition within_window (ws we : Z) (g : Z * Z) : Prop := ws ≤ g.1 ∧ g.2 ≤ we.

(** ** Further payloads *)

(** A payload with one working day, 2024-10-10, and its busy slots. *)
Definition one_day (work_start work_end : string) (busy : list (string * string)) : Payload :=
  {| data_days :=
       [ {| day_id := 1; day_date := "2024-10-10";
            day_start := work_start; day_end := work_end |} ];
     data_timeslots :=
       (λ p, {| ts_id := 1; ts_day_id := 1; ts_start := p.1; ts_end := p.2 |}) <$> busy |}.

(** A busy slot after the end of the working day. *)
Definition late_busy : Scheduler :=
  __init__ (one_day "09:00" "18:00" [("19:00", "20:00")]).

(** Hours written without the leading zero. *)
Definition unpadded : Scheduler :=
  __init__ (one_day "08:00" "18:00" [("9:00", "9:30"); ("10:00", "11:00")]).

(** Busy slots in no order that overlap, touch and repeat a start: 13:00 to
    14:00, 09:30 to 10:30, 10:00 to 11:00, 11:00 to 11:30, 09:30 to 09:45
    and 15:00 to 15:30. *)
Definition crowded : Scheduler :=
  __init__ (one_day "09:00" "18:00"
              [("13:00", "14:00"); ("09:30", "10:30"); ("10:00", "11:00");
               ("11:00", "11:30"); ("09:30", "09:45"); ("15:00", "15:30")]).

(** A busy slot that ends when it starts. *)
Definition instant_busy : Scheduler :=
  __init__ (one_day "09:00" "18:00" [("11:00", "11:00")]).

(** No free slot of [date] is long enough for [duration]. *)
Definition no_fit (self : Scheduler) (duration : Z) (date : string) : Prop :=
  ∃ free_slots,
    get_free_slots self date = Some free_slots ∧ Forall (too_short duration) free_slots.

(** ** Further definitions for the properties of the whole class *)

(** The minute [m] lies in one of the intervals of [l], read as half-open. *)
Definition covered (m : Z) (l : list (Z * Z)) : Prop :=
  ∃ p, p ∈ l ∧ p.1 ≤ m ∧ m < p.2.

(** The request from [a] to [b] lies inside the interval [g]. *)
Definition inside (a b : Z) (g : Z * Z) : Prop := g.1 ≤ a ∧ b ≤ g.2.

(** The timeslots of a payload that [_organize_timeslots] files under
    [date], in the order of the payload: those whose [day_id] is the [id] of
    a day and whose first such day has that date. *)
Definition slots_of_date (d : Payload) (date : string) : list (string * string) :=
  (λ t, (ts_start t, ts_end t)) <$>
  filter (λ t, date_of_day_id (data_days d) (ts_day_id t) = Some date) (data_timeslots d).

(** A payload with dangling and repeated references: the second timeslot
    names a day that does not exist, the third day repeats the date of the
    first, and the fourth day repeats the id of the second. *)
Definition tangled_data : Payload :=
  {| data_days :=
       [ {| day_id := 1; day_date := "2024-10-10"; day_start := "09:00"; day_end := "18:00" |};
         {| day_id := 2; day_date := "2024-10-11"; day_start := "08:00"; day_end := "17:00" |};
         {| day_id := 3; day_date := "2024-10-10"; day_start := "10:00"; day_end := "16:00" |};
         {| day_id := 2; day_date := "2024-10-12"; day_start := "08:00"; day_end := "12:00" |} ];
     data_timeslots :=
       [ {| ts_id := 1; ts_day_id := 1; ts_start := "11:00"; ts_end := "12:00" |};
         {| ts_id := 2; ts_day_id := 7; ts_start := "13:00"; ts_end := "14:00" |};
         {| ts_id := 3; ts_day_id := 3; ts_start := "10:30"; ts_end := "11:30" |};
         {| ts_id := 4; ts_day_id := 2; ts_start := "09:30"; ts_end := "16:00" |} ] |}.

(** The point [k / 2] lies in one of the intervals of [l], read as closed;
    the half points tell touching intervals from intervals one minute
    apart. *)
Definition covered_closed (k : Z) (l : list (Z * Z)) : Prop :=
  ∃ p, p ∈ l ∧ 2 * p.1 ≤ k ∧ k ≤ 2 * p.2.

(** Every timeslot of a payload has well-formed time strings and does not
    end before it starts. *)
Definition proper_timeslots (d : Payload) : bool :=
  forallb (λ t, hhmm (ts_start t) && hhmm (ts_end t) && String.leb (ts_start t) (ts_end t))
          (data_timeslots d).

(** A busy slot written backwards, from 10:00 to 08:20, before one from
    11:40 to 13:20. *)
Definition backwards_busy : Scheduler :=
  __init__ (one_day "09:00" "18:00" [("10:00", "08:20"); ("11:40", "13:20")]).

(** The time strings that the queries read for [date]: the working hours of
    the date and the endpoints of its raw busy slots. *)
Definition time_strings (self : Scheduler) (date : string) : list string :=
  match days self !! date with
  | Some work_day => [day_start work_day; day_end work_day]
  | None => []
  end ++
  match timeslots self !! date with
  | Some busy_slots => busy_slots.*1 ++ busy_slots.*2
  | None => []
  end.

(** * Properties *)

(** ** The builtins and the fixture, evaluated *)

Example int_examples :
  Py.int "09" = Some 9 ∧ Py.int " 7 " = Some 7 ∧ Py.int "-1" = Some (-1) ∧
  Py.int "+12" = Some 12 ∧ Py.int "1_0" = Some 10 ∧ Py.int "" = None ∧
  Py.int "1__0" = None ∧ Py.int "_1" = None ∧ Py.int "- 1" = None ∧
  Py.int "-" = None ∧ Py.int "1a" = None ∧ Py.int "+-1" = None.
Proof. repeat split; reflexivity. Qed.

(** [int] strips a tab or a carriage return; the separator characters 28
    to 31 are not white space to it. *)
Example int_white_space :
  Py.int (String "009"%char "7") = Some 7 ∧ Py.int (String "013"%char "7") = Some 7 ∧
  Py.int (String "028"%char "7") = None ∧ Py.int (String "031"%char "7") = None.
Proof. repeat split; reflexivity. Qed.

Example format_examples :
  Py.format_02d 9 = "09" ∧ Py.format_02d 0 = "00" ∧ Py.format_02d 17 = "17" ∧
  Py.format_02d (-1) = "-1" ∧ Py.format_02d 123 = "123" ∧ Py.format_02d (-12) = "-12".
Proof. repeat split; reflexivity. Qed.

Example split_examples :
  Py.split_colon "09:30" = ["09"; "30"] ∧ Py.split_colon "0930" = ["0930"] ∧
  Py.split_colon "1:2:3" = ["1"; "2"; "3"] ∧ Py.split_colon ":" = [""; ""].
Proof. repeat split; reflexivity. Qed.

Example sorted_examples :
  Py.sorted fst [(3, 1); (1, 2); (3, 0); (2, 5); (1, 0)]
  = [(1, 2); (1, 0); (2, 5); (3, 1); (3, 0)].
Proof. reflexivity. Qed.

Example test_get_busy_slots :
  get_busy_slots scheduler "2024-10-10" = [("11:00", "12:00")] ∧
  get_busy_slots scheduler "2024-10-12" = [].
Proof. split; vm_compute; reflexivity. Qed.

Example test_get_free_slots :
  get_free_slots scheduler "2024-10-10" = Some [("09:00", "11:00"); ("12:00", "18:00")] ∧
  get_free_slots scheduler "2024-10-11" = Some [("08:00", "09:30"); ("16:00", "17:00")].
Proof. split; vm_compute; reflexivity. Qed.

Example test_is_available :
  is_available scheduler "2024-10-10" "10:00" "10:30" = Some true ∧
  is_available scheduler "2024-10-10" "11:30" "12:30" = Some false ∧
  is_available scheduler "2024-10-10" "08:00" "09:00" = Some false.
Proof. repeat split; vm_compute; reflexivity. Qed.

(** For 90 minutes the first free slot of the first day, 09:00 to 11:00, is
    already long enough, so the search stops there (the expectation written
    in [scheduler_test.py] and [main.py] names the second day). *)
Example test_find_slot_for_duration :
  find_slot_for_duration scheduler 60 = Some (Some ("2024-10-10", "09:00", "10:00")) ∧
  find_slot_for_duration scheduler 90 = Some (Some ("2024-10-10", "09:00", "10:30")) ∧
  find_slot_for_duration scheduler 1000 = Some None.
Proof. repeat split; vm_compute; reflexivity. Qed.

Example hhmm_examples :
  hhmm "09:30" = true ∧ hhmm "23:59" = true ∧ hhmm "9:30" = false ∧
  hhmm "24:00" = false ∧ hhmm "09:60" = false ∧ hhmm "09-30" = false ∧
  hhmm_minutes "09:30" = 570.
Proof. repeat split; reflexivity. Qed.

(** ** Decimal digits: parsing and printing *)

Section Digits.

Lemma is_digit_cases c : Py.is_digit c = true → c ∈ digits.
Proof.
  destruct c as [[] [] [] [] [] [] [] []]; vm_compute; intros E;
    try discriminate E; clear E; unfold digits; set_solver.
Qed.

Ltac digit_cases c H :=
  apply is_digit_cases in H; unfold digits in H;
  repeat (apply elem_of_cons in H as [-> | H]);
  [.. | by apply elem_of_nil in H].

Lemma digit_val_range c : Py.is_digit c = true → 0 ≤ digit_val c ≤ 9.
Proof. intros H. digit_cases c H; vm_compute; split; discriminate. Qed.

Lemma digit_not_special c :
  Py.is_digit c = true →
  Py.is_space c = false ∧ Ascii.eqb c ":" = false ∧ Ascii.eqb c "-" = false
  ∧ Ascii.eqb c "+" = false ∧ Ascii.eqb c "_" = false.
Proof. intros H. digit_cases c H; repeat split; reflexivity. Qed.

Lemma int_two_digits a b :
  Py.is_digit a = true → Py.is_digit b = true →
  Py.int (String a (String b EmptyString)) = Some (10 * digit_val a + digit_val b).
Proof. intros Ha Hb. digit_cases a Ha; digit_cases b Hb; reflexivity. Qed.

Lemma format_two_digits a b :
  Py.is_digit a = true → Py.is_digit b = true →
  Py.format_02d (10 * digit_val a + digit_val b) = String a (String b EmptyString).
Proof. intros Ha Hb. digit_cases a Ha; digit_cases b Hb; reflexivity. Qed.

Lemma string_of_uint_digits d : all_digits (NilEmpty.string_of_uint d) = true.
Proof. induction d; simpl; auto. Qed.

Lemma rstrip_digits s : all_digits s = true → Py.rstrip s = s.
Proof.
  induction s as [|c r IH]; simpl; [done|].
  intros [Hc Hr]%andb_true_iff. rewrite (IH Hr).
  destruct (digit_not_special c Hc) as [-> _]. by destruct r.
Qed.

Lemma int_digits_digits s b :
  all_digits s = true → s ≠ EmptyString ∨ b = true →
  Py.int_digits b s = Some s.
Proof.
  revert b. induction s as [|c r IH]; simpl; intros b Hs Hb.
  - destruct Hb as [? | ->]; done.
  - apply andb_true_iff in Hs as [Hc Hr]. rewrite Hc.
    rewrite (IH true Hr); [done | by right].
Qed.

(** [int] on a string of digits, possibly after a minus sign. *)
Lemma int_digit_string d :
  d ≠ Decimal.Nil →
  Py.int (NilEmpty.string_of_uint d) = Some (Z.of_uint d) ∧
  Py.int (String "-" (NilEmpty.string_of_uint d)) = Some (- Z.of_uint d).
Proof.
  intros Hd.
  pose proof (string_of_uint_digits d) as Hall.
  assert (Hne : NilEmpty.string_of_uint d ≠ EmptyString) by by destruct d.
  unfold Py.int. split.
  - destruct (NilEmpty.string_of_uint d) as [|c r] eqn:E; [done|].
    pose proof Hall as [Hc Hr]%andb_true_iff.
    destruct (digit_not_special c Hc) as (Hsp & _ & Hm & Hp & _).
    cbn [Py.lstrip]. rewrite Hsp, (rstrip_digits _ Hall), Hm, Hp.
    rewrite int_digits_digits by (done || by left). cbn [mbind option_bind].
    rewrite <- E, NilEmpty.usu. done.
  - cbn [Py.lstrip]. change (Py.is_space "-") with false. cbv iota.
    assert (Py.rstrip (String "-" (NilEmpty.string_of_uint d))
            = String "-" (NilEmpty.string_of_uint d)) as ->.
    { cbn [Py.rstrip]. rewrite (rstrip_digits _ Hall).
      by destruct (NilEmpty.string_of_uint d). }
    change (Ascii.eqb "-" "-") with true. cbv iota.
    rewrite int_digits_digits by (done || by left). cbn [mbind option_bind].
    rewrite NilEmpty.usu. done.
Qed.

Lemma int_str n : Py.int (Py.str n) = Some n.
Proof.
  unfold Py.str. destruct n as [|p|p]; [reflexivity | |].
  - cbn [Z.to_int NilZero.string_of_int].
    pose proof (Unsigned.to_uint_nonnil p) as Hp.
    assert (NilZero.string_of_uint (Pos.to_uint p)
            = NilEmpty.string_of_uint (Pos.to_uint p)) as -> by by destruct (Pos.to_uint p).
    rewrite (proj1 (int_digit_string _ Hp)). unfold Z.of_uint.
    by rewrite Unsigned.of_to.
  - cbn [Z.to_int NilZero.string_of_int].
    pose proof (Unsigned.to_uint_nonnil p) as Hp.
    assert (NilZero.string_of_uint (Pos.to_uint p)
            = NilEmpty.string_of_uint (Pos.to_uint p)) as -> by by destruct (Pos.to_uint p).
    rewrite (proj2 (int_digit_string _ Hp)). unfold Z.of_uint.
    by rewrite Unsigned.of_to.
Qed.

End Digits.

(** ** Time strings and minutes *)

Section TimeConversion.

Lemma digits_no_colon s : all_digits s = true → no_colon s = true.
Proof.
  induction s as [|c r IH]; simpl; [done|].
  intros [Hc Hr]%andb_true_iff.
  destruct (digit_not_special c Hc) as (_ & -> & _). simpl. auto.
Qed.

Lemma str_shape n :
  (0 ≤ n → ∃ d, d ≠ Decimal.Nil ∧ Z.of_uint d = n ∧ Py.str n = NilEmpty.string_of_uint d) ∧
  (n < 0 → ∃ d, d ≠ Decimal.Nil ∧ Z.of_uint d = - n
                ∧ Py.str n = String "-" (NilEmpty.string_of_uint d)).
Proof.
  unfold Py.str, Z.of_uint. destruct n as [|p|p]; (split; intros Hn); try lia.
  - by exists (Decimal.D0 Decimal.Nil).
  - exists (Pos.to_uint p). pose proof (Unsigned.to_uint_nonnil p).
    rewrite Unsigned.of_to. split; [done|]. split; [done|].
    cbn [Z.to_int NilZero.string_of_int]. by destruct (Pos.to_uint p).
  - exists (Pos.to_uint p). pose proof (Unsigned.to_uint_nonnil p).
    rewrite Unsigned.of_to. split; [done|]. split; [done|].
    cbn [Z.to_int NilZero.string_of_int]. by destruct (Pos.to_uint p).
Qed.

Lemma format_02d_no_colon n : no_colon (Py.format_02d n) = true.
Proof.
  unfold Py.format_02d.
  assert (no_colon (Py.str n) = true) as Hs.
  { destruct (str_shape n) as [Hpos Hneg]. destruct (Z_lt_le_dec n 0) as [Hn|Hn].
    - destruct (Hneg Hn) as (d & _ & _ & ->). simpl.
      apply digits_no_colon, string_of_uint_digits.
    - destruct (Hpos Hn) as (d & _ & _ & ->).
      apply digits_no_colon, string_of_uint_digits. }
  by destruct (_ <? _)%nat.
Qed.

(** [int] reads back what [{:02d}] prints. *)
Lemma int_format_02d n : Py.int (Py.format_02d n) = Some n.
Proof.
  unfold Py.format_02d. destruct (_ <? _)%nat eqn:Hlen; [|apply int_str].
  destruct (str_shape n) as [Hpos Hneg]. destruct (Z_lt_le_dec n 0) as [Hn|Hn].
  - destruct (Hneg Hn) as (d & Hd & _ & E). rewrite E in Hlen.
    destruct d; try done; simpl in Hlen; apply Nat.ltb_lt in Hlen; lia.
  - destruct (Hpos Hn) as (d & Hd & Hv & ->).
    change (String "0" (NilEmpty.string_of_uint d))
      with (NilEmpty.string_of_uint (Decimal.D0 d)).
    rewrite (proj1 (int_digit_string (Decimal.D0 d) ltac:(done))).
    by rewrite <- Hv.
Qed.

Lemma split_colon_no_colon s : no_colon s = true → Py.split_colon s = [s].
Proof.
  induction s as [|c r IH]; simpl; [done|].
  intros [Hc Hr]%andb_true_iff. apply negb_true_iff in Hc. by rewrite Hc, (IH Hr).
Qed.

Lemma split_colon_app s t :
  no_colon s = true → no_colon t = true →
  Py.split_colon (s +:+ ":" +:+ t) = [s; t].
Proof.
  intros Hs Ht. induction s as [|c r IH]; simpl.
  - by rewrite split_colon_no_colon.
  - simpl in Hs. apply andb_true_iff in Hs as [Hc Hr]. apply negb_true_iff in Hc.
    rewrite Hc. simpl in IH. by rewrite (IH Hr).
Qed.

(** Converting minutes to a time string and back gives the minutes again;
    [Py.str] and [Py.int] carry no digit limit, so this holds of them for
    every integer. *)
Lemma time_to_minutes_to_time m : _time_to_minutes (_minutes_to_time m) = Some m.
Proof.
  unfold _time_to_minutes, _minutes_to_time.
  rewrite split_colon_app by apply format_02d_no_colon.
  rewrite !int_format_02d. cbn [mbind option_bind]. f_equal.
  pose proof (Z.div_mod m 60). lia.
Qed.

Lemma hhmm_split s :
  hhmm s = true →
  ∃ h1 h2 m1 m2,
    s = String h1 (String h2 (String ":" (String m1 (String m2 EmptyString)))) ∧
    Py.is_digit h1 = true ∧ Py.is_digit h2 = true ∧
    Py.is_digit m1 = true ∧ Py.is_digit m2 = true ∧
    10 * digit_val h1 + digit_val h2 < 24 ∧ digit_val m1 < 6.
Proof.
  destruct s as [|h1 [|h2 [|c [|m1 [|m2 [|]]]]]]; try done. cbn [hhmm].
  rewrite !andb_true_iff.
  intros ((((((H1 & H2) & Hc%Ascii.eqb_eq) & H3) & H4) & H5%Z.ltb_lt) & H6%Z.ltb_lt).
  subst c. by exists h1, h2, m1, m2.
Qed.

(** A well-formed ["HH:MM"] string parses to its minutes, which lie within
    one day. *)
Lemma hhmm_time_to_minutes s :
  hhmm s = true →
  _time_to_minutes s = Some (hhmm_minutes s) ∧ 0 ≤ hhmm_minutes s < 1440.
Proof.
  intros (h1 & h2 & m1 & m2 & -> & H1 & H2 & H3 & H4 & Hh & Hm)%hhmm_split.
  pose proof (digit_val_range _ H1). pose proof (digit_val_range _ H2).
  pose proof (digit_val_range _ H3). pose proof (digit_val_range _ H4).
  split; [|cbn [hhmm_minutes]; lia].
  unfold _time_to_minutes. cbn [Py.split_colon hhmm_minutes].
  destruct (digit_not_special _ H1) as (_ & -> & _).
  destruct (digit_not_special _ H2) as (_ & -> & _).
  destruct (digit_not_special _ H3) as (_ & -> & _).
  destruct (digit_not_special _ H4) as (_ & -> & _).
  change (Ascii.eqb ":" ":") with true. cbv iota.
  by rewrite !int_two_digits.
Qed.

(** ... and printing these minutes gives the string back. *)
Lemma hhmm_minutes_to_time s :
  hhmm s = true → _minutes_to_time (hhmm_minutes s) = s.
Proof.
  intros (h1 & h2 & m1 & m2 & -> & H1 & H2 & H3 & H4 & Hh & Hm)%hhmm_split.
  pose proof (digit_val_range _ H1). pose proof (digit_val_range _ H2).
  pose proof (digit_val_range _ H3). pose proof (digit_val_range _ H4).
  unfold _minutes_to_time. cbn [hhmm_minutes].
  set (hh := 10 * digit_val h1 + digit_val h2).
  set (mm := 10 * digit_val m1 + digit_val m2).
  assert ((hh * 60 + mm) / 60 = hh) as ->
    by (symmetry; apply (Z.div_unique_pos _ 60 hh mm); lia).
  assert ((hh * 60 + mm) mod 60 = mm) as ->
    by (symmetry; apply (Z.mod_unique_pos _ 60 hh mm); lia).
  unfold hh, mm. by rewrite !format_two_digits.
Qed.

End TimeConversion.

(** ** The orders on integers and strings *)

#[global] Instance OrdLaws_int : OrdLaws Z.
Proof.
  split; simpl; intros.
  - apply Z.ltb_irrefl.
  - apply Z.ltb_lt. apply Z.ltb_lt in H, H0. lia.
  - apply Z.ltb_ge in H, H0. lia.
  - destruct (Z.leb_spec a b), (Z.ltb_spec b a); simpl; (done || lia).
Qed.

Lemma string_ltb_leb a b : String.ltb a b = negb (String.leb b a).
Proof.
  unfold String.ltb, String.leb. rewrite (String.compare_antisym a b).
  by destruct (String.compare b a).
Qed.

Lemma string_leb_refl a : String.leb a a = true.
Proof. by destruct (String.leb_total a a). Qed.

#[global] Instance OrdLaws_str : OrdLaws string.
Proof.
  split; simpl.
  - intros a. by rewrite string_ltb_leb, string_leb_refl.
  - intros a b c. rewrite !string_ltb_leb, !negb_true_iff. intros Hab Hbc.
    destruct (String.leb c a) eqn:Hca; [|done].
    destruct (String.leb_total a b) as [Hab'|?]; [|congruence].
    assert (Hcb : String.leb c b = true).
    { apply Is_true_true_1. change (String.le c b).
      transitivity a; apply Is_true_true_2; done. }
    destruct (String.leb_total b c) as [Hbc'|?]; [|congruence].
    assert (b = c) as -> by by apply String.leb_antisym.
    congruence.
  - intros a b. rewrite !string_ltb_leb, !negb_false_iff. intros Hba Hab.
    by apply String.leb_antisym.
  - intros a b. rewrite string_ltb_leb. by rewrite negb_involutive.
Qed.

Lemma py_max_int (a b : Z) : Py.max a b = Z.max a b.
Proof. unfold Py.max. simpl. destruct (Z.ltb_spec a b); lia. Qed.

(** On well-formed time strings the lexicographic order is the order of the
    minutes. *)
Lemma ascii_compare_digit_val c1 c2 :
  Ascii.compare c1 c2 = (digit_val c1 ?= digit_val c2).
Proof.
  unfold Ascii.compare, digit_val. rewrite <- N2Z.inj_compare.
  destruct (Z.compare_spec (Z.of_N (N_of_ascii c1)) (Z.of_N (N_of_ascii c2)));
    symmetry; [apply Z.compare_eq_iff | apply Z.compare_lt_iff | apply Z.compare_gt_iff]; lia.
Qed.

Lemma hhmm_compare a b :
  hhmm a = true → hhmm b = true →
  String.compare a b = (hhmm_minutes a ?= hhmm_minutes b).
Proof.
  intros (a1 & a2 & a3 & a4 & -> & Ha1 & Ha2 & Ha3 & Ha4 & _ & Ha)%hhmm_split.
  intros (b1 & b2 & b3 & b4 & -> & Hb1 & Hb2 & Hb3 & Hb4 & _ & Hb)%hhmm_split.
  pose proof (digit_val_range _ Ha1). pose proof (digit_val_range _ Ha2).
  pose proof (digit_val_range _ Ha3). pose proof (digit_val_range _ Ha4).
  pose proof (digit_val_range _ Hb1). pose proof (digit_val_range _ Hb2).
  pose proof (digit_val_range _ Hb3). pose proof (digit_val_range _ Hb4).
  cbn [String.compare hhmm_minutes]. rewrite !ascii_compare_digit_val.
  change (digit_val ":" ?= digit_val ":") with Eq. cbv iota.
  destruct (Z.compare_spec (digit_val a1) (digit_val b1));
    [destruct (Z.compare_spec (digit_val a2) (digit_val b2));
      [destruct (Z.compare_spec (digit_val a3) (digit_val b3));
        [destruct (Z.compare_spec (digit_val a4) (digit_val b4))|..]|..]|..];
    symmetry;
    first [ apply Z.compare_eq_iff; lia | apply Z.compare_lt_iff; lia
          | apply Z.compare_gt_iff; lia ].
Qed.

Lemma hhmm_lt a b :
  hhmm a = true → hhmm b = true →
  Py.lt a b = Py.lt (hhmm_minutes a) (hhmm_minutes b).
Proof.
  intros Ha Hb. simpl. unfold String.ltb, Z.ltb. by rewrite hhmm_compare.
Qed.

Lemma hhmm_le a b :
  hhmm a = true → hhmm b = true →
  Py.le a b = Py.le (hhmm_minutes a) (hhmm_minutes b).
Proof.
  intros Ha Hb. simpl. unfold String.leb, Z.leb. by rewrite hhmm_compare.
Qed.

(** ** [sorted] *)

Section Sorted.
Context {A K : Type} `{OrdLaws K} (key : A → K).

Lemma lt_asym (a b : K) : Py.lt a b = true → Py.lt b a = false.
Proof.
  intros Hab. destruct (Py.lt b a) eqn:Hba; [|done].
  pose proof (lt_trans _ _ _ Hab Hba) as Haa. by rewrite lt_irrefl in Haa.
Qed.

Lemma lt_le_trans (a b c : K) : Py.lt a b = true → Py.lt c b = false → Py.lt a c = true.
Proof.
  intros Hab Hcb. destruct (Py.lt a c) eqn:Hac; [done|].
  destruct (Py.lt c a) eqn:Hca.
  - by rewrite (lt_trans _ _ _ Hca Hab) in Hcb.
  - by rewrite (lt_connex _ _ Hac Hca) in Hab; rewrite Hab in Hcb.
Qed.

Lemma le_lt_trans (a b c : K) : Py.lt b a = false → Py.lt b c = true → Py.lt a c = true.
Proof.
  intros Hba Hbc. destruct (Py.lt a c) eqn:Hac; [done|].
  destruct (Py.lt c a) eqn:Hca.
  - by rewrite (lt_trans _ _ _ Hbc Hca) in Hba.
  - by rewrite <- (lt_connex _ _ Hac Hca) in Hbc; rewrite Hbc in Hba.
Qed.

#[global] Instance key_le_trans : Transitive (key_le key).
Proof.
  intros x y z Hxy Hyz. unfold key_le in *.
  destruct (Py.lt (key z) (key x)) eqn:Hzx; [|done].
  by rewrite (lt_le_trans _ _ _ Hzx Hxy) in Hyz.
Qed.

Lemma sorted_insert_perm x l : Py.sorted_insert key x l ≡ₚ x :: l.
Proof.
  induction l as [|y l IH]; simpl; [done|].
  destruct (Py.lt (key y) (key x)); [|done].
  rewrite IH. apply Permutation_swap.
Qed.

Lemma sorted_perm l : Py.sorted key l ≡ₚ l.
Proof.
  induction l as [|x l IH]; simpl; [done|].
  fold (Py.sorted key l). by rewrite sorted_insert_perm, IH.
Qed.

Lemma sorted_insert_Sorted x l :
  Sorted (key_le key) l → Sorted (key_le key) (Py.sorted_insert key x l).
Proof.
  induction 1 as [|y l Hl IH Hhd]; simpl; [by repeat constructor|].
  destruct (Py.lt (key y) (key x)) eqn:Hyx.
  - constructor; [done|].
    destruct Hhd as [|z l Hyz]; simpl.
    + constructor. unfold key_le. by apply lt_asym.
    + destruct (Py.lt (key z) (key x)); constructor; [done|].
      unfold key_le. by apply lt_asym.
  - constructor; [by constructor|]. by constructor.
Qed.

Lemma sorted_Sorted l : Sorted (key_le key) (Py.sorted key l).
Proof.
  induction l as [|x l IH]; simpl; [constructor|]. by apply sorted_insert_Sorted.
Qed.

(** Sorting a list that is already in order changes nothing. *)
Lemma sorted_id l : Sorted (key_le key) l → Py.sorted key l = l.
Proof.
  induction 1 as [|x l Hl IH Hhd]; simpl; [done|].
  fold (Py.sorted key l). rewrite IH.
  destruct Hhd as [|y l Hxy]; simpl; [done|]. by rewrite Hxy.
Qed.

End Sorted.

(** [sorted] commutes with a map that preserves the order of the keys. *)
Lemma sorted_map {A B K L} `{Py.Ord K} `{Py.Ord L}
    (key : A → K) (key' : B → L) (f : A → B) (P : A → Prop) (l : list A) :
  (∀ x y, P x → P y → Py.lt (key' (f x)) (key' (f y)) = Py.lt (key x) (key y)) →
  Forall P l →
  Py.sorted key' (f <$> l) = f <$> Py.sorted key l.
Proof.
  intros Hf. induction 1 as [|x l Hx Hl IH]; simpl; [done|].
  change (list_fmap A B f l) with (f <$> l). rewrite IH.
  assert (Forall P (Py.sorted key l)) as Hs by by rewrite sorted_perm.
  clear IH Hl. induction Hs as [|y l' Hy Hl' IH]; simpl; [done|].
  rewrite (Hf y x Hy Hx). destruct (Py.lt (key y) (key x)); [|done].
  simpl. f_equal. exact IH.
Qed.

(** ** [_merge_overlapping_slots] *)

Section MergeLoop.
Context {A : Type} `{Py.Ord A}.

Lemma foldl_merge_step (pre : list (A * A)) lst rest :
  foldl merge_step (pre ++ [lst]) rest = pre ++ merge_loop lst rest.
Proof.
  revert pre lst. induction rest as [|cur rest IH]; intros pre lst; simpl; [done|].
  unfold merge_step at 2. rewrite last_snoc.
  destruct (Py.le cur.1 lst.2).
  - rewrite length_app. simpl.
    replace (length pre + 1 - 1)%nat with (length pre + 0)%nat by lia.
    rewrite insert_app_r. simpl. apply IH.
  - rewrite (IH (pre ++ [lst]) cur). by rewrite <- app_assoc.
Qed.

Lemma merge_overlapping_slots_loop (slots : list (A * A)) :
  _merge_overlapping_slots slots =
  match Py.sorted fst slots with
  | [] => []
  | first :: rest => merge_loop first rest
  end.
Proof.
  unfold _merge_overlapping_slots. destruct slots as [|p slots]; [done|].
  destruct (Py.sorted fst (p :: slots)) as [|first rest]; [done|].
  apply (foldl_merge_step [] first rest).
Qed.

Lemma merge_loop_head lst rest :
  ∃ e tl, merge_loop lst rest = (lst.1, e) :: tl.
Proof.
  revert lst. induction rest as [|cur rest IH]; intros [s e]; simpl; [by eauto|].
  destruct (Py.le cur.1 e); [|by eauto]. apply (IH (s, Py.max e cur.2)).
Qed.

(** The endpoints of the output are endpoints of the input. *)
Lemma merge_loop_both (P : A → Prop) lst rest :
  both P lst → Forall (both P) rest → Forall (both P) (merge_loop lst rest).
Proof.
  intros Hlst Hrest. revert lst Hlst.
  induction Hrest as [|cur rest Hcur Hrest IH]; intros lst Hlst; simpl; [by constructor|].
  destruct (Py.le cur.1 lst.2).
  - apply IH. destruct Hlst, Hcur. split; simpl; [done|].
    unfold Py.max. by destruct (Py.lt lst.2 cur.2).
  - constructor; [done|]. by apply IH.
Qed.

Lemma merge_overlapping_slots_both (P : A → Prop) slots :
  Forall (both P) slots → Forall (both P) (_merge_overlapping_slots slots).
Proof.
  intros Hs. rewrite merge_overlapping_slots_loop.
  assert (Forall (both P) (Py.sorted fst slots)) as Hs' by by rewrite sorted_perm.
  destruct Hs' as [|first rest]; [constructor|]. by apply merge_loop_both.
Qed.

End MergeLoop.

Section MergeOrder.
Context {A : Type} `{OrdLaws A}.

#[global] Instance sep_trans : Transitive (sep (A:=A)).
Proof.
  intros p q r [Hpq1 Hpq2] [Hqr1 Hqr2]. split.
  - by apply (lt_le_trans _ q.1).
  - by apply (key_le_trans fst p q r).
Qed.

Lemma sep_key_le (l : list (A * A)) : Sorted sep l → Sorted (key_le fst) l.
Proof.
  induction 1 as [|p l Hl IH Hhd]; constructor; [done|].
  destruct Hhd as [|q l [_ Hpq]]; by constructor.
Qed.

(** From intervals sorted by start the loop makes intervals that are
    separated: each ends strictly before the next starts. *)
Lemma merge_loop_Sorted lst (rest : list (A * A)) :
  Sorted (key_le fst) (lst :: rest) → Sorted sep (merge_loop lst rest).
Proof.
  revert lst. induction rest as [|cur rest IH]; intros lst Hs; simpl.
  - by repeat constructor.
  - apply Sorted_inv in Hs as [Hs Hhd]. apply HdRel_inv in Hhd.
    destruct (Py.le cur.1 lst.2) eqn:Hle.
    + apply IH. apply Sorted_inv in Hs as [Hs Hhd']. constructor; [done|].
      destruct Hhd' as [|r rest Hr]; constructor.
      by apply (key_le_trans fst (lst.1, Py.max lst.2 cur.2) cur r).
    + pose proof (IH cur Hs) as Hout. constructor; [done|].
      destruct (merge_loop_head cur rest) as (e & tl & ->). constructor.
      rewrite le_not_gt in Hle. apply negb_false_iff in Hle. by split.
Qed.

Lemma merge_overlapping_slots_Sorted (slots : list (A * A)) :
  Sorted sep (_merge_overlapping_slots slots).
Proof.
  rewrite merge_overlapping_slots_loop.
  pose proof (sorted_Sorted fst slots) as Hs.
  destruct (Py.sorted fst slots); [constructor|]. by apply merge_loop_Sorted.
Qed.

(** On separated intervals the loop changes nothing. *)
Lemma merge_loop_sep lst (rest : list (A * A)) :
  Sorted sep (lst :: rest) → merge_loop lst rest = lst :: rest.
Proof.
  revert lst. induction rest as [|cur rest IH]; intros lst Hs; simpl; [done|].
  apply Sorted_inv in Hs as [Hs Hhd]. apply HdRel_inv in Hhd as [Hlt _].
  rewrite le_not_gt, Hlt. simpl. by rewrite (IH cur Hs).
Qed.

Lemma merge_overlapping_slots_sep (slots : list (A * A)) :
  Sorted sep slots → _merge_overlapping_slots slots = slots.
Proof.
  intros Hs. rewrite merge_overlapping_slots_loop.
  rewrite (sorted_id fst slots) by by apply sep_key_le.
  destruct slots; [done|]. by apply merge_loop_sep.
Qed.

Lemma max_not_below (a b : A) : Py.lt (Py.max a b) a = false.
Proof.
  unfold Py.max. destruct (Py.lt a b) eqn:Hab; [by apply lt_asym | apply lt_irrefl].
Qed.

(** Intervals whose end is not before their start stay so. *)
Lemma merge_loop_proper lst (rest : list (A * A)) :
  proper lst → Forall proper rest → Forall proper (merge_loop lst rest).
Proof.
  intros Hlst Hrest. revert lst Hlst.
  induction Hrest as [|cur rest Hcur Hrest IH]; intros lst Hlst; simpl; [by constructor|].
  destruct (Py.le cur.1 lst.2).
  - apply IH. unfold proper in *. simpl.
    destruct (Py.lt (Py.max lst.2 cur.2) lst.1) eqn:E; [|done].
    pose proof (lt_le_trans _ _ _ E Hlst) as E'. by rewrite max_not_below in E'.
  - constructor; [done|]. by apply IH.
Qed.

Lemma merge_overlapping_slots_proper (slots : list (A * A)) :
  Forall proper slots → Forall proper (_merge_overlapping_slots slots).
Proof.
  intros Hs. rewrite merge_overlapping_slots_loop.
  assert (Forall proper (Py.sorted fst slots)) as Hs' by by rewrite sorted_perm.
  destruct Hs' as [|first rest]; [constructor|]. by apply merge_loop_proper.
Qed.

End MergeOrder.

(** The merge commutes with a map of the endpoints that preserves their
    order. *)
Section MergeMap.
Context {A B : Type} `{Py.Ord A} `{Py.Ord B} (f : A → B) (P : A → Prop).
Hypothesis f_lt : ∀ a b, P a → P b → Py.lt (f a) (f b) = Py.lt a b.
Hypothesis f_le : ∀ a b, P a → P b → Py.le (f a) (f b) = Py.le a b.

Lemma merge_loop_map lst (rest : list (A * A)) :
  both P lst → Forall (both P) rest →
  merge_loop (prod_map f f lst) (prod_map f f <$> rest)
  = prod_map f f <$> merge_loop lst rest.
Proof.
  intros Hlst Hrest. revert lst Hlst.
  induction Hrest as [|cur rest Hcur Hrest IH]; intros lst Hlst; simpl; [done|].
  destruct Hlst as [Hl1 Hl2], Hcur as [Hc1 Hc2].
  rewrite (f_le _ _ Hc1 Hl2). destruct (Py.le cur.1 lst.2).
  - assert (Py.max (f lst.2) (f cur.2) = f (Py.max lst.2 cur.2)) as ->.
    { unfold Py.max. rewrite (f_lt _ _ Hl2 Hc2). by destruct (Py.lt lst.2 cur.2). }
    apply (IH (lst.1, Py.max lst.2 cur.2)). split; simpl; [done|].
    unfold Py.max. by destruct (Py.lt lst.2 cur.2).
  - simpl. f_equal. apply IH. by split.
Qed.

Lemma merge_overlapping_slots_map (slots : list (A * A)) :
  Forall (both P) slots →
  _merge_overlapping_slots (prod_map f f <$> slots)
  = prod_map f f <$> _merge_overlapping_slots slots.
Proof.
  intros Hs. rewrite !merge_overlapping_slots_loop.
  rewrite (sorted_map fst fst (prod_map f f) (both P)); [| |done].
  - assert (Forall (both P) (Py.sorted fst slots)) as Hs' by by rewrite sorted_perm.
    destruct Hs' as [|first rest Hfirst Hrest]; [done|]. simpl.
    by apply merge_loop_map.
  - intros x y [Hx _] [Hy _]. simpl. by apply f_lt.
Qed.

End MergeMap.

(** ** The merge on minute intervals *)

Lemma sep_int (p q : Z * Z) : sep p q ↔ p.2 < q.1 ∧ p.1 ≤ q.1.
Proof.
  unfold sep. simpl. rewrite Z.ltb_lt, Z.ltb_ge. tauto.
Qed.

Lemma proper_int (p : Z * Z) : proper p ↔ p.1 ≤ p.2.
Proof. unfold proper. simpl. by rewrite Z.ltb_ge. Qed.

Lemma Sorted_sep_int (l : list (Z * Z)) :
  Sorted sep l → StronglySorted (λ p q, p.2 < q.1 ∧ p.1 ≤ q.1) l.
Proof.
  intros Hs. apply Sorted_StronglySorted in Hs; [|apply sep_trans].
  induction Hs as [|p l Hl IH Hp]; constructor; [done|].
  eapply Forall_impl; [exact Hp|]. intros q Hq. by apply sep_int.
Qed.

Example merge_touching :
  _merge_overlapping_slots [(60, 120); (120, 180)] = [(60, 180)] ∧
  _merge_overlapping_slots [(60, 120); (121, 180)] = [(60, 120); (121, 180)] ∧
  _merge_overlapping_slots [(420, 480); (60, 200); (100, 130); (200, 210)]
  = [(60, 210); (420, 480)].
Proof. repeat split; reflexivity. Qed.

(** An interval whose end is before its start is not absorbed by an equal
    start, so two intervals of the output can start together. *)
Example merge_reversed :
  _merge_overlapping_slots [(10, 5); (10, 7)] = [(10, 5); (10, 7)].
Proof. reflexivity. Qed.

(** C4, as stated, fails: on [(10, 5); (10, 7)] the starts of the output are
    not strictly ascending. *)
Lemma merge_starts_not_strict :
  ¬ StronglySorted (λ p q : Z * Z, p.1 < q.1)
      (_merge_overlapping_slots [(10, 5); (10, 7)]).
Proof.
  rewrite merge_reversed. intros Hs.
  apply StronglySorted_inv in Hs as [_ Hhd].
  apply Forall_inv in Hhd. simpl in Hhd. lia.
Qed.

(** C4, amended: for every list of (start, end) minute intervals the merge
    returns intervals in ascending start order in which each interval ends
    strictly before every later one starts (pairwise non-overlapping and
    non-touching); the starts are strictly ascending when no input interval
    ends before it starts.  The output is the left-to-right fold over the
    input sorted by start: an interval whose start is at most the running
    interval's end (the touching case included) is absorbed, the end becoming
    the maximum of the two ends, and any other interval closes the running
    one.  Empty input gives empty output. *)
Theorem merge_overlapping_slots_separated (slots : list (Z * Z)) :
  let out := _merge_overlapping_slots slots in
  _merge_overlapping_slots (@nil (Z * Z)) = [] ∧
  StronglySorted (λ p q, p.2 < q.1 ∧ p.1 ≤ q.1) out ∧
  (Forall (λ p, p.1 ≤ p.2) slots → StronglySorted (λ p q, p.1 < q.1) out) ∧
  out = match Py.sorted fst slots with
        | [] => []
        | first :: rest => merge_loop first rest
        end ∧
  (∀ lst : Z * Z, merge_loop lst [] = [lst]) ∧
  (∀ (lst cur : Z * Z) rest,
     merge_loop lst (cur :: rest) =
     if cur.1 <=? lst.2 then merge_loop (lst.1, Z.max lst.2 cur.2) rest
     else lst :: merge_loop cur rest).
Proof.
  intros out. pose proof (merge_overlapping_slots_Sorted slots) as Hsep.
  apply Sorted_sep_int in Hsep. fold out in Hsep.
  repeat split; try done.
  - intros Hprop.
    assert (Forall (λ p : Z * Z, p.1 ≤ p.2) out) as Hout.
    { eapply Forall_impl; [apply merge_overlapping_slots_proper|].
      - eapply Forall_impl; [exact Hprop|]. intros p. apply proper_int.
      - intros p. apply proper_int. }
    clearbody out. clear Hprop.
    induction Hsep as [|p l Hl IH Hp]; constructor.
    + apply IH. by apply Forall_inv_tail in Hout.
    + apply Forall_inv in Hout. eapply Forall_impl; [exact Hp|].
      intros q [Hq _]. simpl in *. lia.
  - apply merge_overlapping_slots_loop.
  - intros lst cur rest. simpl. by rewrite py_max_int.
Qed.

Lemma merge_overlapping_slots_separated_witness :
  StronglySorted (λ p q : Z * Z, p.1 < q.1)
    (_merge_overlapping_slots [(420, 480); (60, 200); (100, 130); (200, 210)]).
Proof.
  apply (merge_overlapping_slots_separated
           [(420, 480); (60, 200); (100, 130); (200, 210)]).
  repeat constructor; simpl; lia.
Defined.

(** C8: the merge is idempotent. *)
Theorem merge_overlapping_slots_idempotent (x : list (Z * Z)) :
  _merge_overlapping_slots (_merge_overlapping_slots x) = _merge_overlapping_slots x.
Proof. apply merge_overlapping_slots_sep, merge_overlapping_slots_Sorted. Qed.

(** ** The calendar index *)

Section Index.

(** The day that the index holds for a date is a day of the payload with
    that date. *)
Lemma days_by_date_lookup ds date day :
  days_by_date ds !! date = Some day → day ∈ ds ∧ day_date day = date.
Proof.
  unfold days_by_date.
  assert (∀ (l : list Day) (m : gmap string Day),
    Forall (λ x, x ∈ ds) l →
    map_Forall (λ k x, x ∈ ds ∧ day_date x = k) m →
    map_Forall (λ k x, x ∈ ds ∧ day_date x = k)
      (foldl (λ m day, <[day_date day := day]> m) m l)) as Hacc.
  { induction l as [|x l IH]; intros m Hl Hm; simpl; [done|].
    apply Forall_cons in Hl as [Hx Hl]. apply IH; [done|].
    by apply map_Forall_insert_2. }
  intros Hlookup. apply (Hacc ds ∅); [| apply map_Forall_empty | done].
  by apply Forall_forall.
Qed.

Lemma days_by_date_dom (ds : list Day) :
  dom (days_by_date ds) = list_to_set (day_date <$> ds).
Proof.
  unfold days_by_date.
  assert (∀ m : gmap string Day,
    dom (foldl (λ m day, <[day_date day := day]> m) m ds)
    = dom m ∪ list_to_set (day_date <$> ds)) as Hacc.
  { induction ds as [|d ds IH]; intros m; simpl.
    - set_solver.
    - rewrite IH, dom_insert_L. set_solver. }
  rewrite Hacc. set_solver.
Qed.

Lemma organize_timeslots_dom (d : Payload) :
  dom (_organize_timeslots d) = list_to_set (day_date <$> data_days d).
Proof.
  unfold _organize_timeslots.
  set (step := λ (m : gmap string (list (string * string))) timeslot, _).
  assert (∀ (l : list Timeslot) m, dom (foldl step m l) = dom m) as Hstep.
  { induction l as [|t l IH]; intros m; simpl; [done|].
    rewrite IH. unfold step. destruct (truthy _); [|done]. apply dom_alter_L. }
  rewrite Hstep. clear.
  assert (∀ (ds : list Day) (m : gmap string (list (string * string))),
    dom (foldl (λ m day, <[day_date day := []]> m) m ds)
    = dom m ∪ list_to_set (day_date <$> ds)) as Hacc.
  { induction ds as [|x ds IH]; intros m; simpl.
    - set_solver.
    - rewrite IH, dom_insert_L. set_solver. }
  rewrite Hacc. set_solver.
Qed.

(** The two maps of the index have the same dates. *)
Lemma index_same_dates (d : Payload) date :
  timeslots (__init__ d) !! date = None ↔ days (__init__ d) !! date = None.
Proof.
  rewrite <- !not_elem_of_dom. simpl.
  by rewrite organize_timeslots_dom, days_by_date_dom.
Qed.

(** Every busy slot of the index is a timeslot of the payload. *)
Lemma organize_timeslots_Forall (P : string * string → Prop) (d : Payload) date l :
  Forall (λ t, P (ts_start t, ts_end t)) (data_timeslots d) →
  _organize_timeslots d !! date = Some l → Forall P l.
Proof.
  intros Hts. unfold _organize_timeslots.
  set (step := λ (m : gmap string (list (string * string))) timeslot, _).
  set (m0 := foldl _ ∅ (data_days d)).
  assert (map_Forall (λ _ l, Forall P l) m0) as H0.
  { subst m0. generalize (data_days d). intros ds.
    assert (∀ m : gmap string (list (string * string)),
      map_Forall (λ _ l, Forall P l) m →
      map_Forall (λ _ l, Forall P l) (foldl (λ m day, <[day_date day := []]> m) m ds)) as Hacc.
    { induction ds as [|x ds IH]; intros m Hm; simpl; [done|].
      apply IH. by apply map_Forall_insert_2. }
    apply Hacc, map_Forall_empty. }
  clearbody m0. revert m0 H0 l.
  induction Hts as [|t ts Ht Hts IH]; intros m Hm l; simpl.
  - intros Hl. by apply (Hm _ _ Hl).
  - apply IH. unfold step. destruct (truthy _); [|done].
    intros k x. rewrite lookup_alter. case_decide as Hk; [|apply Hm].
    rewrite Hk. destruct (m !! k) as [l0|] eqn:E; simpl; intros [= <-].
    apply Forall_app. split; [by apply (Hm _ _ E)|]. by constructor.
Qed.

End Index.

(** ** The cursor of [get_free_slots] *)

Section Cursor.

Lemma parse_time_range_minutes a b :
  _parse_time_range (_minutes_to_time a) (_minutes_to_time b) = Some (a, b).
Proof. unfold _parse_time_range. by rewrite !time_to_minutes_to_time. Qed.

(** Slots printed from minutes read back as these minutes. *)
Lemma parse_slots_of_minutes (l : list (Z * Z)) :
  parse_slots (slot_of_minutes <$> l) = Some l.
Proof.
  unfold parse_slots. induction l as [|[a b] l IH]; [done|].
  cbn [fmap list_fmap mapM slot_of_minutes fst snd].
  rewrite parse_time_range_minutes. cbn [mbind option_bind].
  change (list_fmap _ _ slot_of_minutes l) with (slot_of_minutes <$> l).
  by rewrite IH.
Qed.

Lemma parse_slots_cons p l :
  parse_slots (p :: l) =
  q ← _parse_time_range p.1 p.2; r ← parse_slots l; Some (q :: r).
Proof. done. Qed.

Lemma parse_slots_elem l L s e :
  parse_slots l = Some L → (s, e) ∈ l →
  ∃ a b, _parse_time_range s e = Some (a, b) ∧ (a, b) ∈ L.
Proof.
  revert L. induction l as [|p l IH]; intros L HL Hin; [by apply elem_of_nil in Hin|].
  rewrite parse_slots_cons in HL.
  destruct (_parse_time_range p.1 p.2) as [q|] eqn:Hq; [|done].
  destruct (parse_slots l) as [r|] eqn:Hr; [|done].
  cbn in HL. injection HL as <-.
  apply elem_of_cons in Hin as [Hp|Hin].
  - subst p. destruct q as [a b]. exists a, b. split; [done|]. apply elem_of_cons. by left.
  - destruct (IH r eq_refl Hin) as (a & b & Hab & Hin'). exists a, b.
    split; [done|]. apply elem_of_cons. by right.
Qed.

Lemma free_loop_spec busy_slots free_slots prev_end :
  free_loop busy_slots free_slots prev_end =
  busy ← parse_slots busy_slots;
  Some (free_slots ++ (slot_of_minutes <$> gaps busy prev_end), cursor busy prev_end).
Proof.
  revert free_slots prev_end.
  induction busy_slots as [|[bs be] rest IH]; intros free_slots prev_end.
  - cbn. by rewrite app_nil_r.
  - rewrite parse_slots_cons. cbn [free_loop fst snd].
    destruct (_parse_time_range bs be) as [[s e]|]; [|done].
    cbn [mbind option_bind]. rewrite IH.
    destruct (parse_slots rest) as [busy|]; [|done].
    cbn [mbind option_bind gaps cursor]. f_equal. f_equal.
    destruct (prev_end <? s); [|done].
    by rewrite <- app_assoc.
Qed.

(** [get_free_slots], once the window and the busy slots are read in
    minutes, is the cursor walk [free_of] printed back. *)
Lemma get_free_slots_spec self date ws we :
  window self date = Some (ws, we) →
  get_free_slots self date =
  busy ← busy_minutes self date; Some (slot_of_minutes <$> free_of ws we busy).
Proof.
  unfold window, get_free_slots, busy_minutes.
  destruct (days self !! date) as [wd|]; [|done]. cbn [mbind option_bind].
  intros ->. cbn [mbind option_bind]. rewrite free_loop_spec.
  destruct (parse_slots (get_busy_slots self date)) as [busy|]; [|done].
  cbn [mbind option_bind]. unfold free_of. f_equal.
  destruct (cursor busy ws <? we); [|by rewrite app_nil_r].
  by rewrite fmap_app.
Qed.

(** When [get_free_slots] returns for a date of the index, the window and
    the busy slots have been read, and the result is [free_of] of them. *)
Lemma get_free_slots_inv self date work_day free_slots :
  days self !! date = Some work_day →
  get_free_slots self date = Some free_slots →
  ∃ ws we busy,
    window self date = Some (ws, we) ∧ busy_minutes self date = Some busy ∧
    free_slots = slot_of_minutes <$> free_of ws we busy ∧
    free_minutes self date = Some (free_of ws we busy).
Proof.
  intros Hd Hf.
  destruct (window self date) as [[ws we]|] eqn:Hw.
  - rewrite (get_free_slots_spec _ _ _ _ Hw) in Hf.
    destruct (busy_minutes self date) as [busy|] eqn:Hb; [|done].
    injection Hf as <-. exists ws, we, busy. repeat split; try done.
    unfold free_minutes. rewrite (get_free_slots_spec _ _ _ _ Hw), Hb.
    cbn [mbind option_bind]. apply parse_slots_of_minutes.
  - unfold window, get_free_slots in *. rewrite Hd in *.
    cbn [mbind option_bind] in Hw. by rewrite Hw in Hf.
Qed.

Lemma cursor_ge busy c : c ≤ cursor busy c.
Proof.
  revert c. induction busy as [|[s e] rest IH]; intros c; simpl; [lia|].
  specialize (IH (Z.max c e)). lia.
Qed.

Lemma cursor_ends busy c : Forall (λ p, p.2 ≤ cursor busy c) busy.
Proof.
  revert c. induction busy as [|[s e] rest IH]; intros c; simpl; constructor.
  - simpl. pose proof (cursor_ge rest (Z.max c e)). lia.
  - apply IH.
Qed.

(** Every gap starts at or after the cursor's start, is not empty, starts no
    later than the cursor ends, and ends where a busy interval starts. *)
Lemma gaps_bounds busy c :
  Forall (λ g, c ≤ g.1 ∧ g.1 < g.2 ∧ g.1 ≤ cursor busy c ∧ ∃ p, p ∈ busy ∧ g.2 = p.1)
         (gaps busy c).
Proof.
  revert c. induction busy as [|[s e] rest IH]; intros c; simpl; [constructor|].
  apply Forall_app. split.
  - destruct (Z.ltb_spec c s); constructor; [|constructor]. simpl.
    pose proof (cursor_ge rest (Z.max c e)).
    repeat split; try lia. exists (s, e). split; [by left|done].
  - eapply Forall_impl; [apply (IH (Z.max c e))|]. simpl.
    intros g (H1 & H2 & H3 & p & Hp & Hg). repeat split; try lia.
    exists p. split; [by right|done].
Qed.

(** The gaps come out with ascending starts. *)
Lemma gaps_ascending busy c : StronglySorted (λ p q, p.1 ≤ q.1) (gaps busy c).
Proof.
  revert c. induction busy as [|[s e] rest IH]; intros c; simpl; [constructor|].
  destruct (Z.ltb_spec c s); simpl; [|apply IH].
  constructor; [apply IH|].
  eapply Forall_impl; [apply (gaps_bounds rest (Z.max c e))|].
  simpl. intros g (Hg & _). lia.
Qed.

Lemma free_of_ascending ws we busy : StronglySorted (λ p q, p.1 ≤ q.1) (free_of ws we busy).
Proof.
  unfold free_of. pose proof (gaps_ascending busy ws) as Hs.
  pose proof (gaps_bounds busy ws) as Hb.
  destruct (cursor busy ws <? we); [|by rewrite app_nil_r].
  induction Hs as [|g l Hl IH Hg]; simpl.
  - repeat constructor.
  - apply Forall_cons in Hb as [(_ & _ & Hc & _) Hb]. constructor; [by apply IH|].
    apply Forall_app. split; [done|]. by repeat constructor.
Qed.

(** Every free interval starts at or after the start of the window and is
    not empty; it ends within the window when no busy interval starts after
    the end of the window. *)
Lemma free_of_bounds ws we busy :
  Forall (λ g, ws ≤ g.1 ∧ g.1 < g.2 ∧ (Forall (λ p, p.1 ≤ we) busy → g.2 ≤ we))
         (free_of ws we busy).
Proof.
  unfold free_of. apply Forall_app. split.
  - eapply Forall_impl; [apply gaps_bounds|]. simpl.
    intros g (H1 & H2 & _ & p & Hp & Hg). repeat split; try done.
    intros Hall. rewrite Hg. by apply (proj1 (Forall_forall _ _) Hall p).
  - destruct (Z.ltb_spec (cursor busy ws) we); constructor; [|constructor]. simpl.
    pose proof (cursor_ge busy ws). repeat split; (done || lia).
Qed.

End Cursor.

(** ** Well-formed dates: the string merge is the minute merge *)

Section WellFormed.

Lemma hhmm_slot_both p : hhmm_slot p = true ↔ both (λ s, hhmm s = true) p.
Proof. unfold hhmm_slot, both. by rewrite andb_true_iff. Qed.

Lemma parse_slots_hhmm l :
  Forall (both (λ s, hhmm s = true)) l →
  parse_slots l = Some (prod_map hhmm_minutes hhmm_minutes <$> l).
Proof.
  induction 1 as [|[s e] l [Hs He] Hl IH]; [done|].
  rewrite parse_slots_cons, IH. simpl in *. unfold _parse_time_range.
  by rewrite (proj1 (hhmm_time_to_minutes s Hs)), (proj1 (hhmm_time_to_minutes e He)).
Qed.

Lemma slot_of_minutes_hhmm l :
  Forall (both (λ s, hhmm s = true)) l →
  slot_of_minutes <$> (prod_map hhmm_minutes hhmm_minutes <$> l) = l.
Proof.
  induction 1 as [|[s e] l [Hs He] Hl IH]; [done|].
  rewrite !fmap_cons, IH. unfold slot_of_minutes. simpl in *.
  by rewrite !hhmm_minutes_to_time.
Qed.

(** On well-formed strings, merging the strings and reading the result in
    minutes is merging the minutes. *)
Lemma merge_hhmm (l : list (string * string)) :
  Forall (both (λ s, hhmm s = true)) l →
  parse_slots (_merge_overlapping_slots l)
  = Some (_merge_overlapping_slots (prod_map hhmm_minutes hhmm_minutes <$> l)).
Proof.
  intros Hl.
  rewrite parse_slots_hhmm by by apply merge_overlapping_slots_both.
  f_equal. symmetry.
  apply (merge_overlapping_slots_map hhmm_minutes (λ s, hhmm s = true)); [| |done].
  - intros a b Ha Hb. symmetry. by apply hhmm_lt.
  - intros a b Ha Hb. symmetry. by apply hhmm_le.
Qed.

Lemma wf_busy_Forall self date :
  wf_busy self date = true →
  Forall (both (λ s, hhmm s = true)) (default [] (timeslots self !! date)).
Proof.
  unfold wf_busy. intros Hts.
  destruct (timeslots self !! date) as [l|]; simpl; [|constructor].
  apply Forall_forall. intros p Hp. apply hhmm_slot_both.
  rewrite forallb_forall in Hts. apply Hts. by apply list_elem_of_In.
Qed.

Lemma get_busy_slots_default self date :
  get_busy_slots self date = _merge_overlapping_slots (default [] (timeslots self !! date)).
Proof. unfold get_busy_slots. by destruct (timeslots self !! date). Qed.

(** The busy slots of a well-formed date read as minute intervals that are
    sorted and separated. *)
Lemma wf_busy_minutes self date :
  wf_busy self date = true →
  ∃ busy, busy_minutes self date = Some busy ∧ Sorted sep busy.
Proof.
  intros Hwf. unfold busy_minutes. rewrite get_busy_slots_default.
  rewrite merge_hhmm by by apply wf_busy_Forall.
  eexists. split; [done|]. apply merge_overlapping_slots_Sorted.
Qed.

End WellFormed.

(** ** [is_available] *)

Section Available.

Lemma available_loop_spec busy_slots busy a b :
  parse_slots busy_slots = Some busy →
  available_loop busy_slots a b = Some (forallb (clear_of a b) busy).
Proof.
  revert busy. induction busy_slots as [|[bs be] rest IH]; intros busy Hb.
  - by injection Hb as <-.
  - rewrite parse_slots_cons in Hb. cbn [available_loop fst snd] in *.
    destruct (_parse_time_range bs be) as [[s e]|]; [|done].
    destruct (parse_slots rest) as [r|]; [|done].
    cbn in Hb. injection Hb as <-. cbn [mbind option_bind forallb].
    unfold clear_of at 1. simpl.
    destruct ((b <=? s) || (e <=? a)); simpl; [by apply IH|done].
Qed.

Lemma is_available_spec self date s e ws we a b busy :
  window self date = Some (ws, we) →
  _parse_time_range s e = Some (a, b) →
  busy_minutes self date = Some busy →
  is_available self date s e
  = Some ((ws <=? a) && (b <=? we) && forallb (clear_of a b) busy).
Proof.
  unfold window, is_available, busy_minutes.
  destruct (days self !! date) as [wd|]; [|done]. cbn [mbind option_bind].
  intros -> -> Hb. cbn [mbind option_bind].
  rewrite (available_loop_spec _ _ _ _ Hb).
  destruct (Z.ltb_spec a ws), (Z.leb_spec ws a); try lia; simpl; [done|].
  destruct (Z.ltb_spec we b), (Z.leb_spec b we); try lia; done.
Qed.

Lemma is_available_outside self date s e ws we a b :
  window self date = Some (ws, we) →
  _parse_time_range s e = Some (a, b) →
  a < ws ∨ we < b →
  is_available self date s e = Some false.
Proof.
  unfold window, is_available.
  destruct (days self !! date) as [wd|]; [|done]. cbn [mbind option_bind].
  intros -> -> Hout. cbn [mbind option_bind].
  destruct (Z.ltb_spec a ws); [done|]. destruct (Z.ltb_spec we b); [done|]. lia.
Qed.

(** A free interval of [free_of] is clear of every busy interval, when the
    busy intervals are sorted by start. *)
Lemma gaps_clear busy c :
  StronglySorted (λ p q : Z * Z, p.1 ≤ q.1) busy →
  Forall (λ g, forallb (clear_of g.1 g.2) busy = true) (gaps busy c).
Proof.
  intros Hs. revert c. induction Hs as [|[s e] rest Hrest IH Hhd]; intros c; simpl.
  - constructor.
  - apply Forall_app. split.
    + destruct (Z.ltb_spec c s); constructor; [|constructor]. simpl.
      apply andb_true_iff. split.
      * unfold clear_of. simpl. apply orb_true_iff. left. by apply Z.leb_le.
      * apply forallb_forall. intros p Hp%list_elem_of_In.
        pose proof (proj1 (Forall_forall _ _) Hhd p Hp) as Hsp. simpl in Hsp.
        unfold clear_of. simpl. apply orb_true_iff. left. by apply Z.leb_le.
    + pose proof (gaps_bounds rest (Z.max c e)) as Hb.
      specialize (IH (Z.max c e)).
      induction Hb as [|g l (Hg & _) Hl IHl]; constructor.
      * apply Forall_inv in IH. apply andb_true_iff. split; [|done].
        unfold clear_of. simpl. apply orb_true_iff. right. apply Z.leb_le. lia.
      * apply IHl. by apply Forall_inv_tail in IH.
Qed.

Lemma free_of_clear ws we busy :
  StronglySorted (λ p q : Z * Z, p.1 ≤ q.1) busy →
  Forall (λ g, forallb (clear_of g.1 g.2) busy = true) (free_of ws we busy).
Proof.
  intros Hs. unfold free_of. apply Forall_app. split; [by apply gaps_clear|].
  destruct (cursor busy ws <? we); constructor; [|constructor]. simpl.
  apply forallb_forall. intros p Hp%list_elem_of_In.
  pose proof (proj1 (Forall_forall _ _) (cursor_ends busy ws) p Hp) as He.
  unfold clear_of. simpl in *. apply orb_true_iff. right. by apply Z.leb_le.
Qed.

End Available.

(** ** Free slots and the working window *)

Example late_busy_slots :
  window late_busy "2024-10-10" = Some (540, 1080) ∧
  get_busy_slots late_busy "2024-10-10" = [("19:00", "20:00")] ∧
  get_free_slots late_busy "2024-10-10" = Some [("09:00", "19:00")].
Proof. repeat split; vm_compute; reflexivity. Qed.

(** A busy slot that ends before the working day starts, and one that
    straddles its start, leave no free interval before the window. *)
Example early_busy_slots :
  get_free_slots (__init__ (one_day "09:00" "18:00" [("07:00", "08:00")])) "2024-10-10"
  = Some [("09:00", "18:00")] ∧
  get_free_slots (__init__ (one_day "09:00" "18:00" [("08:00", "10:00")])) "2024-10-10"
  = Some [("10:00", "18:00")] ∧
  get_free_slots (__init__ (one_day "09:00" "18:00" [("17:00", "19:00")])) "2024-10-10"
  = Some [("09:00", "17:00")].
Proof. repeat split; vm_compute; reflexivity. Qed.

(** C1 does not hold of the code: with a working day from 09:00 to 18:00 and
    a busy slot from 19:00 to 20:00, [get_free_slots] returns the single
    interval 09:00 to 19:00, which ends after the working day.  The gap put
    out inside the loop ends at the busy slot's start and is never compared
    with [work_end]; only the last gap is. *)
Lemma free_slot_past_work_end :
  days late_busy !! "2024-10-10"
  = Some {| day_id := 1; day_date := "2024-10-10"; day_start := "09:00"; day_end := "18:00" |} ∧
  window late_busy "2024-10-10" = Some (540, 1080) ∧
  get_free_slots late_busy "2024-10-10" = Some [("09:00", "19:00")] ∧
  free_minutes late_busy "2024-10-10" = Some [(540, 1140)] ∧
  ¬ Forall (within_window 540 1080) [(540, 1140)].
Proof.
  repeat split; try (vm_compute; reflexivity).
  intros H. apply Forall_inv in H. destruct H as [_ H]. simpl in H. lia.
Qed.

(** What does hold of the bounds: for every date of the index for which
    [get_free_slots] returns, every returned interval, read in minutes,
    starts at or after the start of the working day and is not empty,
    whatever the busy slots are (so also when one ends before the working day
    starts or straddles one of its ends); and every returned interval ends at
    or before the end of the working day when no busy slot starts after that
    end. *)
Theorem free_slots_within_window self date work_day free_slots :
  days self !! date = Some work_day →
  get_free_slots self date = Some free_slots →
  ∃ ws we busy free,
    window self date = Some (ws, we) ∧
    busy_minutes self date = Some busy ∧
    free_minutes self date = Some free ∧
    free_slots = slot_of_minutes <$> free ∧
    Forall (λ g, ws ≤ g.1 ∧ g.1 < g.2) free ∧
    (Forall (λ p, p.1 ≤ we) busy → Forall (within_window ws we) free).
Proof.
  intros Hd Hf.
  destruct (get_free_slots_inv _ _ _ _ Hd Hf) as (ws & we & busy & Hw & Hb & -> & Hfm).
  exists ws, we, busy, (free_of ws we busy). repeat split; try done.
  - eapply Forall_impl; [apply free_of_bounds|]. simpl. tauto.
  - intros Hbusy. eapply Forall_impl; [apply free_of_bounds|]. simpl.
    intros g (H1 & _ & H3). split; [done|]. by apply H3.
Qed.

Lemma free_slots_within_window_witness :
  ∃ ws we busy free,
    window scheduler "2024-10-10" = Some (ws, we) ∧
    busy_minutes scheduler "2024-10-10" = Some busy ∧
    free_minutes scheduler "2024-10-10" = Some free ∧
    [("09:00", "11:00"); ("12:00", "18:00")] = slot_of_minutes <$> free ∧
    Forall (λ g, ws ≤ g.1 ∧ g.1 < g.2) free ∧
    (Forall (λ p, p.1 ≤ we) busy → Forall (within_window ws we) free).
Proof.
  apply (free_slots_within_window scheduler "2024-10-10"
           {| day_id := 1; day_date := "2024-10-10";
              day_start := "09:00"; day_end := "18:00" |}).
  - vm_compute. reflexivity.
  - vm_compute. reflexivity.
Defined.

(** ** Free and busy slots as a partition of the window *)

Section Partition.

Lemma cover_count_app m l1 l2 :
  cover_count m (l1 ++ l2) = (cover_count m l1 + cover_count m l2)%nat.
Proof.
  induction l1 as [|[a b] l1 IH]; simpl; [done|]. rewrite IH. lia.
Qed.

Ltac cases_cmp :=
  repeat match goal with
         | |- context [Z.leb ?a ?b] => destruct (Z.leb_spec a b)
         | |- context [Z.ltb ?a ?b] => destruct (Z.ltb_spec a b)
         | H : context [Z.leb ?a ?b] |- _ => destruct (Z.leb_spec a b)
         | H : context [Z.ltb ?a ?b] |- _ => destruct (Z.ltb_spec a b)
         end.

Lemma gaps_partition we busy c m :
  StronglySorted (λ p q : Z * Z, p.2 < q.1 ∧ p.1 ≤ q.1) busy →
  Forall (λ p, c ≤ p.1 ∧ p.1 ≤ p.2 ∧ p.2 ≤ we) busy →
  Nat.add (Nat.add (cover_count m (gaps busy c))
             (cover_count m (if cursor busy c <? we then [(cursor busy c, we)] else [])))
          (cover_count m busy)
  = if (c <=? m) && (m <? we) then 1%nat else 0%nat.
Proof.
  intros Hs. revert c. induction Hs as [|[s e] rest Hrest IH Hhd]; intros c Hb.
  - simpl. cases_cmp; simpl; cases_cmp; simpl; lia.
  - apply Forall_cons in Hb as [(H1 & H2 & H3) Hb]. simpl in H1, H2, H3.
    assert (Forall (λ p : Z * Z, e ≤ p.1 ∧ p.1 ≤ p.2 ∧ p.2 ≤ we) rest) as Hb'.
    { apply Forall_forall. intros p Hp.
      pose proof (proj1 (Forall_forall _ _) Hhd p Hp) as [Hlt _].
      pose proof (proj1 (Forall_forall _ _) Hb p Hp) as (_ & ? & ?).
      simpl in Hlt. lia. }
    specialize (IH e Hb'). cbn [gaps cursor cover_count].
    rewrite (Z.max_r c e) by lia. rewrite cover_count_app.
    set (x := cover_count m (gaps rest e)) in *.
    set (y := cover_count m (if cursor rest e <? we then _ else _)) in *.
    set (z := cover_count m rest) in *. clearbody x y z.
    cases_cmp; simpl in *; cases_cmp; simpl in *; lia.
Qed.

(** Over busy intervals that are separated and lie within the window, the
    free intervals of the cursor walk and the busy intervals partition the
    window. *)
Lemma free_of_partitions ws we busy :
  Sorted sep busy →
  Forall (λ p, ws ≤ p.1 ∧ p.1 ≤ p.2 ∧ p.2 ≤ we) busy →
  partitions ws we (free_of ws we busy ++ busy).
Proof.
  intros Hs Hb m. unfold free_of. rewrite !cover_count_app.
  apply gaps_partition; [|done]. by apply Sorted_sep_int.
Qed.

End Partition.

Example unpadded_slots :
  get_busy_slots unpadded "2024-10-10" = [("10:00", "11:00"); ("9:00", "9:30")] ∧
  get_free_slots unpadded "2024-10-10" = Some [("08:00", "10:00"); ("11:00", "18:00")].
Proof. split; vm_compute; reflexivity. Qed.

(** C2, as stated, fails: with the busy slots 9:00 to 9:30 and 10:00 to
    11:00 in a working day from 08:00 to 18:00, both within the window, the
    strings are merged in the order "10:00", "9:00", the free interval 08:00
    to 10:00 is returned, and the minute 09:00 lies both in it and in the
    busy slot 9:00 to 9:30. *)
Lemma unpadded_not_partition :
  window unpadded "2024-10-10" = Some (480, 1080) ∧
  busy_minutes unpadded "2024-10-10" = Some [(600, 660); (540, 570)] ∧
  Forall (λ p, 480 ≤ p.1 ∧ p.1 < p.2 ∧ p.2 ≤ 1080) [(600, 660); (540, 570)] ∧
  free_minutes unpadded "2024-10-10" = Some [(480, 600); (660, 1080)] ∧
  cover_count 540 ([(480, 600); (660, 1080)] ++ [(600, 660); (540, 570)]) = 2%nat ∧
  ¬ partitions 480 1080 ([(480, 600); (660, 1080)] ++ [(600, 660); (540, 570)]).
Proof.
  repeat split; try (vm_compute; reflexivity).
  - repeat constructor; simpl; lia.
  - intros H. specialize (H 540). vm_compute in H. discriminate H.
Qed.

(** C2, amended: for every date of the index whose busy slots have
    zero-padded ["HH:MM"] time strings, if every interval that
    [get_busy_slots] returns lies within the working window (window start <=
    start <= end <= window end), then the intervals of [get_free_slots]
    together with those of [get_busy_slots], read in minutes, partition the
    window: every minute of the window lies in exactly one of them and no
    other minute lies in any. *)
Theorem free_busy_partition self date ws we busy :
  wf_busy self date = true →
  window self date = Some (ws, we) →
  busy_minutes self date = Some busy →
  Forall (λ p, ws ≤ p.1 ∧ p.1 ≤ p.2 ∧ p.2 ≤ we) busy →
  ∃ free, free_minutes self date = Some free ∧ partitions ws we (free ++ busy).
Proof.
  intros Hwf Hw Hb Hin.
  destruct (wf_busy_minutes _ _ Hwf) as (busy' & Hb' & Hs).
  rewrite Hb in Hb'. injection Hb' as <-.
  exists (free_of ws we busy). split; [|by apply free_of_partitions].
  unfold free_minutes. rewrite (get_free_slots_spec _ _ _ _ Hw), Hb.
  cbn [mbind option_bind]. apply parse_slots_of_minutes.
Qed.

Lemma free_busy_partition_witness :
  ∃ free, free_minutes scheduler "2024-10-10" = Some free
          ∧ partitions 540 1080 (free ++ [(660, 720)]).
Proof.
  apply (free_busy_partition scheduler "2024-10-10" 540 1080 [(660, 720)]).
  - vm_compute. reflexivity.
  - vm_compute. reflexivity.
  - vm_compute. reflexivity.
  - repeat constructor; simpl; lia.
Defined.

(** ** Availability of the returned slots *)

Lemma sep_ascending (l : list (Z * Z)) :
  Sorted sep l → StronglySorted (λ p q : Z * Z, p.1 ≤ q.1) l.
Proof.
  intros Hs%Sorted_sep_int.
  induction Hs as [|p l Hl IH Hp]; constructor; [done|].
  eapply Forall_impl; [exact Hp|]. simpl. tauto.
Qed.

(** C3, as stated, fails on both sides: the free interval 09:00 to 19:00
    that [late_busy] returns is not available (it ends after the working
    day); with unpadded hours the free interval 08:00 to 10:00 that
    [unpadded] returns is not available (it runs over the busy slot 9:00 to
    9:30, which the string order put after 10:00); and the busy slot 11:00 to
    11:00 of [instant_busy] is available (it overlaps nothing, itself
    included). *)
Lemma returned_slots_availability_fails :
  (get_free_slots late_busy "2024-10-10" = Some [("09:00", "19:00")] ∧
   is_available late_busy "2024-10-10" "09:00" "19:00" = Some false) ∧
  (get_free_slots unpadded "2024-10-10" = Some [("08:00", "10:00"); ("11:00", "18:00")] ∧
   is_available unpadded "2024-10-10" "08:00" "10:00" = Some false) ∧
  (get_busy_slots instant_busy "2024-10-10" = [("11:00", "11:00")] ∧
   is_available instant_busy "2024-10-10" "11:00" "11:00" = Some true).
Proof. repeat split; vm_compute; reflexivity. Qed.

(** C3, amended: for every date of the index whose window and merged busy
    slots read as minutes: (a) if the time strings of the busy slots of the
    date are zero-padded ["HH:MM"] strings and no busy slot starts after the
    end of the working day, every interval (s, e) that [get_free_slots]
    returns has [is_available date s e] true; (b) every interval (s, e) that
    [get_busy_slots] returns whose start is before its end has
    [is_available date s e] false. *)
Theorem returned_slots_availability self date ws we busy :
  window self date = Some (ws, we) →
  busy_minutes self date = Some busy →
  (wf_busy self date = true → Forall (λ p, p.1 ≤ we) busy →
   ∀ free_slots s e,
     get_free_slots self date = Some free_slots → (s, e) ∈ free_slots →
     is_available self date s e = Some true) ∧
  (∀ s e a b,
     (s, e) ∈ get_busy_slots self date → _parse_time_range s e = Some (a, b) → a < b →
     is_available self date s e = Some false).
Proof.
  intros Hw Hb. split.
  - intros Hwf Hlate free_slots s e Hf Hin.
    rewrite (get_free_slots_spec _ _ _ _ Hw), Hb in Hf. injection Hf as <-.
    apply list_elem_of_fmap in Hin as ([a b] & Hse & Hg).
    injection Hse as -> ->.
    rewrite (is_available_spec _ _ _ _ ws we a b busy Hw (parse_time_range_minutes a b) Hb).
    destruct (wf_busy_minutes _ _ Hwf) as (busy' & Hb' & Hs).
    rewrite Hb in Hb'. injection Hb' as <-.
    pose proof (proj1 (Forall_forall _ _) (free_of_bounds ws we busy) _ Hg)
      as (H1 & _ & H3).
    pose proof (proj1 (Forall_forall _ _) (free_of_clear ws we busy (sep_ascending _ Hs)) _ Hg)
      as Hc.
    specialize (H3 Hlate). simpl in *. rewrite Hc.
    destruct (Z.leb_spec ws a), (Z.leb_spec b we); (done || lia).
  - intros s e a b Hin Hse Hab.
    rewrite (is_available_spec _ _ _ _ ws we a b busy Hw Hse Hb).
    destruct (parse_slots_elem _ _ _ _ Hb Hin) as (a' & b' & Hse' & Hin').
    rewrite Hse in Hse'. injection Hse' as <- <-.
    assert (forallb (clear_of a b) busy = false) as ->.
    { destruct (forallb (clear_of a b) busy) eqn:E; [|done].
      rewrite forallb_forall in E. apply list_elem_of_In in Hin'.
      specialize (E _ Hin'). unfold clear_of in E. simpl in E.
      destruct (Z.leb_spec b a); [lia|done]. }
    by rewrite andb_false_r.
Qed.

Lemma returned_slots_availability_witness :
  is_available scheduler "2024-10-10" "12:00" "18:00" = Some true ∧
  is_available scheduler "2024-10-10" "11:00" "12:00" = Some false.
Proof.
  destruct (returned_slots_availability scheduler "2024-10-10" 540 1080 [(660, 720)])
    as [Hfree Hbusy].
  - vm_compute. reflexivity.
  - vm_compute. reflexivity.
  - split.
    + apply (Hfree ltac:(vm_compute; reflexivity) ltac:(repeat constructor; simpl; lia)
               [("09:00", "11:00"); ("12:00", "18:00")]).
      * vm_compute. reflexivity.
      * apply elem_of_cons. right. apply elem_of_cons. by left.
    + apply (Hbusy "11:00" "12:00" 660 720).
      * change (get_busy_slots scheduler "2024-10-10") with [("11:00", "12:00")].
        apply elem_of_cons. by left.
      * vm_compute. reflexivity.
      * lia.
Defined.

(** ** [is_available], case by case *)

Lemma clear_of_iff a b p : clear_of a b p = true ↔ b ≤ p.1 ∨ p.2 ≤ a.
Proof. unfold clear_of. by rewrite orb_true_iff, !Z.leb_le. Qed.

(** C5: [is_available] returns false for a date that is not in the index;
    for a date of the index it returns false when the request starts before
    the working day or ends after it; otherwise it returns whether the
    request is clear of every merged busy interval, where a request is clear
    of a busy interval exactly when it ends at or before the interval's start
    or starts at or after its end, so that a request touching a busy interval
    at either end is clear of it. *)
Theorem is_available_cases self date s e :
  (days self !! date = None → is_available self date s e = Some false) ∧
  (∀ ws we a b,
     window self date = Some (ws, we) → _parse_time_range s e = Some (a, b) →
     (a < ws ∨ we < b → is_available self date s e = Some false) ∧
     (∀ busy, busy_minutes self date = Some busy →
        is_available self date s e
        = Some ((ws <=? a) && (b <=? we) && forallb (clear_of a b) busy))) ∧
  (∀ a b p, clear_of a b p = true ↔ b ≤ p.1 ∨ p.2 ≤ a) ∧
  (∀ a b p, b = p.1 ∨ a = p.2 → clear_of a b p = true).
Proof.
  split; [|split; [|split]].
  - unfold is_available. by intros ->.
  - intros ws we a b Hw Hse. split.
    + by apply is_available_outside.
    + intros busy Hb. by apply is_available_spec.
  - apply clear_of_iff.
  - intros a b p Hp. apply clear_of_iff. lia.
Qed.

Lemma is_available_cases_witness :
  is_available scheduler "2024-10-10" "10:00" "11:00"
  = Some ((540 <=? 600) && (660 <=? 1080) && forallb (clear_of 600 660) [(660, 720)]).
Proof.
  apply (is_available_cases scheduler "2024-10-10" "10:00" "11:00").
  - vm_compute. reflexivity.
  - vm_compute. reflexivity.
  - vm_compute. reflexivity.
Defined.

Example is_available_touching :
  is_available scheduler "2024-10-10" "10:00" "11:00" = Some true ∧
  is_available scheduler "2024-10-10" "12:00" "13:00" = Some true ∧
  is_available scheduler "2024-10-10" "10:00" "11:01" = Some false ∧
  is_available scheduler "2024-10-10" "11:59" "13:00" = Some false ∧
  is_available scheduler "2024-10-10" "09:00" "18:01" = Some false ∧
  is_available scheduler "2024-10-10" "08:59" "10:00" = Some false.
Proof. repeat split; vm_compute; reflexivity. Qed.

(** ** Dates that are not in the index *)

(** C9: for a date that is not in the index, [get_busy_slots] returns the
    empty list, [get_free_slots] returns the empty list and [is_available]
    returns false, none of them raising. *)
Theorem unknown_date_queries d date :
  days (__init__ d) !! date = None →
  get_busy_slots (__init__ d) date = [] ∧
  get_free_slots (__init__ d) date = Some [] ∧
  ∀ start end_, is_available (__init__ d) date start end_ = Some false.
Proof.
  intros Hd. pose proof (proj2 (index_same_dates d date) Hd) as Ht.
  unfold get_busy_slots, get_free_slots, is_available. by rewrite Hd, Ht.
Qed.

Lemma unknown_date_queries_witness :
  get_busy_slots (__init__ test_data) "2099-01-01" = [] ∧
  get_free_slots (__init__ test_data) "2099-01-01" = Some [] ∧
  ∀ start end_, is_available (__init__ test_data) "2099-01-01" start end_ = Some false.
Proof.
  apply (unknown_date_queries test_data "2099-01-01"). vm_compute. reflexivity.
Defined.

(** ** The string merge against the reference procedure *)

Section ReferenceProcedure.

Lemma digit_char_val c : Py.is_digit c = true → digit_char (digit_val c) = c.
Proof.
  intros H. apply is_digit_cases in H. unfold digits in H.
  repeat (apply elem_of_cons in H as [-> | H]); try reflexivity.
  by apply elem_of_nil in H.
Qed.

Lemma reference_two_digits a b :
  Py.is_digit a = true → Py.is_digit b = true →
  Reference.two_digits (10 * digit_val a + digit_val b) = String a (String b EmptyString).
Proof.
  intros Ha Hb. unfold Reference.two_digits.
  pose proof (digit_val_range _ Ha). pose proof (digit_val_range _ Hb).
  assert ((10 * digit_val a + digit_val b) / 10 = digit_val a) as ->
    by (symmetry; apply (Z.div_unique_pos _ 10 _ (digit_val b)); lia).
  assert ((10 * digit_val a + digit_val b) mod 10 = digit_val b) as ->
    by (symmetry; apply (Z.mod_unique_pos _ 10 (digit_val a)); lia).
  by rewrite !digit_char_val.
Qed.

(** On a well-formed string the conversions of the reference are those of
    [hhmm_minutes]. *)
Lemma reference_toMinutes_hhmm s :
  hhmm s = true → Reference.toMinutes s = Some (hhmm_minutes s).
Proof.
  intros (h1 & h2 & m1 & m2 & -> & H1 & H2 & H3 & H4 & _)%hhmm_split.
  unfold Reference.toMinutes. cbn [Reference.components hhmm_minutes].
  destruct (digit_not_special _ H1) as (_ & -> & _).
  destruct (digit_not_special _ H2) as (_ & -> & _).
  change (Ascii.eqb ":" ":") with true.
  cbn [mbind option_bind Reference.numeric default from_option id].
  rewrite H1, H2, H3, H4. reflexivity.
Qed.

Lemma reference_toTimeString_hhmm s :
  hhmm s = true → Reference.toTimeString (hhmm_minutes s) = s.
Proof.
  intros (h1 & h2 & m1 & m2 & -> & H1 & H2 & H3 & H4 & Hh & Hm)%hhmm_split.
  pose proof (digit_val_range _ H1). pose proof (digit_val_range _ H2).
  pose proof (digit_val_range _ H3). pose proof (digit_val_range _ H4).
  unfold Reference.toTimeString. cbn [hhmm_minutes].
  set (hh := 10 * digit_val h1 + digit_val h2).
  set (mm := 10 * digit_val m1 + digit_val m2).
  assert ((hh * 60 + mm) / 60 = hh) as ->
    by (symmetry; apply (Z.div_unique_pos _ 60 hh mm); lia).
  assert ((hh * 60 + mm) mod 60 = mm) as ->
    by (symmetry; apply (Z.mod_unique_pos _ 60 hh mm); lia).
  unfold hh, mm. by rewrite !reference_two_digits.
Qed.

(** The two stable sorts agree: putting an interval after those that start
    no later, from the left, is putting it before those that do not start
    earlier, from the right. *)
Lemma insertByStart_sorted_insert (x y : Z * Z) l :
  Reference.insertByStart x (Py.sorted_insert fst y l)
  = Py.sorted_insert fst y (Reference.insertByStart x l).
Proof.
  induction l as [|z l IH]; cbn [Reference.insertByStart Py.sorted_insert Py.lt Py.Ord_int].
  - destruct (Z.leb_spec y.1 x.1), (Z.ltb_spec x.1 y.1); done || lia.
  - destruct (Z.ltb_spec z.1 y.1), (Z.leb_spec z.1 x.1);
      cbn [Reference.insertByStart Py.sorted_insert Py.lt Py.Ord_int].
    + destruct (Z.leb_spec z.1 x.1), (Z.ltb_spec z.1 y.1); try lia. by rewrite IH.
    + destruct (Z.leb_spec z.1 x.1), (Z.ltb_spec x.1 y.1), (Z.ltb_spec z.1 y.1); done || lia.
    + destruct (Z.leb_spec y.1 x.1), (Z.leb_spec z.1 x.1), (Z.ltb_spec z.1 y.1); done || lia.
    + destruct (Z.leb_spec y.1 x.1), (Z.ltb_spec x.1 y.1), (Z.ltb_spec z.1 y.1),
        (Z.leb_spec z.1 x.1); done || lia.
Qed.

Lemma foldl_insertByStart (l placed : list (Z * Z)) (y : Z * Z) :
  foldl (λ placed x, Reference.insertByStart x placed) (Py.sorted_insert fst y placed) l
  = Py.sorted_insert fst y (foldl (λ placed x, Reference.insertByStart x placed) placed l).
Proof.
  revert placed. induction l as [|x l IH]; intros placed; cbn [foldl]; [done|].
  by rewrite insertByStart_sorted_insert, IH.
Qed.

Lemma sortByStart_sorted (l : list (Z * Z)) : Reference.sortByStart l = Py.sorted fst l.
Proof.
  unfold Reference.sortByStart, Py.sorted.
  induction l as [|y l IH]; [done|]. cbn [foldl foldr].
  change (Reference.insertByStart y []) with (Py.sorted_insert fst y []).
  by rewrite foldl_insertByStart, IH.
Qed.

(** The fold with a current merged interval puts out what the loop of the
    class puts out. *)
Lemma foldl_extend closed current (rest : list (Z * Z)) :
  (foldl Reference.extend (closed, current) rest).1
    ++ [(foldl Reference.extend (closed, current) rest).2]
  = closed ++ merge_loop current rest.
Proof.
  revert closed current. induction rest as [|next rest IH]; intros closed current; [done|].
  cbn [foldl merge_loop Reference.extend Py.le Py.Ord_int].
  destruct (next.1 <=? current.2).
  - rewrite IH. by rewrite py_max_int.
  - rewrite IH. by rewrite <- app_assoc.
Qed.

(** The merge of the reference and the merge of the class, on minutes,
    return the same list. *)
Lemma reference_mergeOverlapping (l : list (Z * Z)) :
  Reference.mergeOverlapping l = _merge_overlapping_slots l.
Proof.
  unfold Reference.mergeOverlapping.
  rewrite merge_overlapping_slots_loop, sortByStart_sorted.
  destruct (Py.sorted fst l) as [|first rest]; [done|].
  pose proof (foldl_extend [] first rest) as E.
  by destruct (foldl Reference.extend ([], first) rest).
Qed.

Lemma reference_busySlots_hhmm (raw : list (string * string)) :
  Forall (both (λ s, hhmm s = true)) raw →
  Reference.busySlots raw = Some (_merge_overlapping_slots raw).
Proof.
  intros Hall. unfold Reference.busySlots.
  assert (mapM (λ p : string * string,
                  start ← Reference.toMinutes p.1;
                  end_ ← Reference.toMinutes p.2; Some (start, end_)) raw
          = Some (prod_map hhmm_minutes hhmm_minutes <$> raw)) as ->.
  { induction Hall as [|[s e] l [Hs He] Hl IH]; [done|].
    cbn [mapM fst snd] in *.
    rewrite (reference_toMinutes_hhmm s Hs), (reference_toMinutes_hhmm e He).
    cbn [mbind option_bind]. rewrite IH. done. }
  cbn [mbind option_bind]. f_equal.
  rewrite reference_mergeOverlapping.
  rewrite (merge_overlapping_slots_map hhmm_minutes (λ s, hhmm s = true)); [| | |done].
  - pose proof (merge_overlapping_slots_both (λ s, hhmm s = true) raw Hall) as Hm.
    induction Hm as [|[s e] l [Hs He] Hl IH]; [done|].
    rewrite !fmap_cons, IH. cbn [prod_map fst snd] in *.
    by rewrite !reference_toTimeString_hhmm.
  - intros a b Ha Hb. symmetry. by apply hhmm_lt.
  - intros a b Ha Hb. symmetry. by apply hhmm_le.
Qed.

End ReferenceProcedure.

(** The conversions and the merge of the reference, and the reference
    against the class on busy slots in no order, and on hours without the
    leading zero, where the two part. *)
Example reference_examples :
  Reference.toMinutes "09:30" = Some 570 ∧ Reference.toMinutes "0930" = None ∧
  Reference.toMinutes "09:30:00" = None ∧ Reference.toMinutes "9h:30" = None ∧
  Reference.toMinutes ":30" = None ∧ Reference.toMinutes "09:" = None ∧
  Reference.toTimeString 570 = "09:30" ∧ Reference.toTimeString 1439 = "23:59" ∧
  Reference.sortByStart [(3, 1); (1, 1); (3, 2); (2, 1); (1, 2)]
  = [(1, 1); (1, 2); (2, 1); (3, 1); (3, 2)] ∧
  Reference.mergeOverlapping [(780, 840); (570, 630); (600, 660); (660, 690); (570, 585); (900, 930)]
  = [(570, 690); (780, 840); (900, 930)].
Proof. repeat split; reflexivity. Qed.

Example crowded_reference :
  reference_busy_slots crowded "2024-10-10"
  = Some [("09:30", "11:30"); ("13:00", "14:00"); ("15:00", "15:30")] ∧
  get_busy_slots crowded "2024-10-10"
  = [("09:30", "11:30"); ("13:00", "14:00"); ("15:00", "15:30")].
Proof. split; vm_compute; reflexivity. Qed.

Example unpadded_reference :
  reference_busy_slots unpadded "2024-10-10" = Some [("09:00", "09:30"); ("10:00", "11:00")] ∧
  get_busy_slots unpadded "2024-10-10" = [("10:00", "11:00"); ("9:00", "9:30")].
Proof. split; vm_compute; reflexivity. Qed.

(** C10: [get_busy_slots] merges the raw pairs of time strings as strings,
    under the lexicographic order; for every payload whose timeslot strings
    are zero-padded ["HH:MM"] strings the result is the result of the
    reference procedure, which converts the endpoints to minutes, merges the
    minute intervals and converts back. *)
Theorem busy_slots_refine_reference d date :
  wf_timeslots d = true →
  get_busy_slots (__init__ d) date
  = match timeslots (__init__ d) !! date with
    | Some busy_slots => @_merge_overlapping_slots string Py.Ord_str busy_slots
    | None => []
    end ∧
  reference_busy_slots (__init__ d) date = Some (get_busy_slots (__init__ d) date).
Proof.
  intros Hwf. split; [done|].
  unfold reference_busy_slots, get_busy_slots.
  destruct (timeslots (__init__ d) !! date) as [raw|] eqn:Hraw; [|done].
  apply reference_busySlots_hhmm.
  apply (organize_timeslots_Forall _ d date raw); [|exact Hraw].
  unfold wf_timeslots in Hwf. rewrite forallb_forall in Hwf.
  apply Forall_forall. intros t Ht%list_elem_of_In.
  specialize (Hwf t Ht). apply andb_true_iff in Hwf. exact Hwf.
Qed.

Lemma busy_slots_refine_reference_witness :
  get_busy_slots crowded "2024-10-10"
  = match timeslots crowded !! "2024-10-10" with
    | Some busy_slots => @_merge_overlapping_slots string Py.Ord_str busy_slots
    | None => []
    end ∧
  reference_busy_slots crowded "2024-10-10" = Some (get_busy_slots crowded "2024-10-10").
Proof.
  apply (busy_slots_refine_reference
           (one_day "09:00" "18:00"
              [("13:00", "14:00"); ("09:30", "10:30"); ("10:00", "11:00");
               ("11:00", "11:30"); ("09:30", "09:45"); ("15:00", "15:30")])
           "2024-10-10").
  vm_compute. reflexivity.
Defined.

(** ** [find_slot_for_duration] *)

Section Find.

Lemma parse_time_range_inv s e a b :
  _parse_time_range s e = Some (a, b) →
  _time_to_minutes s = Some a ∧ _time_to_minutes e = Some b.
Proof.
  unfold _parse_time_range.
  destruct (_time_to_minutes s) as [x|]; [|done].
  destruct (_time_to_minutes e) as [y|]; [|done].
  cbn. by intros [= -> ->].
Qed.

Lemma find_in_slots_cons date d s e rest a b :
  _time_to_minutes s = Some a → _time_to_minutes e = Some b →
  find_in_slots date d ((s, e) :: rest) =
  if d <=? b - a then Some (Some (date, s, _minutes_to_time (a + d)))
  else find_in_slots date d rest.
Proof. intros Ha Hb. cbn [find_in_slots]. by rewrite Ha, Hb. Qed.

(** The slot found is the first that is long enough. *)
Lemma find_in_slots_Some date d fs r :
  find_in_slots date d fs = Some (Some r) →
  ∃ pre s e post sm,
    fs = pre ++ (s, e) :: post ∧ Forall (too_short d) pre ∧ fits d (s, e) ∧
    _time_to_minutes s = Some sm ∧ r = (date, s, _minutes_to_time (sm + d)).
Proof.
  induction fs as [|[s e] rest IH]; [done|]. cbn [find_in_slots].
  destruct (_time_to_minutes s) as [a|] eqn:Ha; [|done].
  destruct (_time_to_minutes e) as [b|] eqn:Hb; [|done].
  cbn [mbind option_bind]. destruct (Z.leb_spec d (b - a)) as [Hd|Hd].
  - intros [= <-]. exists [], s, e, rest, a. repeat split; try done.
    exists (b - a). unfold span. simpl. by rewrite Ha, Hb.
  - intros Hr. destruct (IH Hr) as (pre & s' & e' & post & sm & -> & Hpre & Hfit & Hs & ->).
    exists ((s, e) :: pre), s', e', post, sm. repeat split; try done.
    constructor; [|done]. exists (b - a). unfold span. simpl. by rewrite Ha, Hb.
Qed.

Lemma find_in_slots_None date d fs :
  find_in_slots date d fs = Some None → Forall (too_short d) fs.
Proof.
  induction fs as [|[s e] rest IH]; [constructor|]. cbn [find_in_slots].
  destruct (_time_to_minutes s) as [a|] eqn:Ha; [|done].
  destruct (_time_to_minutes e) as [b|] eqn:Hb; [|done].
  cbn [mbind option_bind]. destruct (Z.leb_spec d (b - a)) as [Hd|Hd]; [done|].
  intros Hr. constructor; [|by apply IH].
  exists (b - a). unfold span. simpl. by rewrite Ha, Hb.
Qed.

(** The inner loop returns on slots that read as minutes. *)
Lemma find_in_slots_returns date d fs F :
  parse_slots fs = Some F → is_Some (find_in_slots date d fs).
Proof.
  revert F. induction fs as [|[s e] rest IH]; intros F HF; [by eexists|].
  rewrite parse_slots_cons in HF. cbn [fst snd] in HF.
  destruct (_parse_time_range s e) as [[a b]|] eqn:Hse; [|done].
  destruct (parse_slots rest) as [R|]; [|done].
  apply parse_time_range_inv in Hse as [Ha Hb].
  rewrite (find_in_slots_cons _ _ _ _ _ _ _ Ha Hb).
  destruct (d <=? b - a); [by eexists | by apply (IH R)].
Qed.

Lemma fits_not_too_short d1 d2 p : d1 ≤ d2 → fits d2 p → too_short d1 p → False.
Proof. intros Hd (n & Hn & H2) (n' & Hn' & H1). rewrite Hn in Hn'. injection Hn' as <-. lia. Qed.

(** Within one date, a shorter duration is found no later. *)
Lemma find_in_slots_mono date d1 d2 fs F r1 r2 :
  parse_slots fs = Some F → StronglySorted (λ p q : Z * Z, p.1 ≤ q.1) F → d1 ≤ d2 →
  find_in_slots date d1 fs = Some (Some r1) →
  find_in_slots date d2 fs = Some (Some r2) →
  r1.1.1 = date ∧ r2.1.1 = date ∧
  ∃ a1 a2, _time_to_minutes r1.1.2 = Some a1 ∧ _time_to_minutes r2.1.2 = Some a2 ∧ a1 ≤ a2.
Proof.
  intros HF Hs Hd. revert F HF Hs.
  induction fs as [|[s e] rest IH]; intros F HF Hs; [done|].
  rewrite parse_slots_cons in HF. cbn [fst snd] in HF.
  destruct (_parse_time_range s e) as [[a b]|] eqn:Hse; [|done].
  destruct (parse_slots rest) as [R|] eqn:HR; [|done].
  cbn in HF. injection HF as <-.
  apply parse_time_range_inv in Hse as [Ha Hb].
  rewrite !(find_in_slots_cons _ _ _ _ _ _ _ Ha Hb).
  apply StronglySorted_inv in Hs as [HsR Hhd].
  destruct (Z.leb_spec d1 (b - a)) as [H1|H1].
  - intros [= <-]. destruct (Z.leb_spec d2 (b - a)) as [H2|H2].
    + intros [= <-]. simpl. repeat split. exists a, a. repeat split; (done || lia).
    + intros Hr2.
      destruct (find_in_slots_Some _ _ _ _ Hr2)
        as (pre & s2 & e2 & post & sm & -> & _ & (n & Hn & _) & Hs2 & ->).
      simpl. repeat split. exists a, sm. repeat split; try done.
      assert ((s2, e2) ∈ pre ++ (s2, e2) :: post) as Hin by set_solver.
      destruct (parse_slots_elem _ _ _ _ HR Hin) as (a2 & b2 & Hse2 & Hin2).
      apply parse_time_range_inv in Hse2 as [Ha2 _].
      rewrite Hs2 in Ha2. injection Ha2 as ->.
      by apply (proj1 (Forall_forall _ _) Hhd (a2, b2)).
  - destruct (Z.leb_spec d2 (b - a)) as [H2|H2]; [lia|].
    by apply (IH R).
Qed.

Lemma find_in_dates_Some self d dates r :
  find_in_dates self d dates = Some (Some r) →
  ∃ dpre date dpost pre s e post sm,
    dates = dpre ++ date :: dpost ∧ Forall (no_fit self d) dpre ∧
    get_free_slots self date = Some (pre ++ (s, e) :: post) ∧
    Forall (too_short d) pre ∧ fits d (s, e) ∧
    _time_to_minutes s = Some sm ∧ r = (date, s, _minutes_to_time (sm + d)).
Proof.
  induction dates as [|date rest IH]; [done|]. cbn [find_in_dates].
  destruct (get_free_slots self date) as [fs|] eqn:Hfs; [|done].
  cbn [mbind option_bind].
  destruct (find_in_slots date d fs) as [[r'|]|] eqn:Hfind; [| |done]; cbn [mbind option_bind].
  - intros [= <-].
    destruct (find_in_slots_Some _ _ _ _ Hfind) as (pre & s & e & post & sm & -> & H1 & H2 & H3 & ->).
    by exists [], date, rest, pre, s, e, post, sm.
  - intros Hr.
    destruct (IH Hr) as (dpre & date' & dpost & pre & s & e & post & sm & -> & H0 & H1 & H2 & H3 & H4 & ->).
    exists (date :: dpre), date', dpost, pre, s, e, post, sm. repeat split; try done.
    constructor; [|done]. exists fs. split; [done|]. by apply find_in_slots_None in Hfind.
Qed.

Lemma find_in_dates_None self d dates :
  find_in_dates self d dates = Some None → Forall (no_fit self d) dates.
Proof.
  induction dates as [|date rest IH]; [constructor|]. cbn [find_in_dates].
  destruct (get_free_slots self date) as [fs|] eqn:Hfs; [|done].
  cbn [mbind option_bind].
  destruct (find_in_slots date d fs) as [[r'|]|] eqn:Hfind; [done| |done]; cbn [mbind option_bind].
  intros Hr. constructor; [|by apply IH].
  exists fs. split; [done|]. by apply find_in_slots_None in Hfind.
Qed.

(** What [get_free_slots] returns reads as minute intervals with ascending
    starts. *)
Lemma get_free_slots_ascending self date free_slots :
  get_free_slots self date = Some free_slots →
  ∃ free, parse_slots free_slots = Some free ∧
          StronglySorted (λ p q : Z * Z, p.1 ≤ q.1) free.
Proof.
  intros Hf. destruct (days self !! date) as [wd|] eqn:Hd.
  - destruct (get_free_slots_inv _ _ _ _ Hd Hf) as (ws & we & busy & _ & _ & -> & _).
    exists (free_of ws we busy). split; [apply parse_slots_of_minutes|].
    apply free_of_ascending.
  - unfold get_free_slots in Hf. rewrite Hd in Hf. injection Hf as <-.
    exists []. split; [done|constructor].
Qed.

Lemma find_in_dates_returns self d dates :
  Forall (λ date, is_Some (get_free_slots self date)) dates →
  is_Some (find_in_dates self d dates).
Proof.
  induction 1 as [|date rest [fs Hfs] Hrest IH]; [by eexists|].
  cbn [find_in_dates]. rewrite Hfs. cbn [mbind option_bind].
  destruct (get_free_slots_ascending _ _ _ Hfs) as (F & HF & _).
  destruct (find_in_slots_returns date d fs F HF) as [[r|] ->]; cbn [mbind option_bind];
    [by eexists | done].
Qed.

(** Across the sorted dates, a shorter duration is found no later. *)
Lemma find_in_dates_mono self d1 d2 dates r1 r2 :
  StronglySorted (λ x y : string, Py.lt x y = true) dates → d1 ≤ d2 →
  find_in_dates self d1 dates = Some (Some r1) →
  find_in_dates self d2 dates = Some (Some r2) →
  Py.lt r1.1.1 r2.1.1 = true ∨
  (r1.1.1 = r2.1.1 ∧
   ∃ a1 a2, _time_to_minutes r1.1.2 = Some a1 ∧ _time_to_minutes r2.1.2 = Some a2 ∧ a1 ≤ a2).
Proof.
  intros Hs Hd. induction Hs as [|date rest Hrest IH Hhd]; [done|].
  cbn [find_in_dates].
  destruct (get_free_slots self date) as [fs|] eqn:Hfs; [|done].
  cbn [mbind option_bind].
  destruct (get_free_slots_ascending _ _ _ Hfs) as (F & HF & HsF).
  destruct (find_in_slots date d1 fs) as [[f1|]|] eqn:H1; [| |done];
    (destruct (find_in_slots date d2 fs) as [[f2|]|] eqn:H2; [| |done]);
    cbn [mbind option_bind].
  - intros [= <-] [= <-].
    destruct (find_in_slots_mono _ _ _ _ _ _ _ HF HsF Hd H1 H2) as (E1 & E2 & Hle).
    right. split; [congruence|done].
  - intros [= <-] Hr2.
    destruct (find_in_slots_Some _ _ _ _ H1) as (? & ? & ? & ? & ? & _ & _ & _ & _ & ->).
    destruct (find_in_dates_Some _ _ _ _ Hr2)
      as (dpre & date2 & dpost & ? & ? & ? & ? & ? & -> & _ & _ & _ & _ & _ & ->).
    left. simpl. apply (proj1 (Forall_forall _ _) Hhd date2). set_solver.
  - intros _ _. exfalso.
    destruct (find_in_slots_Some _ _ _ _ H2) as (pre & s & e & post & ? & -> & _ & Hfit & _).
    apply find_in_slots_None in H1.
    apply (fits_not_too_short d1 d2 (s, e) Hd Hfit).
    apply (proj1 (Forall_forall _ _) H1). set_solver.
  - by apply IH.
Qed.

(** The dates are searched in strictly ascending order, and they are the
    dates of the index. *)
Lemma sorted_dates self :
  StronglySorted (λ x y : string, Py.lt x y = true) (Py.sorted id (days_keys self)) ∧
  ∀ date, date ∈ Py.sorted id (days_keys self) ↔ is_Some (days self !! date).
Proof.
  split.
  - pose proof (sorted_Sorted id (days_keys self)) as Hs.
    apply Sorted_StronglySorted in Hs; [|apply key_le_trans].
    assert (NoDup (Py.sorted id (days_keys self))) as Hnd.
    { rewrite sorted_perm. apply NoDup_fst_map_to_list. }
    induction Hs as [|x l Hl IH Hx]; constructor.
    + apply IH. by apply NoDup_cons in Hnd as [_ ?].
    + apply NoDup_cons in Hnd as [Hnin _].
      apply Forall_forall. intros y Hy.
      pose proof (proj1 (Forall_forall _ _) Hx y Hy) as Hxy. unfold key_le in Hxy.
      destruct (Py.lt x y) eqn:E; [done|].
      pose proof (lt_connex x y E Hxy) as ->. done.
  - intros date. rewrite sorted_perm. unfold days_keys.
    rewrite list_elem_of_fmap. split.
    + intros ([k v] & -> & Hkv). apply elem_of_map_to_list in Hkv. by exists v.
    + intros [v Hv]. exists (date, v). split; [done|]. by apply elem_of_map_to_list.
Qed.

End Find.

(** C6: [find_slot_for_duration] goes through the dates of the index in
    strictly ascending lexicographic order and, within a date, through its
    free slots in the order of [get_free_slots], whose starts ascend; when
    it returns a triple, the triple is (date, start, start + duration) for
    the first free slot, in that order, whose span end - start is at least the
    duration: no free slot of an earlier date and no earlier free slot of
    that date is long enough; when it returns none, no free slot of any date
    is long enough.  It returns whenever [get_free_slots] returns for every
    date of the index. *)
Theorem find_slot_for_duration_first_fit self duration :
  let dates := Py.sorted id (days_keys self) in
  StronglySorted (λ x y, String.ltb x y = true) dates ∧
  (∀ date, date ∈ dates ↔ is_Some (days self !! date)) ∧
  (∀ date free_slots,
     get_free_slots self date = Some free_slots →
     ∃ free, parse_slots free_slots = Some free ∧
             StronglySorted (λ p q : Z * Z, p.1 ≤ q.1) free) ∧
  (∀ result,
     find_slot_for_duration self duration = Some result →
     match result with
     | Some (date, start, end_) =>
         ∃ earlier later before slot_end after start_min,
           dates = earlier ++ date :: later ∧
           Forall (no_fit self duration) earlier ∧
           get_free_slots self date = Some (before ++ (start, slot_end) :: after) ∧
           Forall (too_short duration) before ∧
           fits duration (start, slot_end) ∧
           _time_to_minutes start = Some start_min ∧
           end_ = _minutes_to_time (start_min + duration)
     | None => Forall (no_fit self duration) dates
     end) ∧
  (Forall (λ date, is_Some (get_free_slots self date)) dates →
   is_Some (find_slot_for_duration self duration)).
Proof.
  intros dates. destruct (sorted_dates self) as [Hs Hin].
  split; [exact Hs|]. split; [exact Hin|].
  split; [apply get_free_slots_ascending|]. split.
  - intros [[[date start] end_]|] Hr.
    + destruct (find_in_dates_Some _ _ _ _ Hr)
        as (dpre & date' & dpost & pre & s & e & post & sm & Hd & H0 & H1 & H2 & H3 & H4 & Heq).
      injection Heq as -> -> ->.
      by exists dpre, dpost, pre, e, post, sm.
    + by apply find_in_dates_None.
  - apply find_in_dates_returns.
Qed.

Lemma find_slot_for_duration_first_fit_witness :
  ∃ earlier later before slot_end after start_min,
    Py.sorted id (days_keys scheduler) = earlier ++ "2024-10-10" :: later ∧
    Forall (no_fit scheduler 130) earlier ∧
    get_free_slots scheduler "2024-10-10" = Some (before ++ ("12:00", slot_end) :: after) ∧
    Forall (too_short 130) before ∧
    fits 130 ("12:00", slot_end) ∧
    _time_to_minutes "12:00" = Some start_min ∧
    "14:10" = _minutes_to_time (start_min + 130).
Proof.
  destruct (find_slot_for_duration_first_fit scheduler 130) as (_ & _ & _ & Hfound & _).
  apply (Hfound (Some ("2024-10-10", "12:00", "14:10"))).
  vm_compute. reflexivity.
Defined.

(** C7: for durations d1 <= d2 for which the search finds a slot, the slot
    found for d1 is no later than the slot found for d2: its date is earlier
    in the lexicographic order, or the dates are equal and its start, in
    minutes, is no later. *)
Theorem find_slot_for_duration_monotone self d1 d2 date1 start1 end1 date2 start2 end2 :
  d1 ≤ d2 →
  find_slot_for_duration self d1 = Some (Some (date1, start1, end1)) →
  find_slot_for_duration self d2 = Some (Some (date2, start2, end2)) →
  String.ltb date1 date2 = true ∨
  (date1 = date2 ∧
   ∃ a1 a2, _time_to_minutes start1 = Some a1 ∧ _time_to_minutes start2 = Some a2 ∧ a1 ≤ a2).
Proof.
  intros Hd H1 H2.
  apply (find_in_dates_mono self d1 d2 _ _ _ (proj1 (sorted_dates self)) Hd H1 H2).
Qed.

Lemma find_slot_for_duration_monotone_witness :
  String.ltb "2024-10-10" "2024-10-10" = true ∨
  ("2024-10-10" = "2024-10-10" ∧
   ∃ a1 a2, _time_to_minutes "09:00" = Some a1 ∧ _time_to_minutes "12:00" = Some a2 ∧ a1 ≤ a2).
Proof.
  apply (find_slot_for_duration_monotone scheduler 60 130
           "2024-10-10" "09:00" "10:00" "2024-10-10" "12:00" "14:10").
  - lia.
  - vm_compute. reflexivity.
  - vm_compute. reflexivity.
Defined.

(** ** Further properties *)

(** Minutes printed by [_minutes_to_time] are read back unchanged by
    [_time_to_minutes], negative ones and ones past the end of the day
    included, as long as the hours, [minutes // 60], have no more than
    [Py.max_str_digits] digits: beyond that the interpreter raises when the
    hours are printed. *)
Theorem minutes_round_trip (minutes : Z) :
  Py.within_str_digits (minutes / 60) →
  _time_to_minutes (_minutes_to_time minutes) = Some minutes.
Proof. intros _. apply time_to_minutes_to_time. Qed.

Lemma minutes_round_trip_witness :
  _time_to_minutes (_minutes_to_time (-30)) = Some (-30).
Proof. apply (minutes_round_trip (-30)). by vm_compute. Defined.

(** The two maps of the index hold the same dates: a date has a busy-slot
    list exactly when it has a working day. *)
Theorem index_dates_agree (d : Payload) (date : string) :
  is_Some (timeslots (__init__ d) !! date) ↔ is_Some (days (__init__ d) !! date).
Proof.
  rewrite <- !not_eq_None_Some. by rewrite index_same_dates.
Qed.

(** On the fixture of the tests, the search for 60 minutes returns
    2024-10-10 from 09:00 to 10:00, the search for 90 minutes returns
    2024-10-10 from 09:00 to 10:30, and the search for 1000 minutes returns
    none. *)
Theorem fixture_search :
  find_slot_for_duration (__init__ test_data) 60
  = Some (Some ("2024-10-10", "09:00", "10:00")) ∧
  find_slot_for_duration (__init__ test_data) 90
  = Some (Some ("2024-10-10", "09:00", "10:30")) ∧
  find_slot_for_duration (__init__ test_data) 1000 = Some None.
Proof. repeat split; vm_compute; reflexivity. Qed.

(** The string-level merge is idempotent as well. *)
Theorem merge_strings_idempotent (x : list (string * string)) :
  _merge_overlapping_slots (_merge_overlapping_slots x) = _merge_overlapping_slots x.
Proof. apply merge_overlapping_slots_sep, merge_overlapping_slots_Sorted. Qed.

(** ** The calendar index, entry by entry *)

Section IndexEntries.

Example tangled_index :
  days (__init__ tangled_data) !! "2024-10-10"
  = Some {| day_id := 3; day_date := "2024-10-10"; day_start := "10:00"; day_end := "16:00" |} ∧
  timeslots (__init__ tangled_data) !! "2024-10-10"
  = Some [("11:00", "12:00"); ("10:30", "11:30")] ∧
  timeslots (__init__ tangled_data) !! "2024-10-11" = Some [("09:30", "16:00")] ∧
  timeslots (__init__ tangled_data) !! "2024-10-12" = Some [] ∧
  timeslots (__init__ tangled_data) !! "2024-10-13" = None.
Proof. repeat split; vm_compute; reflexivity. Qed.

Lemma days_by_date_acc (ds : list Day) (m : gmap string Day) date :
  foldl (λ m day, <[day_date day := day]> m) m ds !! date
  = match last (filter (λ day, day_date day = date) ds) with
    | Some day => Some day
    | None => m !! date
    end.
Proof.
  revert m. induction ds as [|x ds IH]; intros m; [done|].
  cbn [foldl]. rewrite IH, filter_cons.
  destruct (decide (day_date x = date)) as [Hx|Hx].
  - destruct (filter _ ds) as [|y l] eqn:E; simpl.
    + by rewrite <- Hx, lookup_insert_eq.
    + assert (is_Some (last (y :: l))) as [z Hz] by by apply last_is_Some.
      by rewrite Hz.
  - destruct (last _); [done|]. by rewrite lookup_insert_ne.
Qed.

(** The working day that the index holds for a date is the last day of the
    payload with that date; a date that no day of the payload has is not in
    the index. *)
Theorem days_last_wins (d : Payload) (date : string) :
  days (__init__ d) !! date = last (filter (λ day, day_date day = date) (data_days d)).
Proof.
  simpl. unfold days_by_date. rewrite days_by_date_acc, lookup_empty.
  by destruct (last _).
Qed.

Lemma organize_init_lookup (ds : list Day) (m : gmap string (list (string * string))) date :
  foldl (λ m day, <[day_date day := []]> m) m ds !! date
  = if decide (date ∈ day_date <$> ds) then Some [] else m !! date.
Proof.
  revert m. induction ds as [|x ds IH]; intros m; [done|].
  cbn [foldl]. rewrite IH, fmap_cons.
  destruct (decide (date ∈ day_date <$> ds)) as [Hin|Hnin].
  - rewrite decide_True; [done|]. apply elem_of_cons. by right.
  - destruct (decide (date = day_date x)) as [->|Hne].
    + rewrite decide_True; [|apply elem_of_cons; by left]. apply lookup_insert_eq.
    + rewrite decide_False; [by rewrite lookup_insert_ne|].
      intros [?|?]%elem_of_cons; done.
Qed.

Lemma truthy_Some date : truthy (Some date) = true ↔ date ≠ EmptyString.
Proof. by destruct date. Qed.

Lemma organize_step_lookup (d : Payload) (ts : list Timeslot)
    (m : gmap string (list (string * string))) date :
  date ≠ EmptyString →
  foldl (λ m timeslot,
           let date := date_of_day_id (data_days d) (ts_day_id timeslot) in
           if truthy date then
             alter (λ l, l ++ [(ts_start timeslot, ts_end timeslot)]) (default "" date) m
           else m) m ts !! date
  = (λ l, l ++ ((λ t, (ts_start t, ts_end t)) <$>
               filter (λ t, date_of_day_id (data_days d) (ts_day_id t) = Some date) ts))
    <$> m !! date.
Proof.
  intros Hne. revert m. induction ts as [|t ts IH]; intros m.
  - cbn. destruct (m !! date); cbn; [|done]. by rewrite app_nil_r.
  - cbn [foldl]. rewrite IH, filter_cons. clear IH.
    destruct (date_of_day_id (data_days d) (ts_day_id t)) as [date'|] eqn:E; cbn [truthy default from_option id].
    + destruct date' as [|c r] eqn:E'.
      * rewrite decide_False by congruence. done.
      * rewrite <- E'. destruct (decide (Some date' = Some date)) as [[= ->]|Hd].
        -- rewrite lookup_alter_eq. destruct (m !! date); cbn; [|done].
           by rewrite <- app_assoc.
        -- rewrite lookup_alter_ne by congruence. done.
    + rewrite decide_False by done. done.
Qed.

Lemma organize_step_lookup_empty (d : Payload) (ts : list Timeslot)
    (m : gmap string (list (string * string))) :
  foldl (λ m timeslot,
           let date := date_of_day_id (data_days d) (ts_day_id timeslot) in
           if truthy date then
             alter (λ l, l ++ [(ts_start timeslot, ts_end timeslot)]) (default "" date) m
           else m) m ts !! EmptyString
  = m !! EmptyString.
Proof.
  revert m. induction ts as [|t ts IH]; intros m; [done|].
  cbn [foldl]. rewrite IH.
  destruct (date_of_day_id (data_days d) (ts_day_id t)) as [[|c r]|]; cbn [truthy default from_option id]; try done.
  by rewrite lookup_alter_ne.
Qed.

Lemma organize_timeslots_lookup (d : Payload) (date : string) :
  _organize_timeslots d !! date
  = if decide (date ∈ day_date <$> data_days d)
    then Some (if decide (date = EmptyString) then [] else slots_of_date d date)
    else None.
Proof.
  unfold _organize_timeslots.
  destruct (decide (date = EmptyString)) as [->|Hne].
  - rewrite organize_step_lookup_empty, organize_init_lookup, lookup_empty. done.
  - rewrite (organize_step_lookup d _ _ date Hne), organize_init_lookup, lookup_empty.
    destruct (decide (date ∈ day_date <$> data_days d)); done.
Qed.

(** The busy slots that the index holds for a date are the timeslots of the
    payload that refer to a day with that date, in the order of the payload:
    a timeslot whose [day_id] no day has is dropped, one whose [day_id]
    several days share goes to the first of them, and a day whose date is
    the empty string is given no timeslot. *)
Theorem timeslots_by_reference (d : Payload) (date : string) :
  timeslots (__init__ d) !! date
  = if decide (date ∈ day_date <$> data_days d)
    then Some (if decide (date = EmptyString) then [] else slots_of_date d date)
    else None.
Proof. apply organize_timeslots_lookup. Qed.

End IndexEntries.

(** ** Which strings [_time_to_minutes] accepts *)

Section TimeStrings.

Lemma split_colon_nonempty s : Py.split_colon s ≠ [].
Proof.
  destruct s as [|c r]; simpl; [done|].
  destruct (Ascii.eqb c ":"); [done|]. by destruct (Py.split_colon r).
Qed.

Lemma split_colon_inv s p ps :
  Py.split_colon s = p :: ps →
  no_colon p = true ∧
  match ps with
  | [] => s = p
  | _ => ∃ r, s = p +:+ ":" +:+ r ∧ Py.split_colon r = ps
  end.
Proof.
  revert p ps. induction s as [|c r IH]; intros p ps; simpl.
  - by intros [= <- <-].
  - destruct (Ascii.eqb_spec c ":") as [->|Hc].
    + intros [= <- <-]. split; [done|].
      pose proof (split_colon_nonempty r).
      destruct (Py.split_colon r) eqn:E; [done|]. by exists r.
    + destruct (Py.split_colon r) as [|p' ps'] eqn:E; [by apply split_colon_nonempty in E|].
      intros [= <- <-]. destruct (IH p' ps' eq_refl) as [Hp Hps]. split.
      * simpl. rewrite Hp. by apply Ascii.eqb_neq in Hc as ->.
      * destruct ps'; [by rewrite Hps|].
        destruct Hps as (r' & -> & Hr'). by exists r'.
Qed.

Lemma str_no_colon n : no_colon (Py.str n) = true.
Proof.
  destruct (str_shape n) as [Hpos Hneg]. destruct (Z_lt_le_dec n 0) as [Hn|Hn].
  - destruct (Hneg Hn) as (d & _ & _ & ->). simpl.
    apply digits_no_colon, string_of_uint_digits.
  - destruct (Hpos Hn) as (d & _ & _ & ->).
    apply digits_no_colon, string_of_uint_digits.
Qed.

Lemma time_to_minutes_iff (s : string) (v : Z) :
  _time_to_minutes s = Some v ↔
  ∃ h m hours minutes,
    s = h +:+ ":" +:+ m ∧ no_colon h = true ∧ no_colon m = true ∧
    Py.int h = Some hours ∧ Py.int m = Some minutes ∧ v = hours * 60 + minutes.
Proof.
  unfold _time_to_minutes. split.
  - destruct (Py.split_colon s) as [|h [|m [|? ?]]] eqn:E; try done.
    destruct (split_colon_inv _ _ _ E) as [Hh (r & -> & Hr)].
    destruct (split_colon_inv _ _ _ Hr) as [Hm ->].
    destruct (Py.int h) as [hours|] eqn:Eh; [|done].
    destruct (Py.int m) as [minutes|] eqn:Em; [|done].
    cbn. intros [= <-]. by exists h, m, hours, minutes.
  - intros (h & m & hours & minutes & -> & Hh & Hm & Eh & Em & ->).
    by rewrite (split_colon_app _ _ Hh Hm), Eh, Em.
Qed.


(** [_time_to_minutes] returns exactly on the strings that have one colon
    with a part before it and a part after it that [int] accepts; the result
    is sixty times the first integer plus the second.  On every other string
    (no colon, two colons or more, a part that is no integer) it raises. *)
Theorem time_to_minutes_accepts (s : string) (v : Z) :
  _time_to_minutes s = Some v ↔
  ∃ h m hours minutes,
    s = h +:+ ":" +:+ m ∧ no_colon h = true ∧ no_colon m = true ∧
    Py.int h = Some hours ∧ Py.int m = Some minutes ∧ v = hours * 60 + minutes.
Proof. apply time_to_minutes_iff. Qed.

(** [_time_to_minutes] checks no range: for integers [hours] and [minutes]
    of no more than [Py.max_str_digits] digits each, written in decimal with
    a colon between them, it returns [hours * 60 + minutes], also when the
    minutes are sixty or more or one of the two is negative.  With more
    digits the interpreter raises in [int]. *)
Theorem time_to_minutes_unchecked (hours minutes : Z) :
  Py.within_str_digits hours → Py.within_str_digits minutes →
  _time_to_minutes (Py.str hours +:+ ":" +:+ Py.str minutes) = Some (hours * 60 + minutes).
Proof.
  intros _ _. apply time_to_minutes_iff.
  exists (Py.str hours), (Py.str minutes), hours, minutes.
  repeat split; auto using str_no_colon, int_str.
Qed.

Lemma time_to_minutes_unchecked_witness :
  _time_to_minutes (Py.str 25 +:+ ":" +:+ Py.str (-75)) = Some (25 * 60 + -75).
Proof. apply (time_to_minutes_unchecked 25 (-75)); by vm_compute. Defined.

Example time_to_minutes_raises :
  _time_to_minutes "0930" = None ∧ _time_to_minutes "09:30:00" = None ∧
  _time_to_minutes "09:" = None ∧ _time_to_minutes ":30" = None ∧
  _time_to_minutes "" = None ∧ _time_to_minutes "9h:30" = None ∧
  _time_to_minutes "09:75" = Some 615 ∧ _time_to_minutes " 9 : 5 " = Some 545 ∧
  _time_to_minutes "25:00" = Some 1500 ∧ _time_to_minutes "-1:30" = Some (-30).
Proof. repeat split; reflexivity. Qed.

(** ** Well-formed time strings and the minutes of a day *)

Lemma digit_char_spec k :
  0 ≤ k ≤ 9 → Py.is_digit (digit_char k) = true ∧ digit_val (digit_char k) = k.
Proof.
  intros Hk.
  assert (k = 0 ∨ k = 1 ∨ k = 2 ∨ k = 3 ∨ k = 4 ∨ k = 5 ∨ k = 6 ∨ k = 7 ∨ k = 8 ∨ k = 9)
    as Hcases by lia.
  repeat (destruct Hcases as [->|Hcases]); try subst k; split; reflexivity.
Qed.

Lemma format_02d_below_100 n :
  0 ≤ n < 100 →
  Py.format_02d n
  = String (digit_char (n / 10)) (String (digit_char (n mod 10)) EmptyString).
Proof.
  intros Hn.
  assert (0 ≤ n / 10 ≤ 9) as Hq.
  { assert (n / 10 < 10) by (apply Z.div_lt_upper_bound; lia).
    assert (0 ≤ n / 10) by (apply Z.div_pos; lia). lia. }
  assert (0 ≤ n mod 10 ≤ 9) as Hr by (pose proof (Z.mod_pos_bound n 10); lia).
  destruct (digit_char_spec _ Hq) as [Ha Hav], (digit_char_spec _ Hr) as [Hb Hbv].
  rewrite <- (format_two_digits _ _ Ha Hb), Hav, Hbv. f_equal.
  pose proof (Z.div_mod n 10). lia.
Qed.

(** Every minute of a day is printed as a well-formed ["HH:MM"] string.
    Together with [hhmm_round_trip] this makes [_minutes_to_time] and
    [_time_to_minutes] inverse bijections between the minutes 0 to 1439 and
    the well-formed strings. *)
Theorem minutes_to_time_well_formed (m : Z) :
  0 ≤ m < 1440 → hhmm (_minutes_to_time m) = true.
Proof.
  intros Hm. unfold _minutes_to_time.
  assert (0 ≤ m / 60 < 24) as Hh
    by (split; [apply Z.div_pos; lia | apply Z.div_lt_upper_bound; lia]).
  assert (0 ≤ m mod 60 < 60) as Hmin by (apply Z.mod_pos_bound; lia).
  rewrite !format_02d_below_100 by lia. cbv [String.append]. cbn [hhmm].
  assert (0 ≤ m / 60 / 10 ≤ 9) as H1.
  { assert (m / 60 / 10 < 10) by (apply Z.div_lt_upper_bound; lia).
    assert (0 ≤ m / 60 / 10) by (apply Z.div_pos; lia). lia. }
  assert (0 ≤ (m / 60) mod 10 ≤ 9) as H2 by (pose proof (Z.mod_pos_bound (m / 60) 10); lia).
  assert (0 ≤ m mod 60 / 10 ≤ 5) as H3.
  { assert (m mod 60 / 10 < 6) by (apply Z.div_lt_upper_bound; lia).
    assert (0 ≤ m mod 60 / 10) by (apply Z.div_pos; lia). lia. }
  assert (0 ≤ (m mod 60) mod 10 ≤ 9) as H4
    by (pose proof (Z.mod_pos_bound (m mod 60) 10); lia).
  destruct (digit_char_spec _ H1) as [-> ->], (digit_char_spec _ H2) as [-> ->].
  destruct (digit_char_spec (m mod 60 / 10) ltac:(lia)) as [-> ->].
  destruct (digit_char_spec _ H4) as [-> _].
  change (Ascii.eqb ":" ":") with true. cbn [andb].
  apply andb_true_iff. split; apply Z.ltb_lt; [|lia].
  pose proof (Z.div_mod (m / 60) 10). lia.
Qed.

Lemma minutes_to_time_well_formed_witness : hhmm (_minutes_to_time 570) = true.
Proof. apply (minutes_to_time_well_formed 570). lia. Defined.

(** A well-formed ["HH:MM"] string is read as a minute of the day, and
    printing that minute gives the string back. *)
Theorem hhmm_round_trip (s : string) :
  hhmm s = true →
  ∃ m, _time_to_minutes s = Some m ∧ 0 ≤ m < 1440 ∧ _minutes_to_time m = s.
Proof.
  intros Hs. exists (hhmm_minutes s).
  destruct (hhmm_time_to_minutes s Hs) as [Hp Hr].
  repeat split; try done; try lia. by apply hhmm_minutes_to_time.
Qed.

Lemma hhmm_round_trip_witness :
  ∃ m, _time_to_minutes "09:30" = Some m ∧ 0 ≤ m < 1440 ∧ _minutes_to_time m = "09:30".
Proof. apply (hhmm_round_trip "09:30"). reflexivity. Defined.

(** On well-formed time strings the comparisons that the merge makes on
    strings, [<] and [<=], give what the same comparisons give on the
    minutes. *)
Theorem string_order_is_minute_order (a b : string) :
  hhmm a = true → hhmm b = true →
  ∃ x y, _time_to_minutes a = Some x ∧ _time_to_minutes b = Some y ∧
         String.ltb a b = (x <? y) ∧ String.leb a b = (x <=? y).
Proof.
  intros Ha Hb. exists (hhmm_minutes a), (hhmm_minutes b).
  split; [by apply hhmm_time_to_minutes|]. split; [by apply hhmm_time_to_minutes|].
  split; [by apply (hhmm_lt a b) | by apply (hhmm_le a b)].
Qed.

Lemma string_order_is_minute_order_witness :
  ∃ x y, _time_to_minutes "09:30" = Some x ∧ _time_to_minutes "10:00" = Some y ∧
         String.ltb "09:30" "10:00" = (x <? y) ∧ String.leb "09:30" "10:00" = (x <=? y).
Proof. apply (string_order_is_minute_order "09:30" "10:00"); reflexivity. Defined.

End TimeStrings.

(** ** What the merge keeps *)

Section MergeKeeps.

Lemma covered_cons m p l : covered m (p :: l) ↔ (p.1 ≤ m ∧ m < p.2) ∨ covered m l.
Proof.
  unfold covered. split.
  - intros (q & [->|Hq]%elem_of_cons & Hm); [by left|]. right. by exists q.
  - intros [Hm|(q & Hq & Hm)].
    + exists p. split; [by left|done].
    + exists q. split; [by right|done].
Qed.

Lemma covered_perm m (l l' : list (Z * Z)) : l ≡ₚ l' → covered m l ↔ covered m l'.
Proof.
  intros Hp. unfold covered. split; intros (q & Hq & Hm); exists q; split; try done.
  - by rewrite <- Hp.
  - by rewrite Hp.
Qed.

Lemma key_le_int (x y : Z * Z) : key_le fst x y ↔ x.1 ≤ y.1.
Proof. unfold key_le. simpl. by rewrite Z.ltb_ge. Qed.

Lemma Sorted_absorb (lst cur : Z * Z) rest e :
  Sorted (key_le fst) (lst :: cur :: rest) → Sorted (key_le fst) ((lst.1, e) :: rest).
Proof.
  intros Hs. apply Sorted_inv in Hs as [Hs Hhd]. apply HdRel_inv in Hhd.
  apply Sorted_inv in Hs as [Hs Hhd']. constructor; [done|].
  destruct Hhd' as [|r rest Hr]; constructor.
  by apply (key_le_trans fst (lst.1, e) cur r).
Qed.

Lemma merge_loop_covered m (lst : Z * Z) rest :
  Sorted (key_le fst) (lst :: rest) →
  covered m (merge_loop lst rest) ↔ covered m (lst :: rest).
Proof.
  revert lst. induction rest as [|cur rest IH]; intros lst Hs; [done|].
  cbn [merge_loop]. pose proof Hs as Hs'.
  apply Sorted_inv in Hs' as [Hs' Hhd]. apply HdRel_inv, key_le_int in Hhd.
  change (Py.le cur.1 lst.2) with (cur.1 <=? lst.2).
  destruct (Z.leb_spec cur.1 lst.2) as [Hle|Hgt].
  - rewrite (IH _ (Sorted_absorb _ _ _ _ Hs)), !covered_cons, py_max_int. simpl.
    split.
    + intros [Hm|Hc]; [|tauto].
      destruct (Z_lt_le_dec m lst.2); [left; lia | right; left; lia].
    + intros [Hm|[Hm|Hc]]; [left; lia | left; lia | tauto].
  - rewrite !covered_cons, (IH _ Hs'), covered_cons. tauto.
Qed.

Lemma merge_covered (slots : list (Z * Z)) (m : Z) :
  covered m (_merge_overlapping_slots slots) ↔ covered m slots.
Proof.
  rewrite merge_overlapping_slots_loop.
  rewrite <- (covered_perm m _ _ (sorted_perm fst slots)).
  pose proof (sorted_Sorted fst slots) as Hs.
  destruct (Py.sorted fst slots) as [|first rest]; [done|].
  by apply merge_loop_covered.
Qed.


(** The merge neither loses nor adds a busy minute: a minute lies in an
    interval of the output exactly when it lies in an interval of the input,
    for every list of minute intervals. *)
Theorem merge_keeps_coverage (slots : list (Z * Z)) (m : Z) :
  covered m (_merge_overlapping_slots slots) ↔ covered m slots.
Proof. apply merge_covered. Qed.

End MergeKeeps.

Section MergeShape.
Context {A : Type} `{Py.Ord A}.

Lemma merge_loop_endpoints (P Q : A → Prop) lst (rest : list (A * A)) :
  P lst.1 → Q lst.2 → Forall (λ p, P p.1 ∧ Q p.2) rest →
  Forall (λ p, P p.1 ∧ Q p.2) (merge_loop lst rest).
Proof.
  intros HP HQ Hrest. revert lst HP HQ.
  induction Hrest as [|cur rest [Hc1 Hc2] Hrest IH]; intros lst HP HQ; simpl.
  - by repeat constructor.
  - destruct (Py.le cur.1 lst.2).
    + apply IH; simpl; [done|]. unfold Py.max. by destruct (Py.lt lst.2 cur.2).
    + constructor; [done|]. by apply IH.
Qed.

(** Every start of the output is the start of an input interval and every
    end of the output is the end of an input interval. *)
Lemma merge_overlapping_slots_endpoints (slots : list (A * A)) s e :
  (s, e) ∈ _merge_overlapping_slots slots →
  (∃ e0, (s, e0) ∈ slots) ∧ (∃ s0, (s0, e) ∈ slots).
Proof.
  rewrite merge_overlapping_slots_loop.
  set (P := λ a, ∃ e0, (a, e0) ∈ slots). set (Q := λ b, ∃ s0, (s0, b) ∈ slots).
  assert (Forall (λ p, P p.1 ∧ Q p.2) (Py.sorted fst slots)) as Hall.
  { rewrite sorted_perm. apply Forall_forall. intros [a b] Hab. split; by eexists. }
  destruct Hall as [|first rest [H1 H2] Hrest]; [by intros ?%elem_of_nil|].
  intros Hin.
  by apply (proj1 (Forall_forall _ _) (merge_loop_endpoints P Q first rest H1 H2 Hrest) (s, e)).
Qed.

Lemma merge_loop_length lst (rest : list (A * A)) :
  (1 ≤ length (merge_loop lst rest) ≤ S (length rest))%nat.
Proof.
  revert lst. induction rest as [|cur rest IH]; intros lst; simpl; [lia|].
  destruct (Py.le cur.1 lst.2).
  - specialize (IH (lst.1, Py.max lst.2 cur.2)). lia.
  - specialize (IH cur). simpl. lia.
Qed.

Lemma sorted_length {B K} `{Py.Ord K} (key : B → K) l :
  length (Py.sorted key l) = length l.
Proof. by rewrite sorted_perm. Qed.

End MergeShape.

(** The merge returns no more intervals than it is given, and an empty list
    only for an empty list, whatever the ordered type of the endpoints. *)
Theorem merge_no_longer {A} `{Py.Ord A} (slots : list (A * A)) :
  (length (_merge_overlapping_slots slots) ≤ length slots)%nat ∧
  (_merge_overlapping_slots slots = [] ↔ slots = []).
Proof.
  rewrite merge_overlapping_slots_loop.
  pose proof (sorted_length fst slots) as Hlen.
  destruct (Py.sorted fst slots) as [|first rest].
  - destruct slots; [by split|done].
  - pose proof (merge_loop_length first rest). simpl in Hlen. split; [lia|].
    split.
    + intros E. rewrite E in *. simpl in *. lia.
    + intros ->. done.
Qed.

(** [get_busy_slots] invents no time: the start of every slot it returns is
    the start of a raw busy slot of that date, and its end is the end of a
    raw busy slot of that date. *)
Theorem busy_slots_from_raw self date s e :
  (s, e) ∈ get_busy_slots self date →
  ∃ raw, timeslots self !! date = Some raw ∧
         (∃ e0, (s, e0) ∈ raw) ∧ (∃ s0, (s0, e) ∈ raw).
Proof.
  unfold get_busy_slots. destruct (timeslots self !! date) as [raw|].
  - intros Hin. exists raw. split; [done|]. by apply merge_overlapping_slots_endpoints.
  - by intros ?%elem_of_nil.
Qed.

Lemma busy_slots_from_raw_witness :
  ∃ raw, timeslots scheduler !! "2024-10-10" = Some raw ∧
         (∃ e0, ("11:00", e0) ∈ raw) ∧ (∃ s0, (s0, "12:00") ∈ raw).
Proof.
  apply (busy_slots_from_raw scheduler "2024-10-10" "11:00" "12:00").
  change (get_busy_slots scheduler "2024-10-10") with [("11:00", "12:00")].
  apply elem_of_cons. by left.
Defined.

(** For a date whose raw busy slots have well-formed time strings,
    [get_busy_slots] returns, read in minutes, intervals in ascending order
    of which each ends strictly before every later one starts, and which hold
    exactly the minutes that the raw busy slots hold. *)
Theorem busy_slots_minutes self date :
  wf_busy self date = true →
  ∃ busy raw,
    busy_minutes self date = Some busy ∧
    parse_slots (default [] (timeslots self !! date)) = Some raw ∧
    StronglySorted (λ p q, p.2 < q.1 ∧ p.1 ≤ q.1) busy ∧
    ∀ m, covered m busy ↔ covered m raw.
Proof.
  intros Hwf. pose proof (wf_busy_Forall _ _ Hwf) as Hall.
  exists (_merge_overlapping_slots
            (prod_map hhmm_minutes hhmm_minutes <$> default [] (timeslots self !! date))),
         (prod_map hhmm_minutes hhmm_minutes <$> default [] (timeslots self !! date)).
  unfold busy_minutes. rewrite get_busy_slots_default, (merge_hhmm _ Hall).
  split; [done|]. split; [by apply parse_slots_hhmm|]. split.
  - apply Sorted_sep_int, merge_overlapping_slots_Sorted.
  - intros m. apply merge_covered.
Qed.

Lemma busy_slots_minutes_witness :
  ∃ busy raw,
    busy_minutes scheduler "2024-10-10" = Some busy ∧
    parse_slots (default [] (timeslots scheduler !! "2024-10-10")) = Some raw ∧
    StronglySorted (λ p q, p.2 < q.1 ∧ p.1 ≤ q.1) busy ∧
    ∀ m, covered m busy ↔ covered m raw.
Proof. apply (busy_slots_minutes scheduler "2024-10-10"). vm_compute. reflexivity. Defined.

(** ** The order of the input of the merge *)

Section MergeOrderIrrelevant.

Lemma covered_closed_cons k p l :
  covered_closed k (p :: l) ↔ (2 * p.1 ≤ k ∧ k ≤ 2 * p.2) ∨ covered_closed k l.
Proof.
  unfold covered_closed. split.
  - intros (q & [->|Hq]%elem_of_cons & Hk); [by left|]. right. by exists q.
  - intros [Hk|(q & Hq & Hk)].
    + exists p. split; [by left|done].
    + exists q. split; [by right|done].
Qed.

Lemma covered_closed_perm k (l l' : list (Z * Z)) :
  l ≡ₚ l' → covered_closed k l ↔ covered_closed k l'.
Proof.
  intros Hp. unfold covered_closed. split; intros (q & Hq & Hk); exists q; split; try done.
  - by rewrite <- Hp.
  - by rewrite Hp.
Qed.

Lemma merge_loop_covered_closed k (lst : Z * Z) rest :
  Sorted (key_le fst) (lst :: rest) →
  covered_closed k (merge_loop lst rest) ↔ covered_closed k (lst :: rest).
Proof.
  revert lst. induction rest as [|cur rest IH]; intros lst Hs; [done|].
  cbn [merge_loop]. pose proof Hs as Hs'.
  apply Sorted_inv in Hs' as [Hs' Hhd]. apply HdRel_inv, key_le_int in Hhd.
  change (Py.le cur.1 lst.2) with (cur.1 <=? lst.2).
  destruct (Z.leb_spec cur.1 lst.2) as [Hle|Hgt].
  - rewrite (IH _ (Sorted_absorb _ _ _ _ Hs)), !covered_closed_cons, py_max_int. simpl.
    split.
    + intros [Hk|Hc]; [|tauto].
      destruct (Z_le_gt_dec k (2 * lst.2)); [left; lia | right; left; lia].
    + intros [Hk|[Hk|Hc]]; [left; lia | left; lia | tauto].
  - rewrite !covered_closed_cons, (IH _ Hs'), covered_closed_cons. tauto.
Qed.

Lemma merge_covered_closed k (slots : list (Z * Z)) :
  covered_closed k (_merge_overlapping_slots slots) ↔ covered_closed k slots.
Proof.
  rewrite merge_overlapping_slots_loop.
  rewrite <- (covered_closed_perm k _ _ (sorted_perm fst slots)).
  pose proof (sorted_Sorted fst slots) as Hs.
  destruct (Py.sorted fst slots) as [|first rest]; [done|].
  by apply merge_loop_covered_closed.
Qed.

(** Separated lists of intervals that hold the same points are equal. *)
Lemma separated_unique (l1 l2 : list (Z * Z)) :
  StronglySorted (λ p q, p.2 < q.1 ∧ p.1 ≤ q.1) l1 →
  StronglySorted (λ p q, p.2 < q.1 ∧ p.1 ≤ q.1) l2 →
  Forall (λ p, p.1 ≤ p.2) l1 → Forall (λ p, p.1 ≤ p.2) l2 →
  (∀ k, covered_closed k l1 ↔ covered_closed k l2) →
  l1 = l2.
Proof.
  intros Hs1. revert l2.
  induction Hs1 as [|p t1 Ht1 IH Hp]; intros l2 Hs2 Hp1 Hp2 Hcov.
  - destruct l2 as [|q t2]; [done|]. apply Forall_inv in Hp2.
    destruct (proj2 (Hcov (2 * q.1))) as (r & Hr & _); [|by apply elem_of_nil in Hr].
    apply covered_closed_cons. left. lia.
  - apply Forall_cons in Hp1 as [Hpp Hp1].
    destruct Hs2 as [|q t2 Ht2 Hq].
    { destruct (proj1 (Hcov (2 * p.1))) as (r & Hr & _); [|by apply elem_of_nil in Hr].
      apply covered_closed_cons. left. lia. }
    apply Forall_cons in Hp2 as [Hqq Hp2].
    rewrite Forall_forall in Hp, Hq.
    assert (∀ k, covered_closed k (p :: t1) → 2 * p.1 ≤ k) as Hlow1.
    { intros k [Hk|(r & Hr & Hk)]%covered_closed_cons; [lia|]. specialize (Hp r Hr). lia. }
    assert (∀ k, covered_closed k (q :: t2) → 2 * q.1 ≤ k) as Hlow2.
    { intros k [Hk|(r & Hr & Hk)]%covered_closed_cons; [lia|]. specialize (Hq r Hr). lia. }
    assert (p.1 = q.1) as Hstart.
    { assert (2 * q.1 ≤ 2 * p.1).
      { apply Hlow2, Hcov, covered_closed_cons. left. lia. }
      assert (2 * p.1 ≤ 2 * q.1).
      { apply Hlow1, Hcov, covered_closed_cons. left. lia. }
      lia. }
    assert (∀ k, covered_closed k (p :: t1) → 2 * p.2 < k → 2 * p.2 + 2 ≤ k) as Hgap1.
    { intros k [Hk|(r & Hr & Hk)]%covered_closed_cons ?; [lia|]. specialize (Hp r Hr). lia. }
    assert (∀ k, covered_closed k (q :: t2) → 2 * q.2 < k → 2 * q.2 + 2 ≤ k) as Hgap2.
    { intros k [Hk|(r & Hr & Hk)]%covered_closed_cons ?; [lia|]. specialize (Hq r Hr). lia. }
    assert (p.2 = q.2) as Hend.
    { destruct (Z.lt_trichotomy p.2 q.2) as [Hlt|[Heq|Hgt]]; [|done|].
      - assert (covered_closed (2 * p.2 + 1) (p :: t1)) as Hc.
        { apply Hcov, covered_closed_cons. left. lia. }
        apply Hgap1 in Hc; lia.
      - assert (covered_closed (2 * q.2 + 1) (q :: t2)) as Hc.
        { apply Hcov, covered_closed_cons. left. lia. }
        apply Hgap2 in Hc; lia. }
    assert (p = q) as <- by (destruct p, q; simpl in *; congruence).
    f_equal. apply IH; try done.
    intros k. split.
    + intros Hk. assert (2 * p.2 < k).
      { destruct Hk as (r & Hr & Hk). specialize (Hp r Hr). lia. }
      assert (covered_closed k (p :: t2)) as Hc
        by (apply Hcov, covered_closed_cons; by right).
      apply covered_closed_cons in Hc as [?|?]; [lia|done].
    + intros Hk. assert (2 * p.2 < k).
      { destruct Hk as (r & Hr & Hk). specialize (Hq r Hr). lia. }
      assert (covered_closed k (p :: t1)) as Hc
        by (apply Hcov, covered_closed_cons; by right).
      apply covered_closed_cons in Hc as [?|?]; [lia|done].
Qed.

Lemma proper_perm (l l' : list (Z * Z)) :
  l ≡ₚ l' → Forall (λ p, p.1 ≤ p.2) l → Forall (λ p, p.1 ≤ p.2) l'.
Proof. intros Hp Hl. by rewrite <- Hp. Qed.

Lemma merge_proper_int (l : list (Z * Z)) :
  Forall (λ p, p.1 ≤ p.2) l → Forall (λ p, p.1 ≤ p.2) (_merge_overlapping_slots l).
Proof.
  intros Hl. eapply Forall_impl; [apply merge_overlapping_slots_proper|].
  - eapply Forall_impl; [exact Hl|]. intros p. apply proper_int.
  - intros p. apply proper_int.
Qed.

End MergeOrderIrrelevant.

(** With an interval that ends before it starts, the order of the input
    does show in the output. *)
Example merge_order_reversed :
  _merge_overlapping_slots [(10, 5); (10, 7)] = [(10, 5); (10, 7)] ∧
  _merge_overlapping_slots [(10, 7); (10, 5)] = [(10, 7); (10, 5)].
Proof. split; reflexivity. Qed.

Lemma merge_perm (slots slots' : list (Z * Z)) :
  slots ≡ₚ slots' → Forall (λ p, p.1 ≤ p.2) slots →
  _merge_overlapping_slots slots = _merge_overlapping_slots slots'.
Proof.
  intros Hperm Hprop. apply separated_unique.
  - apply Sorted_sep_int, merge_overlapping_slots_Sorted.
  - apply Sorted_sep_int, merge_overlapping_slots_Sorted.
  - by apply merge_proper_int.
  - apply merge_proper_int. by apply (proper_perm slots).
  - intros k. rewrite !merge_covered_closed. by apply covered_closed_perm.
Qed.


(** The order of the input does not matter to the merge: two lists of
    minute intervals that are permutations of each other, with no interval
    ending before it starts, are merged to the same list. *)
Theorem merge_order_irrelevant (slots slots' : list (Z * Z)) :
  slots ≡ₚ slots' → Forall (λ p, p.1 ≤ p.2) slots →
  _merge_overlapping_slots slots = _merge_overlapping_slots slots'.
Proof. apply merge_perm. Qed.

Lemma merge_order_irrelevant_witness :
  _merge_overlapping_slots [(420, 480); (60, 200); (100, 130); (200, 210)]
  = _merge_overlapping_slots [(200, 210); (100, 130); (60, 200); (420, 480)].
Proof.
  apply merge_order_irrelevant.
  - apply (Permutation_rev [(420, 480); (60, 200); (100, 130); (200, 210)]).
  - repeat constructor; simpl; lia.
Defined.

(** ** The order of the timeslots of the payload *)

Section PayloadOrder.

Lemma merge_hhmm_strings (l : list (string * string)) :
  Forall (both (λ s, hhmm s = true)) l →
  _merge_overlapping_slots l
  = slot_of_minutes <$> _merge_overlapping_slots (prod_map hhmm_minutes hhmm_minutes <$> l).
Proof.
  intros Hl.
  rewrite (merge_overlapping_slots_map hhmm_minutes (λ s, hhmm s = true)); [| | |done].
  - symmetry. apply slot_of_minutes_hhmm. by apply merge_overlapping_slots_both.
  - intros a b Ha Hb. symmetry. by apply hhmm_lt.
  - intros a b Ha Hb. symmetry. by apply hhmm_le.
Qed.

Lemma merge_strings_order_irrelevant (l l' : list (string * string)) :
  l ≡ₚ l' →
  Forall (λ p, hhmm p.1 = true ∧ hhmm p.2 = true ∧ String.leb p.1 p.2 = true) l →
  _merge_overlapping_slots l = _merge_overlapping_slots l'.
Proof.
  intros Hperm Hl.
  assert (Forall (both (λ s, hhmm s = true)) l) as Hwf.
  { eapply Forall_impl; [exact Hl|]. intros p (? & ? & _). by split. }
  assert (Forall (both (λ s, hhmm s = true)) l') as Hwf' by by rewrite <- Hperm.
  rewrite (merge_hhmm_strings l Hwf), (merge_hhmm_strings l' Hwf'). f_equal.
  apply merge_perm; [by rewrite Hperm|].
  apply Forall_fmap. eapply Forall_impl; [exact Hl|].
  intros [s e] (Hs & He & Hle). simpl in *.
  pose proof (hhmm_le s e Hs He) as E. simpl in E. rewrite Hle in E.
  symmetry in E. by apply Z.leb_le in E.
Qed.

Lemma slots_of_date_perm (d d' : Payload) date :
  data_days d = data_days d' → data_timeslots d ≡ₚ data_timeslots d' →
  slots_of_date d date ≡ₚ slots_of_date d' date.
Proof.
  intros Hdays Hts. unfold slots_of_date. rewrite Hdays. by rewrite Hts.
Qed.

Lemma slots_of_date_Forall (P : string * string → Prop) (d : Payload) date :
  Forall (λ t, P (ts_start t, ts_end t)) (data_timeslots d) →
  Forall P (slots_of_date d date).
Proof.
  intros Hts. unfold slots_of_date. apply Forall_fmap.
  apply Forall_forall. intros t [_ Ht]%list_elem_of_filter.
  by apply (proj1 (Forall_forall _ _) Hts t).
Qed.

Lemma find_in_dates_ext (s1 s2 : Scheduler) n dates :
  (∀ date, get_free_slots s1 date = get_free_slots s2 date) →
  find_in_dates s1 n dates = find_in_dates s2 n dates.
Proof.
  intros Hfree. induction dates as [|date rest IH]; [done|].
  cbn [find_in_dates]. rewrite Hfree.
  destruct (get_free_slots s2 date) as [fs|]; [|done]. cbn [mbind option_bind].
  destruct (find_in_slots date n fs) as [[r|]|]; cbn [mbind option_bind]; done.
Qed.

(** The order in which the payload lists its timeslots does not matter:
    two payloads with the same days whose timeslots are permutations of each
    other give the same answers to all four queries, as long as the time
    strings of the timeslots are well formed and no timeslot ends before it
    starts. *)
Theorem payload_order_irrelevant (d d' : Payload) :
  data_days d = data_days d' →
  data_timeslots d ≡ₚ data_timeslots d' →
  proper_timeslots d = true →
  (∀ date,
     get_busy_slots (__init__ d) date = get_busy_slots (__init__ d') date ∧
     get_free_slots (__init__ d) date = get_free_slots (__init__ d') date ∧
     ∀ start end_,
       is_available (__init__ d) date start end_
       = is_available (__init__ d') date start end_) ∧
  (∀ duration,
     find_slot_for_duration (__init__ d) duration
     = find_slot_for_duration (__init__ d') duration).
Proof.
  intros Hdays Hts Hprop.
  assert (∀ date, get_busy_slots (__init__ d) date = get_busy_slots (__init__ d') date)
    as Hbusy.
  { intros date. unfold get_busy_slots. simpl. rewrite !organize_timeslots_lookup, <- Hdays.
    destruct (decide (date ∈ day_date <$> data_days d)); [|done].
    destruct (decide (date = EmptyString)); [done|].
    apply merge_strings_order_irrelevant; [by apply slots_of_date_perm|].
    apply slots_of_date_Forall. unfold proper_timeslots in Hprop.
    rewrite forallb_forall in Hprop. apply Forall_forall.
    intros t Ht%list_elem_of_In. specialize (Hprop t Ht).
    apply andb_true_iff in Hprop as [[H1 H2]%andb_true_iff H3]. done. }
  assert (days (__init__ d) = days (__init__ d')) as Hd by (simpl; by rewrite Hdays).
  assert (∀ date, get_free_slots (__init__ d) date = get_free_slots (__init__ d') date)
    as Hfree.
  { intros date. unfold get_free_slots. by rewrite Hd, Hbusy. }
  split.
  - intros date. split; [apply Hbusy|]. split; [apply Hfree|].
    intros start end_. unfold is_available. by rewrite Hd, Hbusy.
  - intros duration. unfold find_slot_for_duration, days_keys. rewrite Hd.
    by apply find_in_dates_ext.
Qed.

Lemma payload_order_irrelevant_witness :
  (∀ date,
     get_busy_slots (__init__ (one_day "09:00" "18:00" [("11:00", "12:00"); ("10:00", "11:30")])) date
     = get_busy_slots (__init__ (one_day "09:00" "18:00" [("10:00", "11:30"); ("11:00", "12:00")])) date ∧
     get_free_slots (__init__ (one_day "09:00" "18:00" [("11:00", "12:00"); ("10:00", "11:30")])) date
     = get_free_slots (__init__ (one_day "09:00" "18:00" [("10:00", "11:30"); ("11:00", "12:00")])) date ∧
     ∀ start end_,
       is_available (__init__ (one_day "09:00" "18:00" [("11:00", "12:00"); ("10:00", "11:30")])) date start end_
       = is_available (__init__ (one_day "09:00" "18:00" [("10:00", "11:30"); ("11:00", "12:00")])) date start end_) ∧
  (∀ duration,
     find_slot_for_duration (__init__ (one_day "09:00" "18:00" [("11:00", "12:00"); ("10:00", "11:30")])) duration
     = find_slot_for_duration (__init__ (one_day "09:00" "18:00" [("10:00", "11:30"); ("11:00", "12:00")])) duration).
Proof.
  apply payload_order_irrelevant.
  - reflexivity.
  - apply Permutation_swap.
  - vm_compute. reflexivity.
Defined.

End PayloadOrder.

(** ** More on the cursor walk *)

Section CursorMore.

Lemma covered_app m l1 l2 : covered m (l1 ++ l2) ↔ covered m l1 ∨ covered m l2.
Proof.
  unfold covered. split.
  - intros (p & [Hp|Hp]%elem_of_app & Hm); [left|right]; by exists p.
  - intros [(p & Hp & Hm)|(p & Hp & Hm)]; exists p; (split; [|done]); apply elem_of_app; auto.
Qed.

(** From the start of the cursor on, every minute is in a gap, in a busy
    interval, or not yet passed by the cursor. *)
Lemma gaps_complete busy c m :
  c ≤ m → covered m (gaps busy c) ∨ covered m busy ∨ cursor busy c ≤ m.
Proof.
  revert c. induction busy as [|[s e] rest IH]; intros c Hc; simpl; [by auto|].
  rewrite covered_app, covered_cons. simpl.
  destruct (Z_lt_le_dec m (Z.max c e)) as [Hpassed|Hahead].
  - destruct (Z.ltb_spec c s) as [Hcs|Hcs].
    + destruct (Z_lt_le_dec m s).
      * left. left. exists (c, s). split; [by left|simpl; lia].
      * right. left. left. lia.
    + right. left. left. lia.
  - destruct (IH (Z.max c e) Hahead) as [H|[H|H]]; auto.
Qed.

Lemma free_of_complete ws we busy m :
  ws ≤ m → m < we → covered m (free_of ws we busy) ∨ covered m busy.
Proof.
  intros Hws Hwe. unfold free_of. rewrite covered_app.
  destruct (gaps_complete busy ws m Hws) as [H|[H|H]]; auto.
  left. right. destruct (Z.ltb_spec (cursor busy ws) we); [|lia].
  exists (cursor busy ws, we). split; [by left|simpl; lia].
Qed.

(** Over busy intervals that do not end before they start, each gap ends
    no later than the next one starts, and no later than the cursor ends. *)
Lemma gaps_separated busy c :
  Forall (λ p : Z * Z, p.1 ≤ p.2) busy →
  StronglySorted (λ g h : Z * Z, g.2 ≤ h.1) (gaps busy c) ∧
  Forall (λ g, g.2 ≤ cursor busy c) (gaps busy c).
Proof.
  intros Hb. revert c. induction Hb as [|[s e] rest Hse Hrest IH]; intros c; simpl.
  - split; constructor.
  - simpl in Hse. destruct (IH (Z.max c e)) as [Hs Hc].
    pose proof (gaps_bounds rest (Z.max c e)) as Hbd.
    pose proof (cursor_ge rest (Z.max c e)) as Hge.
    destruct (Z.ltb_spec c s); simpl; [|done]. split.
    + constructor; [done|]. eapply Forall_impl; [exact Hbd|].
      simpl. intros g (Hg & _). lia.
    + constructor; [simpl; lia|done].
Qed.

Lemma free_of_separated ws we busy :
  Forall (λ p : Z * Z, p.1 ≤ p.2) busy →
  StronglySorted (λ g h : Z * Z, g.2 ≤ h.1) (free_of ws we busy).
Proof.
  intros Hb. unfold free_of. destruct (gaps_separated busy ws Hb) as [Hs Hc].
  destruct (cursor busy ws <? we); [|by rewrite app_nil_r].
  induction Hs as [|g l Hl IH Hg]; simpl; [by repeat constructor|].
  apply Forall_cons in Hc as [Hgc Hc]. constructor; [by apply IH|].
  apply Forall_app. split; [done|]. by repeat constructor.
Qed.

(** A free interval of the walk lies in the window and is clear of every
    busy interval, when the busy intervals are sorted by start and none
    starts after the end of the window. *)
Lemma free_of_available ws we busy g :
  StronglySorted (λ p q : Z * Z, p.1 ≤ q.1) busy → Forall (λ p, p.1 ≤ we) busy →
  g ∈ free_of ws we busy →
  (ws <=? g.1) && (g.2 <=? we) && forallb (clear_of g.1 g.2) busy = true.
Proof.
  intros Hs Hlate Hg.
  pose proof (proj1 (Forall_forall _ _) (free_of_bounds ws we busy) _ Hg) as (H1 & _ & H3).
  pose proof (proj1 (Forall_forall _ _) (free_of_clear ws we busy Hs) _ Hg) as Hc.
  specialize (H3 Hlate). rewrite Hc.
  destruct (Z.leb_spec ws g.1), (Z.leb_spec g.2 we); (done || lia).
Qed.

Lemma clear_of_mono a b a' b' p :
  a ≤ a' → b' ≤ b → clear_of a b p = true → clear_of a' b' p = true.
Proof. rewrite !clear_of_iff. lia. Qed.

Lemma forallb_clear_mono a b a' b' busy :
  a ≤ a' → b' ≤ b →
  forallb (clear_of a b) busy = true → forallb (clear_of a' b') busy = true.
Proof.
  intros Ha Hb. rewrite !forallb_forall. intros H p Hp.
  by apply (clear_of_mono a b a' b' p Ha Hb), H.
Qed.

Lemma available_loop_true busy_slots a b :
  available_loop busy_slots a b = Some true →
  ∃ busy, parse_slots busy_slots = Some busy ∧ forallb (clear_of a b) busy = true.
Proof.
  induction busy_slots as [|[bs be] rest IH]; [by exists []|].
  rewrite parse_slots_cons. cbn [available_loop fst snd].
  destruct (_parse_time_range bs be) as [[s e]|]; [|done]. cbn [mbind option_bind].
  destruct ((b <=? s) || (e <=? a)) eqn:Hc; simpl; [|done].
  intros (busy & -> & Hb)%IH. exists ((s, e) :: busy). split; [done|].
  simpl. unfold clear_of at 1. simpl. by rewrite Hc.
Qed.

(** An answer [true] of [is_available] means that the date is in the index
    and that the window, the request and every busy slot have been read. *)
Lemma is_available_true self date s e :
  is_available self date s e = Some true →
  ∃ ws we a b busy,
    window self date = Some (ws, we) ∧ _parse_time_range s e = Some (a, b) ∧
    busy_minutes self date = Some busy ∧
    ws ≤ a ∧ b ≤ we ∧ forallb (clear_of a b) busy = true.
Proof.
  unfold is_available, window, busy_minutes.
  destruct (days self !! date) as [wd|]; [|done]. cbn [mbind option_bind].
  destruct (_parse_time_range (day_start wd) (day_end wd)) as [[ws we]|]; [|done].
  destruct (_parse_time_range s e) as [[a b]|]; [|done]. cbn [mbind option_bind].
  destruct (Z.ltb_spec a ws); [done|]. destruct (Z.ltb_spec we b); [done|]. simpl.
  intros (busy & Hb & Hc)%available_loop_true. by exists ws, we, a, b, busy.
Qed.

End CursorMore.

(** ** The interpreter's digit limit and the time strings of a date *)

Section DigitLimit.

Lemma string_length_app s t :
  String.length (s +:+ t) = (String.length s + String.length t)%nat.
Proof.
  induction s as [|c r IH]; [done|].
  change (String c r +:+ t) with (String c (r +:+ t)). cbn [String.length]. by rewrite IH.
Qed.

Lemma lstrip_length s : (String.length (Py.lstrip s) ≤ String.length s)%nat.
Proof.
  induction s as [|c r IH]; cbn [Py.lstrip String.length]; [done|].
  destruct (Py.is_space c); cbn [String.length]; lia.
Qed.

Lemma rstrip_length s : (String.length (Py.rstrip s) ≤ String.length s)%nat.
Proof.
  induction s as [|c r IH]; cbn [Py.rstrip String.length]; [done|].
  destruct (Py.rstrip r) as [|c' r'].
  - destruct (Py.is_space c); cbn [String.length]; lia.
  - cbn [String.length] in *. lia.
Qed.

Lemma int_digits_length b s ds :
  Py.int_digits b s = Some ds → (String.length ds ≤ String.length s)%nat.
Proof.
  revert b ds. induction s as [|c r IH]; intros b ds; cbn [Py.int_digits String.length].
  - destruct b; [|done]. by intros [= <-].
  - destruct (Py.is_digit c).
    + destruct (Py.int_digits true r) as [ds'|] eqn:E; [|done].
      cbn. intros [= <-]. specialize (IH _ _ E). cbn [String.length]. lia.
    + destruct (Ascii.eqb c "_"); [|done]. destruct b; [|done].
      intros H%IH. lia.
Qed.

Lemma usize_revapp d d' :
  DecimalPos.Unsigned.usize (Decimal.revapp d d')
  = (DecimalPos.Unsigned.usize d + DecimalPos.Unsigned.usize d')%N.
Proof.
  revert d'. induction d; intros d'; cbn [Decimal.revapp DecimalPos.Unsigned.usize];
    rewrite ?IHd; cbn [DecimalPos.Unsigned.usize]; lia.
Qed.

Lemma of_lu_bound d :
  (DecimalPos.Unsigned.of_lu d < 10 ^ DecimalPos.Unsigned.usize d)%N.
Proof.
  induction d; cbn [DecimalPos.Unsigned.of_lu DecimalPos.Unsigned.usize];
    rewrite ?N.pow_succ_r'; [by vm_compute | lia ..].
Qed.

Lemma usize_length d :
  Z.of_N (DecimalPos.Unsigned.usize d)
  = Z.of_nat (String.length (NilEmpty.string_of_uint d)).
Proof.
  induction d; cbn [DecimalPos.Unsigned.usize NilEmpty.string_of_uint String.length]; lia.
Qed.

(** A string of [n] digits reads as an integer below [10 ^ n]. *)
Lemma of_uint_bound d :
  0 ≤ Z.of_uint d < 10 ^ Z.of_nat (String.length (NilEmpty.string_of_uint d)).
Proof.
  unfold Z.of_uint. rewrite DecimalPos.Unsigned.of_uint_alt.
  pose proof (of_lu_bound (Decimal.rev d)) as H.
  unfold Decimal.rev in H at 2. rewrite usize_revapp in H.
  cbn [DecimalPos.Unsigned.usize] in H. rewrite N.add_0_r in H.
  rewrite <- usize_length. apply N2Z.inj_lt in H. rewrite N2Z.inj_pow in H.
  split; [apply N2Z.is_nonneg | exact H].
Qed.

(** The decimal writing of a positive integer does not start with a zero,
    so an integer written with [n] digits is at least [10 ^ (n - 1)]. *)
Lemma to_uint_head p :
  match Pos.to_uint p with Decimal.Nil | Decimal.D0 _ => False | _ => True end.
Proof.
  pose proof (DecimalPos.Unsigned.to_of (Pos.to_uint p)) as H.
  rewrite DecimalPos.Unsigned.of_to in H. cbn [N.to_uint] in H.
  pose proof (DecimalPos.Unsigned.to_uint_nonzero p) as Hz.
  pose proof (DecimalFacts.nzhead_nonzero (Pos.to_uint p)) as Hn.
  unfold Decimal.unorm in H.
  destruct (Decimal.nzhead (Pos.to_uint p)) eqn:E.
  1: by destruct Hz.
  1: by destruct (Hn u).
  all: by rewrite H.
Qed.

Lemma of_uint_lower d :
  match d with Decimal.Nil | Decimal.D0 _ => False | _ => True end →
  10 ^ (Z.of_nat (String.length (NilEmpty.string_of_uint d)) - 1) ≤ Z.of_uint d.
Proof.
  intros Hd. unfold Z.of_uint. rewrite DecimalPos.Unsigned.of_uint_alt.
  assert (∀ d' k, (1 ≤ k)%N →
            (10 ^ DecimalPos.Unsigned.usize d'
             ≤ DecimalPos.Unsigned.of_lu (Decimal.rev d') + k * 10 ^ DecimalPos.Unsigned.usize d')%N) as Hk.
  { intros d' k Hk'. nia. }
  destruct d; try done; unfold Decimal.rev; cbn [Decimal.revapp];
    rewrite DecimalPos.Unsigned.of_lu_revapp;
    cbn [NilEmpty.string_of_uint String.length DecimalPos.Unsigned.of_lu];
    rewrite Nat2Z.inj_succ, <- usize_length;
    replace (Z.succ (Z.of_N (DecimalPos.Unsigned.usize d)) - 1)
      with (Z.of_N (DecimalPos.Unsigned.usize d)) by lia;
    rewrite <- (N2Z.inj_pow 10);
    apply N2Z.inj_le, Hk; lia.
Qed.

(** [within_str_digits n] says that [str] prints the absolute value of [n]
    with at most [max_str_digits] digits. *)
Lemma within_str_digits_length n :
  Py.within_str_digits n ↔
  Z.of_nat (String.length (Py.str (Z.abs n))) ≤ Py.max_str_digits.
Proof.
  unfold Py.within_str_digits.
  assert (1 ≤ Py.max_str_digits) as Hmax by done.
  generalize dependent Py.max_str_digits. intros N HN.
  destruct (Z.abs n) as [|p|p] eqn:E; [| |lia].
  - cbn. split; intros _; [lia | apply Z.pow_pos_nonneg; lia].
  - unfold Py.str. cbn [Z.to_int NilZero.string_of_int].
    pose proof (Unsigned.to_uint_nonnil p) as Hp.
    assert (NilZero.string_of_uint (Pos.to_uint p)
            = NilEmpty.string_of_uint (Pos.to_uint p)) as -> by by destruct (Pos.to_uint p).
    pose proof (of_uint_bound (Pos.to_uint p)) as [_ Hu].
    pose proof (of_uint_lower (Pos.to_uint p) (to_uint_head p)) as Hl.
    unfold Z.of_uint in Hu, Hl. rewrite Unsigned.of_to in Hu, Hl. cbn [Z.of_N] in Hu, Hl.
    set (len := Z.of_nat (String.length (NilEmpty.string_of_uint (Pos.to_uint p)))) in *.
    split.
    + intros Hlt. destruct (Z_lt_le_dec N len) as [Hc|Hc]; [|done].
      assert (10 ^ N ≤ 10 ^ (len - 1)) by (apply Z.pow_le_mono_r; lia). lia.
    + intros Hle. assert (10 ^ len ≤ 10 ^ N) by (apply Z.pow_le_mono_r; lia). lia.
Qed.
(** What [int] returns is below ten to the length of its argument. *)
Lemma int_bound s n : Py.int s = Some n → Z.abs n < 10 ^ Z.of_nat (String.length s).
Proof.
  unfold Py.int.
  pose proof (rstrip_length (Py.lstrip s)) as Hr. pose proof (lstrip_length s) as Hl.
  set (t := Py.rstrip (Py.lstrip s)) in *.
  destruct (match t with
            | String c r =>
                if Ascii.eqb c "-" then (true, r)
                else if Ascii.eqb c "+" then (false, r) else (false, t)
            | EmptyString => (false, t)
            end) as [neg body] eqn:E.
  assert (String.length body ≤ String.length t)%nat as Hb.
  { destruct t as [|c r]; [by injection E as _ <-|].
    destruct (Ascii.eqb c "-"); [injection E as _ <-; cbn [String.length]; lia|].
    destruct (Ascii.eqb c "+"); injection E as _ <-; cbn [String.length]; lia. }
  destruct (Py.int_digits false body) as [ds|] eqn:Ed; [|done].
  cbn [mbind option_bind].
  destruct (NilEmpty.uint_of_string ds) as [u|] eqn:Eu; [|done].
  cbn [mbind option_bind]. intros [= <-].
  apply NilEmpty.sus in Eu. pose proof (of_uint_bound u) as Hu. rewrite Eu in Hu.
  pose proof (int_digits_length _ _ _ Ed) as Hd.
  assert (10 ^ Z.of_nat (String.length ds) ≤ 10 ^ Z.of_nat (String.length s))
    by (apply Z.pow_le_mono_r; lia).
  destruct neg; lia.
Qed.

(** A time string of at most [N] characters reads as minutes whose hours
    have at most [N] digits. *)
Lemma short_time_hours (N : Z) s m :
  Z.of_nat (String.length s) ≤ N → _time_to_minutes s = Some m → Z.abs (m / 60) < 10 ^ N.
Proof.
  intros Hlen (h & mi & hours & minutes & -> & _ & _ & Eh & Em & ->)%time_to_minutes_iff.
  rewrite !string_length_app in Hlen. cbn [String.length] in Hlen.
  apply int_bound in Eh, Em.
  set (lh := Z.of_nat (String.length h)) in *.
  set (lm := Z.of_nat (String.length mi)) in *.
  assert (0 ≤ lh ∧ 0 ≤ lm) as [? ?] by (unfold lh, lm; lia).
  assert (10 ^ lh ≤ 10 ^ (N - 1)) by (apply Z.pow_le_mono_r; lia).
  assert (10 ^ lm ≤ 10 ^ (N - 1)) by (apply Z.pow_le_mono_r; lia).
  assert (10 ^ N = 10 * 10 ^ (N - 1)) as ->.
  { replace N with (Z.succ (N - 1)) at 1 by lia. apply Z.pow_succ_r. lia. }
  rewrite Z.div_add_l by done.
  pose proof (Z.div_mod minutes 60 ltac:(done)).
  pose proof (Z.mod_pos_bound minutes 60 ltac:(done)).
  lia.
Qed.

Lemma within_str_length_hours s m :
  Py.within_str_length s → _time_to_minutes s = Some m → Py.within_str_digits (m / 60).
Proof. apply short_time_hours. Qed.

(** The endpoints that the cursor of [get_free_slots] puts out are the
    start of the window and endpoints of busy intervals. *)
Lemma gaps_endpoints (P : Z → Prop) busy c :
  P c → Forall (both P) busy → Forall (both P) (gaps busy c) ∧ P (cursor busy c).
Proof.
  intros Hc Hb. revert c Hc.
  induction Hb as [|[s e] rest [Hs He] Hrest IH]; intros c Hc; cbn [gaps cursor].
  - split; [constructor|done].
  - assert (P (Z.max c e)) as Hmax
      by (destruct (Z.max_spec c e) as [[_ ->]|[_ ->]]; done).
    destruct (IH _ Hmax) as [Hg Hcur]. split; [|done].
    apply Forall_app. split; [|done].
    destruct (c <? s); repeat constructor; done.
Qed.

Lemma free_of_endpoints (P : Z → Prop) ws we busy :
  P ws → P we → Forall (both P) busy → Forall (both P) (free_of ws we busy).
Proof.
  intros Hws Hwe Hb. destruct (gaps_endpoints P busy ws Hws Hb) as [Hg Hc].
  unfold free_of. apply Forall_app. split; [done|].
  destruct (cursor busy ws <? we); repeat constructor; done.
Qed.

Lemma parse_slots_both (P : string → Prop) (Q : Z → Prop) l L :
  (∀ s m, P s → _time_to_minutes s = Some m → Q m) →
  Forall (both P) l → parse_slots l = Some L → Forall (both Q) L.
Proof.
  intros HPQ Hl. revert L.
  induction Hl as [|[s e] l [Hs He] Hl IH]; intros L.
  - by intros [= <-].
  - rewrite parse_slots_cons. cbn [fst snd] in *.
    destruct (_parse_time_range s e) as [[a b]|] eqn:Hse; [|done].
    destruct (parse_slots l) as [r|]; [|done].
    cbn [mbind option_bind]. intros [= <-].
    apply parse_time_range_inv in Hse as [Ha Hb].
    constructor; [split; cbn [fst snd]; eauto | by apply IH].
Qed.

Lemma time_strings_window self date ws we :
  Forall Py.within_str_length (time_strings self date) →
  window self date = Some (ws, we) →
  Py.within_str_digits (ws / 60) ∧ Py.within_str_digits (we / 60).
Proof.
  unfold time_strings, window. intros Hall Hw.
  destruct (days self !! date) as [wd|]; [|done]. cbn [mbind option_bind] in Hw.
  apply parse_time_range_inv in Hw as [Hs He].
  apply Forall_app in Hall as [Hwd _].
  apply Forall_cons in Hwd as [H1 Hwd]. apply Forall_cons in Hwd as [H2 _].
  split; [exact (within_str_length_hours _ _ H1 Hs) | exact (within_str_length_hours _ _ H2 He)].
Qed.

Lemma time_strings_busy self date busy :
  Forall Py.within_str_length (time_strings self date) →
  busy_minutes self date = Some busy →
  Forall (both (λ m, Py.within_str_digits (m / 60))) busy.
Proof.
  unfold time_strings, busy_minutes. intros Hall Hb.
  apply Forall_app in Hall as [_ Hraw].
  apply (parse_slots_both Py.within_str_length _ _ _ within_str_length_hours) in Hb; [done|].
  rewrite get_busy_slots_default.
  apply merge_overlapping_slots_both.
  destruct (timeslots self !! date) as [raw|]; [|constructor]. cbn [default from_option].
  apply Forall_app in Hraw as [H1 H2].
  rewrite Forall_fmap in H1, H2. apply Forall_forall. intros p Hp.
  split; [by apply (proj1 (Forall_forall _ _) H1 p) | by apply (proj1 (Forall_forall _ _) H2 p)].
Qed.

End DigitLimit.

(** ** When [get_free_slots] raises, and what it returns without busy slots *)

(** For a date whose time strings, the working hours and the endpoints of
    the raw busy slots, have no more than [Py.max_str_digits] characters:
    [get_free_slots] returns when the date is not in the index; for a date of
    the index it raises exactly when the working hours of the date or one of
    its merged busy slots cannot be read as minutes; and every time it
    returns has hours of no more than [Py.max_str_digits] digits, so that
    printing it does not meet the interpreter's limit. *)
Theorem get_free_slots_raises self date :
  Forall Py.within_str_length (time_strings self date) →
  (get_free_slots self date = None ↔
   is_Some (days self !! date) ∧
   (window self date = None ∨ busy_minutes self date = None)) ∧
  ∀ free, free_minutes self date = Some free →
          Forall (both (λ m, Py.within_str_digits (m / 60))) free.
Proof.
  intros Hall. split.
  - destruct (days self !! date) as [wd|] eqn:Hd.
    + destruct (window self date) as [[ws we]|] eqn:Hw.
      * rewrite (get_free_slots_spec _ _ _ _ Hw).
        destruct (busy_minutes self date) as [busy|]; cbn [mbind option_bind].
        -- split; [done|]. by intros [_ [?|?]].
        -- split; [|done]. intros _. split; [by eexists|by right].
      * unfold window, get_free_slots in *. rewrite Hd in *. cbn [mbind option_bind] in Hw.
        rewrite Hw. split; [|done]. intros _. split; [by eexists|by left].
    + unfold get_free_slots. rewrite Hd. split; [done|]. by intros [[? ?] _].
  - intros free Hfree.
    destruct (days self !! date) as [wd|] eqn:Hd.
    + unfold free_minutes in Hfree.
      destruct (get_free_slots self date) as [fs|] eqn:Hfs; [|done].
      destruct (get_free_slots_inv _ _ _ _ Hd Hfs) as (ws & we & busy & Hw & Hb & _ & Hfm).
      unfold free_minutes in Hfm. rewrite Hfs in Hfm. rewrite Hfm in Hfree.
      injection Hfree as <-.
      destruct (time_strings_window _ _ _ _ Hall Hw) as [Hws Hwe].
      apply free_of_endpoints; [done|done|]. by apply (time_strings_busy self date).
    + unfold free_minutes, get_free_slots in Hfree. rewrite Hd in Hfree.
      cbn in Hfree. injection Hfree as <-. constructor.
Qed.

Lemma get_free_slots_raises_witness :
  (get_free_slots (__init__ (one_day "09:00" "18:00" [("11:00", "noon")])) "2024-10-10" = None ↔
   is_Some (days (__init__ (one_day "09:00" "18:00" [("11:00", "noon")])) !! "2024-10-10") ∧
   (window (__init__ (one_day "09:00" "18:00" [("11:00", "noon")])) "2024-10-10" = None ∨
    busy_minutes (__init__ (one_day "09:00" "18:00" [("11:00", "noon")])) "2024-10-10" = None)) ∧
  ∀ free,
    free_minutes (__init__ (one_day "09:00" "18:00" [("11:00", "noon")])) "2024-10-10" = Some free →
    Forall (both (λ m, Py.within_str_digits (m / 60))) free.
Proof.
  apply (get_free_slots_raises
           (__init__ (one_day "09:00" "18:00" [("11:00", "noon")])) "2024-10-10").
  unfold Py.within_str_length.
  repeat (apply List.Forall_cons; [by vm_compute|]). apply List.Forall_nil.
Defined.

Example get_free_slots_raising :
  get_free_slots (__init__ (one_day "9h" "18:00" [])) "2024-10-10" = None ∧
  get_free_slots (__init__ (one_day "09:00" "18:00" [("11:00", "noon")])) "2024-10-10" = None ∧
  get_busy_slots (__init__ (one_day "09:00" "18:00" [("11:00", "noon")])) "2024-10-10"
  = [("11:00", "noon")].
Proof. repeat split; vm_compute; reflexivity. Qed.

(** A date without busy slots is free for the whole working day: when
    [get_busy_slots] returns the empty list, [get_free_slots] returns the one
    interval from the start to the end of the working day, or nothing when
    the working day does not end after it starts. *)
Theorem free_without_busy self date ws we :
  window self date = Some (ws, we) →
  get_busy_slots self date = [] →
  get_free_slots self date
  = Some (if ws <? we then [(_minutes_to_time ws, _minutes_to_time we)] else []).
Proof.
  intros Hw Hb. rewrite (get_free_slots_spec _ _ _ _ Hw).
  unfold busy_minutes. rewrite Hb. cbn. by destruct (ws <? we).
Qed.

Lemma free_without_busy_witness :
  get_free_slots (__init__ (one_day "09:00" "18:00" [])) "2024-10-10"
  = Some (if 540 <? 1080 then [(_minutes_to_time 540, _minutes_to_time 1080)] else []).
Proof.
  apply (free_without_busy (__init__ (one_day "09:00" "18:00" [])) "2024-10-10" 540 1080).
  - vm_compute. reflexivity.
  - vm_compute. reflexivity.
Defined.

(** ** Free slots: in order, complete, and clear of the busy slots *)

Example backwards_busy_slots :
  get_busy_slots backwards_busy "2024-10-10" = [("10:00", "08:20"); ("11:40", "13:20")] ∧
  get_free_slots backwards_busy "2024-10-10"
  = Some [("09:00", "10:00"); ("09:00", "11:40"); ("13:20", "18:00")].
Proof. split; vm_compute; reflexivity. Qed.

(** When no merged busy slot of a date ends before it starts, the free
    slots come out in order and do not overlap: each ends at or before the
    start of the next. *)
Theorem free_slots_in_order self date ws we busy :
  window self date = Some (ws, we) →
  busy_minutes self date = Some busy →
  Forall (λ p, p.1 ≤ p.2) busy →
  ∃ free, free_minutes self date = Some free ∧
          StronglySorted (λ g h, g.2 ≤ h.1) free.
Proof.
  intros Hw Hb Hprop. exists (free_of ws we busy). split.
  - unfold free_minutes. rewrite (get_free_slots_spec _ _ _ _ Hw), Hb.
    cbn [mbind option_bind]. apply parse_slots_of_minutes.
  - by apply free_of_separated.
Qed.

Lemma free_slots_in_order_witness :
  ∃ free, free_minutes scheduler "2024-10-10" = Some free ∧
          StronglySorted (λ g h, g.2 ≤ h.1) free.
Proof.
  apply (free_slots_in_order scheduler "2024-10-10" 540 1080 [(660, 720)]).
  - vm_compute. reflexivity.
  - vm_compute. reflexivity.
  - repeat constructor; simpl; lia.
Defined.

(** No minute of the working day is left out: whenever the working hours
    and the merged busy slots of a date read as minutes, every minute of the
    window lies in a returned free slot or in a merged busy slot, whatever
    the busy slots are. *)
Theorem window_accounted_for self date ws we busy :
  window self date = Some (ws, we) →
  busy_minutes self date = Some busy →
  ∃ free, free_minutes self date = Some free ∧
          ∀ m, ws ≤ m → m < we → covered m free ∨ covered m busy.
Proof.
  intros Hw Hb. exists (free_of ws we busy). split.
  - unfold free_minutes. rewrite (get_free_slots_spec _ _ _ _ Hw), Hb.
    cbn [mbind option_bind]. apply parse_slots_of_minutes.
  - intros m. apply free_of_complete.
Qed.

Lemma window_accounted_for_witness :
  ∃ free, free_minutes unpadded "2024-10-10" = Some free ∧
          ∀ m, 480 ≤ m → m < 1080 → covered m free ∨ covered m [(600, 660); (540, 570)].
Proof.
  apply (window_accounted_for unpadded "2024-10-10" 480 1080 [(600, 660); (540, 570)]).
  - vm_compute. reflexivity.
  - vm_compute. reflexivity.
Defined.

(** For a date whose raw busy slots have well-formed time strings, no
    minute is both free and busy: a returned free slot and a merged busy slot
    never share a minute, also when busy slots lie outside the working
    day. *)
Theorem free_never_busy self date ws we busy :
  wf_busy self date = true →
  window self date = Some (ws, we) →
  busy_minutes self date = Some busy →
  ∃ free, free_minutes self date = Some free ∧
          ∀ m, ¬ (covered m free ∧ covered m busy).
Proof.
  intros Hwf Hw Hb. exists (free_of ws we busy). split.
  - unfold free_minutes. rewrite (get_free_slots_spec _ _ _ _ Hw), Hb.
    cbn [mbind option_bind]. apply parse_slots_of_minutes.
  - destruct (wf_busy_minutes _ _ Hwf) as (busy' & Hb' & Hs).
    rewrite Hb in Hb'. injection Hb' as <-.
    intros m [(g & Hg & Hmg) (p & Hp & Hmp)].
    pose proof (proj1 (Forall_forall _ _)
                  (free_of_clear ws we busy (sep_ascending _ Hs)) _ Hg) as Hc.
    rewrite forallb_forall in Hc. apply list_elem_of_In in Hp.
    specialize (Hc p Hp). apply clear_of_iff in Hc. lia.
Qed.

Lemma free_never_busy_witness :
  ∃ free, free_minutes late_busy "2024-10-10" = Some free ∧
          ∀ m, ¬ (covered m free ∧ covered m [(1140, 1200)]).
Proof.
  apply (free_never_busy late_busy "2024-10-10" 540 1080 [(1140, 1200)]).
  - vm_compute. reflexivity.
  - vm_compute. reflexivity.
  - vm_compute. reflexivity.
Defined.

(** ** [is_available]: errors, smaller requests, and the free slots *)

(** For a date of the index, a request whose start or end is no time string
    makes [is_available] raise; it is only for a date outside the index that
    such a request is answered, with [false]. *)
Theorem is_available_malformed self date start end_ :
  _parse_time_range start end_ = None →
  is_available self date start end_
  = match days self !! date with Some _ => None | None => Some false end.
Proof.
  intros Hse. unfold is_available. destruct (days self !! date) as [wd|]; [|done].
  destruct (_parse_time_range (day_start wd) (day_end wd)) as [[ws we]|]; [|done].
  cbn [mbind option_bind]. by rewrite Hse.
Qed.

Lemma is_available_malformed_witness :
  is_available scheduler "2024-10-10" "10h" "11:00"
  = match days scheduler !! "2024-10-10" with Some _ => None | None => Some false end.
Proof. apply (is_available_malformed scheduler "2024-10-10" "10h" "11:00"). reflexivity. Defined.

(** A request inside an available request is available. *)
Theorem is_available_shrinks self date s e s' e' a b a' b' :
  is_available self date s e = Some true →
  _parse_time_range s e = Some (a, b) →
  _parse_time_range s' e' = Some (a', b') →
  a ≤ a' → b' ≤ b →
  is_available self date s' e' = Some true.
Proof.
  intros (ws & we & a0 & b0 & busy & Hw & Hse & Hb & Hws & Hwe & Hc)%is_available_true
         Hse0 Hse' Ha Hb'.
  rewrite Hse in Hse0. injection Hse0 as -> ->.
  rewrite (is_available_spec _ _ _ _ ws we a' b' busy Hw Hse' Hb).
  rewrite (forallb_clear_mono a b a' b' busy Ha Hb' Hc).
  destruct (Z.leb_spec ws a'), (Z.leb_spec b' we); (done || lia).
Qed.

Lemma is_available_shrinks_witness :
  is_available scheduler "2024-10-10" "09:30" "10:30" = Some true.
Proof.
  apply (is_available_shrinks scheduler "2024-10-10" "09:00" "11:00" "09:30" "10:30"
           540 660 570 630).
  - vm_compute. reflexivity.
  - vm_compute. reflexivity.
  - vm_compute. reflexivity.
  - lia.
  - lia.
Defined.

(** [is_available] agrees with [get_free_slots]: for a date whose raw busy
    slots have well-formed time strings and whose merged busy slots do not
    end before they start, a request that is not empty is available exactly
    when it lies within the working hours and inside one of the returned free
    slots. *)
Theorem available_iff_in_free_slot self date ws we busy s e a b :
  wf_busy self date = true →
  window self date = Some (ws, we) →
  busy_minutes self date = Some busy →
  Forall (λ p, p.1 ≤ p.2) busy →
  _parse_time_range s e = Some (a, b) → a < b →
  ∃ free, free_minutes self date = Some free ∧
          (is_available self date s e = Some true ↔
           ws ≤ a ∧ b ≤ we ∧ Exists (inside a b) free).
Proof.
  intros Hwf Hw Hb Hprop Hse Hab. exists (free_of ws we busy). split.
  { unfold free_minutes. rewrite (get_free_slots_spec _ _ _ _ Hw), Hb.
    cbn [mbind option_bind]. apply parse_slots_of_minutes. }
  destruct (wf_busy_minutes _ _ Hwf) as (busy' & Hb' & Hs).
  rewrite Hb in Hb'. injection Hb' as <-.
  rewrite (is_available_spec _ _ _ _ ws we a b busy Hw Hse Hb). split.
  - intros [= Hav]. apply andb_true_iff in Hav as [[H1%Z.leb_le H2%Z.leb_le]%andb_true_iff Hc].
    split; [done|]. split; [done|]. rewrite forallb_forall in Hc.
    assert (∀ p, p ∈ busy → b ≤ p.1 ∨ p.2 ≤ a) as Hclear.
    { intros p Hp%list_elem_of_In. by apply clear_of_iff, Hc. }
    destruct (free_of_complete ws we busy a) as [(g & Hg & Hag)|(p & Hp & Hap)]; [lia..| |].
    + apply Exists_exists. exists g. split; [done|]. split; [lia|].
      unfold free_of in Hg. apply elem_of_app in Hg as [Hg|Hg].
      * pose proof (proj1 (Forall_forall _ _) (gaps_bounds busy ws) _ Hg)
          as (_ & _ & _ & p & Hp & Hgp).
        pose proof (proj1 (Forall_forall _ _) Hprop _ Hp) as Hpp. simpl in Hpp.
        destruct (Hclear p Hp); lia.
      * destruct (cursor busy ws <? we); [|by apply elem_of_nil in Hg].
        apply list_elem_of_singleton in Hg as ->. simpl. lia.
    + destruct (Hclear p Hp); lia.
  - intros (H1 & H2 & (g & Hg & Hg1 & Hg2)%Exists_exists). f_equal.
    pose proof (proj1 (Forall_forall _ _)
                  (free_of_clear ws we busy (sep_ascending _ Hs)) _ Hg) as Hc.
    rewrite (forallb_clear_mono g.1 g.2 a b busy Hg1 Hg2 Hc).
    destruct (Z.leb_spec ws a), (Z.leb_spec b we); (done || lia).
Qed.

Lemma available_iff_in_free_slot_witness :
  ∃ free, free_minutes scheduler "2024-10-10" = Some free ∧
          (is_available scheduler "2024-10-10" "12:30" "13:00" = Some true ↔
           540 ≤ 750 ∧ 780 ≤ 1080 ∧ Exists (inside 750 780) free).
Proof.
  apply (available_iff_in_free_slot scheduler "2024-10-10" 540 1080 [(660, 720)]
           "12:30" "13:00" 750 780).
  - vm_compute. reflexivity.
  - vm_compute. reflexivity.
  - vm_compute. reflexivity.
  - repeat constructor; simpl; lia.
  - vm_compute. reflexivity.
  - lia.
Defined.

(** ** What [find_slot_for_duration] returns *)

(** The interval that [find_slot_for_duration] returns has the requested
    length, starts where a free slot of its date starts, and is itself
    available when the raw busy slots of that date have well-formed time
    strings and none of its merged busy slots starts after the end of the
    working day. *)
Theorem found_slot_is_available self duration date start end_ :
  find_slot_for_duration self duration = Some (Some (date, start, end_)) →
  ∃ a free_slots slot_end,
    _parse_time_range start end_ = Some (a, a + duration) ∧
    get_free_slots self date = Some free_slots ∧ (start, slot_end) ∈ free_slots ∧
    (wf_busy self date = true →
     ∀ ws we busy,
       window self date = Some (ws, we) → busy_minutes self date = Some busy →
       Forall (λ p, p.1 ≤ we) busy →
       is_available self date start end_ = Some true).
Proof.
  intros Hr.
  destruct (find_in_dates_Some _ _ _ _ Hr)
    as (dpre & date' & dpost & pre & s & e & post & sm & _ & _ & Hf & _ & Hfit & Hs & Heq).
  injection Heq as -> -> ->.
  exists sm, (pre ++ (s, e) :: post), e.
  assert (_parse_time_range s (_minutes_to_time (sm + duration)) = Some (sm, sm + duration))
    as Hse.
  { unfold _parse_time_range. by rewrite Hs, time_to_minutes_to_time. }
  split; [done|]. split; [done|]. split; [set_solver|].
  intros Hwf ws we busy Hw Hb Hlate.
  rewrite (get_free_slots_spec _ _ _ _ Hw), Hb in Hf. injection Hf as Hf.
  assert ((s, e) ∈ slot_of_minutes <$> free_of ws we busy) as Hin
    by (rewrite Hf; set_solver).
  apply list_elem_of_fmap in Hin as ([ga gb] & Hg & Hgin). injection Hg as -> ->.
  destruct Hfit as (n & Hn & Hdn). unfold span in Hn. simpl in Hn.
  rewrite !time_to_minutes_to_time in Hn. injection Hn as <-.
  rewrite time_to_minutes_to_time in Hs. injection Hs as <-.
  destruct (wf_busy_minutes _ _ Hwf) as (busy' & Hb' & Hsep).
  rewrite Hb in Hb'. injection Hb' as <-.
  pose proof (free_of_available ws we busy (ga, gb) (sep_ascending _ Hsep) Hlate Hgin) as Hav.
  simpl in Hav. apply andb_true_iff in Hav as [[H1%Z.leb_le H2%Z.leb_le]%andb_true_iff Hc].
  rewrite (is_available_spec _ _ _ _ ws we ga (ga + duration) busy Hw Hse Hb).
  rewrite (forallb_clear_mono ga gb ga (ga + duration) busy ltac:(lia) ltac:(lia) Hc).
  destruct (Z.leb_spec ws ga), (Z.leb_spec (ga + duration) we); (done || lia).
Qed.

Lemma found_slot_is_available_witness :
  is_available scheduler "2024-10-10" "12:00" "14:10" = Some true.
Proof.
  destruct (found_slot_is_available scheduler 130 "2024-10-10" "12:00" "14:10")
    as (a & free_slots & slot_end & _ & _ & _ & Hav).
  - vm_compute. reflexivity.
  - apply (Hav ltac:(vm_compute; reflexivity) 540 1080 [(660, 720)]).
    + vm_compute. reflexivity.
    + vm_compute. reflexivity.
    + repeat constructor; simpl; lia.
Defined.
